(** * Google Maps scraper: extraction and navigation core

    A shallow embedding of [scraper.js] (fingerprint set-up, scroll driver,
    summary-card extraction, de-duplication, per-record loop) and of
    [utils/detailExtractor.js] ([extractBusinessDetails]); the line numbers
    quoted for the latter are those of the source bundle it comes in.

    - JavaScript strings are sequences of UTF-16 code units ([list N]).
    - Business objects are finite maps from property names to values.
    - The browser page is an external world: every Puppeteer call is an
      operation of the [Page] interface that may throw and may change the
      world; code that runs inside [page.evaluate] is a pure function of
      the DOM snapshot the page hands back.
    - [await], [try]/[catch] and [throw] live in a state-and-exception
      monad; what is thrown is an [Error] object, and business objects
      are values: nobody mutates one after it is built. *)

From Stdlib Require Import ZArith NArith QArith Qround Lia Bool Ascii String.
From stdpp Require Import gmap strings list pretty.

Open Scope N_scope.

(* ===================================================================== *)
(** ** JavaScript strings and values                                      *)
(* ===================================================================== *)

Module JS.

(** A string literal of the source, as code units. *)
Definition js (s : string) : list N :=
  map (fun a => N_of_ascii a) (list_ascii_of_string s).

(** [\d] *)
Definition isDigit (c : N) : bool := (48 <=? c) && (c <=? 57).

(** [\s], which is also the set [String.prototype.trim] strips:
    WhiteSpace and LineTerminator of ECMAScript. *)
Definition isWhiteSpace (c : N) : bool :=
  ((9 <=? c) && (c <=? 13)) || (c =? 32) || (c =? 160) || (c =? 5760)
  || ((8192 <=? c) && (c <=? 8202)) || (c =? 8232) || (c =? 8233)
  || (c =? 8239) || (c =? 8287) || (c =? 12288) || (c =? 65279).

Definition isChar (a : ascii) (c : N) : bool := c =? N_of_ascii a.

Definition isAlpha (c : N) : bool :=
  ((97 <=? c) && (c <=? 122)) || ((65 <=? c) && (c <=? 90)).

Fixpoint dropWhile (p : N -> bool) (s : list N) : list N :=
  match s with
  | [] => []
  | c :: s' => if p c then dropWhile p s' else s
  end.

Definition trimStart (s : list N) : list N := dropWhile isWhiteSpace s.
Definition trimEnd (s : list N) : list N := rev (dropWhile isWhiteSpace (rev s)).
(** [s.trim()] *)
Definition trim (s : list N) : list N := trimEnd (trimStart s).

Fixpoint startsWith (pat s : list N) : bool :=
  match pat, s with
  | [], _ => true
  | _ :: _, [] => false
  | p :: pat', c :: s' => (p =? c) && startsWith pat' s'
  end.

(** [s.includes(pat)] *)
Fixpoint includes (pat s : list N) : bool :=
  startsWith pat s ||
  match s with
  | [] => false
  | _ :: s' => includes pat s'
  end.

(** [s.replace(pat, '')] with a string pattern: the first occurrence. *)
Fixpoint removeFirst (pat s : list N) : list N :=
  if startsWith pat s then drop (length pat) s
  else match s with
       | [] => []
       | c :: s' => c :: removeFirst pat s'
       end.

(** [s.replace(/\D/g, '')] *)
Definition digitsOnly (s : list N) : list N := List.filter isDigit s.

(** [s.replace(/,/g, '')] *)
Definition removeCommas (s : list N) : list N :=
  List.filter (fun c => negb (isChar "," c)) s.

(** [s.substring(0, n)] *)
Definition substring0 (n : nat) (s : list N) : list N := take n s.

(** Values a property of a business object can hold. *)
Inductive Value :=
| JUndefined
| JNull
| JNum (q : Q)
| JStr (s : list N).

(** Truthiness, as [if (v)], [v && ...] and [v || ...] see it. *)
Definition truthy (v : Value) : bool :=
  match v with
  | JUndefined | JNull => false
  | JNum q => negb (Qeq_bool q 0)
  | JStr s => match s with [] => false | _ => true end
  end.

(** [a || b] *)
Definition or (a b : Value) : Value := if truthy a then a else b.

(** What the DOM returns for [getAttribute], [textContent] and for an
    optional chain [x?.y]: a string, or [null]/[undefined] ([None]). *)
Definition nonEmpty (o : option (list N)) : bool :=
  match o with
  | Some (_ :: _) => true
  | _ => false
  end.

(** [a || b] on DOM strings. *)
Definition orElse (a b : option (list N)) : option (list N) :=
  if nonEmpty a then a else b.

(** [o || null] as a property value. *)
Definition ofDom (o : option (list N)) : Value :=
  match o with
  | Some s => JStr s
  | None => JNull
  end.

(** [a === b] on the values above (numbers compare by value). *)
Definition strictEq (a b : Value) : bool :=
  match a, b with
  | JUndefined, JUndefined => true
  | JNull, JNull => true
  | JNum p, JNum q => Qeq_bool p q
  | JStr s, JStr t => bool_decide (s = t)
  | _, _ => false
  end.

End JS.

(* ===================================================================== *)
(** ** Regular expressions                                                *)
(* ===================================================================== *)

(** The regular expressions of the source are all sequences of character
    classes under a greedy quantifier, so a pattern is a list of
    quantified classes; matching backtracks the way the ECMAScript
    matcher does (longest repetition first). *)

Module Regex.

Record Atom := {
  cls : N -> bool;          (* the character class *)
  atLeast : nat;            (* {atLeast, atMost} *)
  atMost : option nat       (* [None]: unbounded *)
}.

Definition one (p : N -> bool) : Atom := {| cls := p; atLeast := 1; atMost := Some 1%nat |}.
Definition opt (p : N -> bool) : Atom := {| cls := p; atLeast := 0; atMost := Some 1%nat |}.
Definition star (p : N -> bool) : Atom := {| cls := p; atLeast := 0; atMost := None |}.
Definition plus (p : N -> bool) : Atom := {| cls := p; atLeast := 1; atMost := None |}.
Definition rep (p : N -> bool) (lo : nat) (hi : option nat) : Atom :=
  {| cls := p; atLeast := lo; atMost := hi |}.

(** A literal string inside a pattern. *)
Definition lit (s : string) : list Atom := map (fun c => one (N.eqb c)) (JS.js s).

Definition below (n : nat) (hi : option nat) : bool :=
  match hi with
  | None => true
  | Some m => (n <? m)%nat
  end.

(** Match the pattern at the start of [s]; the result is the matched
    prefix. *)
Fixpoint matchHere (pat : list Atom) (s : list N) : option (list N) :=
  match pat with
  | [] => Some []
  | a :: pat' =>
      (fix repeat (n : nat) (s : list N) {struct s} : option (list N) :=
         let stop := if (atLeast a <=? n)%nat then matchHere pat' s else None in
         match s with
         | [] => stop
         | c :: s' =>
             if cls a c && below n (atMost a) then
               match repeat (S n) s' with
               | Some m => Some (c :: m)
               | None => stop
               end
             else stop
         end) 0%nat s
  end.

(** [s.match(re)] without the [g] flag: the leftmost match. *)
Fixpoint exec (pat : list Atom) (s : list N) : option (list N) :=
  match matchHere pat s with
  | Some m => Some m
  | None =>
      match s with
      | [] => None
      | _ :: s' => exec pat s'
      end
  end.

(** The successive matches of a [g] pattern; [skip] code units belong to
    the previous match. *)
Fixpoint matchesFrom (pat : list Atom) (skip : nat) (s : list N) : list (list N) :=
  match skip, s with
  | S k, _ :: s' => matchesFrom pat k s'
  | S _, [] => []
  | O, [] => match matchHere pat [] with Some m => [m] | None => [] end
  | O, _ :: s' =>
      match matchHere pat s with
      | Some m => m :: matchesFrom pat (length m - 1) s'
      | None => matchesFrom pat 0 s'
      end
  end.

(** [s.match(re)] with the [g] flag: [null] when nothing matches. *)
Definition matchAll (pat : list Atom) (s : list N) : option (list (list N)) :=
  match matchesFrom pat 0 s with
  | [] => None
  | ms => Some ms
  end.

End Regex.

(* ===================================================================== *)
(** ** Fingerprint randomizer ([scraper.js], lines 9-186)                 *)
(* ===================================================================== *)

Module Fingerprint.

Definition userAgents : list (list N) := map JS.js [
  "Mozilla/5.0 (Windows NT 10.0; Win64; x64) AppleWebKit/537.36 (KHTML, like Gecko) Chrome/120.0.0.0 Safari/537.36";
  "Mozilla/5.0 (Windows NT 10.0; Win64; x64) AppleWebKit/537.36 (KHTML, like Gecko) Chrome/119.0.0.0 Safari/537.36";
  "Mozilla/5.0 (Windows NT 10.0; Win64; x64) AppleWebKit/537.36 (KHTML, like Gecko) Chrome/121.0.0.0 Safari/537.36";
  "Mozilla/5.0 (Windows NT 11.0; Win64; x64) AppleWebKit/537.36 (KHTML, like Gecko) Chrome/120.0.0.0 Safari/537.36";
  "Mozilla/5.0 (Macintosh; Intel Mac OS X 10_15_7) AppleWebKit/537.36 (KHTML, like Gecko) Chrome/120.0.0.0 Safari/537.36";
  "Mozilla/5.0 (Macintosh; Intel Mac OS X 10_15_7) AppleWebKit/537.36 (KHTML, like Gecko) Chrome/119.0.0.0 Safari/537.36";
  "Mozilla/5.0 (Macintosh; Intel Mac OS X 13_6_1) AppleWebKit/537.36 (KHTML, like Gecko) Chrome/120.0.0.0 Safari/537.36";
  "Mozilla/5.0 (Windows NT 10.0; Win64; x64; rv:121.0) Gecko/20100101 Firefox/121.0";
  "Mozilla/5.0 (Windows NT 10.0; Win64; x64; rv:120.0) Gecko/20100101 Firefox/120.0";
  "Mozilla/5.0 (Macintosh; Intel Mac OS X 10.15; rv:121.0) Gecko/20100101 Firefox/121.0";
  "Mozilla/5.0 (Macintosh; Intel Mac OS X 10.15; rv:120.0) Gecko/20100101 Firefox/120.0";
  "Mozilla/5.0 (Macintosh; Intel Mac OS X 10_15_7) AppleWebKit/605.1.15 (KHTML, like Gecko) Version/17.1 Safari/605.1.15";
  "Mozilla/5.0 (Macintosh; Intel Mac OS X 10_15_7) AppleWebKit/605.1.15 (KHTML, like Gecko) Version/17.0 Safari/605.1.15";
  "Mozilla/5.0 (Windows NT 10.0; Win64; x64) AppleWebKit/537.36 (KHTML, like Gecko) Chrome/120.0.0.0 Safari/537.36 Edg/120.0.0.0";
  "Mozilla/5.0 (Windows NT 10.0; Win64; x64) AppleWebKit/537.36 (KHTML, like Gecko) Chrome/119.0.0.0 Safari/537.36 Edg/119.0.0.0";
  "Mozilla/5.0 (X11; Linux x86_64) AppleWebKit/537.36 (KHTML, like Gecko) Chrome/120.0.0.0 Safari/537.36"
]%string.

Record Viewport := { width : Z; height : Z }.

Definition viewports : list Viewport := [
  {| width := 1920; height := 1080 |};
  {| width := 1366; height := 768 |};
  {| width := 1536; height := 864 |};
  {| width := 1440; height := 900 |};
  {| width := 1280; height := 720 |};
  {| width := 1600; height := 900 |}
]%Z.

(** [Math.floor(Math.random() * n)], for the value [r] that
    [Math.random()] returned. *)
Definition randomIndex (r : Q) (n : nat) : nat :=
  Z.to_nat (Qfloor (r * inject_Z (Z.of_nat n))).

(** [getRandomUserAgent]; [None] is [undefined]. *)
Definition getRandomUserAgent (r : Q) : option (list N) :=
  userAgents !! randomIndex r (length userAgents).

(** [getRandomViewport] *)
Definition getRandomViewport (r : Q) : option Viewport :=
  viewports !! randomIndex r (length viewports).

Definition timezones : list string :=
  ["America/New_York"; "America/Los_Angeles"; "America/Chicago";
   "Europe/London"; "Asia/Karachi"]%string.

Definition offsets : list (string * Z) :=
  [("America/New_York", 300); ("America/Los_Angeles", 480);
   ("America/Chicago", 360); ("Europe/London", 0);
   ("Asia/Karachi", -300)]%string%Z.

Fixpoint lookupOffset (tz : string) (table : list (string * Z)) : option Z :=
  match table with
  | [] => None
  | (k, v) :: table' => if String.eqb k tz then Some v else lookupOffset tz table'
  end.

(** What one document sees once the script registered with
    [evaluateOnNewDocument] has run in it. *)
Record Overrides := {
  nav_userAgent : list N;
  nav_platform : list N;
  nav_languages : list (list N);
  nav_language : list N;
  nav_webdriver : bool;
  nav_plugins : list Z;
  screen_width : Z;
  screen_height : Z;
  screen_availWidth : Z;
  screen_availHeight : Z;
  randomTimezone : option string;
  getTimezoneOffset : Z;
  unmaskedVendor : list N;
  unmaskedRenderer : list N
}.

Definition platformOf (ua : list N) : list N :=
  if JS.includes (JS.js "Windows") ua then JS.js "Win32"
  else if JS.includes (JS.js "Mac") ua then JS.js "MacIntel"
  else if JS.includes (JS.js "Linux") ua then JS.js "Linux x86_64"
  else JS.js "Win32".

(** The callback of [evaluateOnNewDocument]: it runs in every new
    document of the page, with the [ua] and [vp] passed at registration
    and with [r], the value its own [Math.random()] call returns in that
    document. *)
Definition onNewDocument (ua : list N) (vp : Viewport) (r : Q) : Overrides :=
  let randomTimezone := timezones !! randomIndex r (length timezones) in
  {| nav_userAgent := ua;
     nav_platform := platformOf ua;
     nav_languages := [JS.js "en-US"; JS.js "en"];
     nav_language := JS.js "en-US";
     nav_webdriver := false;
     nav_plugins := [1; 2; 3; 4; 5]%Z;
     screen_width := width vp;
     screen_height := height vp;
     screen_availWidth := width vp;
     screen_availHeight := (height vp - 40)%Z;
     randomTimezone := randomTimezone;
     getTimezoneOffset :=
       match randomTimezone with
       | Some tz => default 0%Z (lookupOffset tz offsets)
       | None => 0%Z
       end;
     unmaskedVendor := JS.js "Intel Inc.";
     unmaskedRenderer := JS.js "Intel Iris OpenGL Engine" |}.

(** What [setupFingerprintAvoidance] fixes for the page: the user agent
    and viewport it drew, and the script every later document runs. *)
Record PageSetup := {
  userAgent : list N;
  viewport : Viewport;
  initScript : Q -> Overrides
}.

(** [setupFingerprintAvoidance], for the two values [r1] and [r2] its
    [Math.random()] calls return. *)
Definition setupFingerprintAvoidance (r1 r2 : Q) : option PageSetup :=
  match getRandomUserAgent r1, getRandomViewport r2 with
  | Some ua, Some vp =>
      Some {| userAgent := ua; viewport := vp; initScript := onNewDocument ua vp |}
  | _, _ => None
  end.

(** The session fingerprint of the specification, as one document of the
    session observes it: [r] is the draw of that document's script. *)
Record Identity := {
  id_userAgent : list N;
  id_viewport : Z * Z;
  id_timezoneChoice : option string;
  id_timezoneOffset : Z
}.

Definition identityIn (setup : PageSetup) (r : Q) : Identity :=
  let o := initScript setup r in
  {| id_userAgent := nav_userAgent o;
     id_viewport := (screen_width o, screen_height o);
     id_timezoneChoice := randomTimezone o;
     id_timezoneOffset := getTimezoneOffset o |}.

End Fingerprint.

(* ===================================================================== *)
(** ** Scroll driver ([scraper.js], lines 269-403)                        *)
(* ===================================================================== *)

Module Scroll.

Record State := {
  previousCount : nat;
  currentCount : nat;
  scrollAttempts : nat;
  noChangeCount : nat
}.

Definition maxScrollAttempts : nat := 100.

Definition initial : State :=
  {| previousCount := 0; currentCount := 0; scrollAttempts := 0; noChangeCount := 0 |}.

(** The count one check reports: the largest number of matches among the
    selectors tried, given the number of matches of each. *)
Definition countResults (lengths : list nat) : nat :=
  fold_left (fun maxCount n => if (maxCount <? n)%nat then n else maxCount) lengths 0%nat.

Inductive Step :=
| Break (st : State)
| Continue (st : State).

(** One pass through the body of the [while] loop with the count the
    page reported; the nudges between the comparison and
    [scrollAttempts++] do not touch these variables. *)
Definition iteration (st : State) (count : nat) : Step :=
  let current := count in
  if (current =? previousCount st)%nat then
    let noChange := S (noChangeCount st) in
    if (2 <=? noChange)%nat then
      Break {| previousCount := previousCount st; currentCount := current;
               scrollAttempts := scrollAttempts st; noChangeCount := noChange |}
    else
      Continue {| previousCount := current; currentCount := current;
                  scrollAttempts := S (scrollAttempts st); noChangeCount := noChange |}
  else
    Continue {| previousCount := current; currentCount := current;
                scrollAttempts := S (scrollAttempts st); noChangeCount := 0 |}.

(** How the loop ends on a sequence of counts: it stops at stability,
    it leaves at the cap, or the sequence ends while the loop still
    asks for another count. The counts not consumed are kept. *)
Inductive Outcome :=
| Stable (st : State) (unused : list nat)
| Capped (st : State) (unused : list nat)
| Pending (st : State).

Fixpoint scrollLoop (counts : list nat) (st : State) : Outcome :=
  if (scrollAttempts st <? maxScrollAttempts)%nat then
    match counts with
    | [] => Pending st
    | count :: counts' =>
        match iteration st count with
        | Break st' => Stable st' counts'
        | Continue st' => scrollLoop counts' st'
        end
    end
  else Capped st counts.

Definition finalState (o : Outcome) : State :=
  match o with
  | Stable st _ | Capped st _ | Pending st => st
  end.

(** The number of checks the loop made on [counts]. *)
Definition checks (counts : list nat) (o : Outcome) : nat :=
  match o with
  | Stable _ unused | Capped _ unused => (length counts - length unused)%nat
  | Pending _ => length counts
  end.

Definition terminated (o : Outcome) : bool :=
  match o with
  | Pending _ => false
  | _ => true
  end.

End Scroll.

(* ===================================================================== *)
(** ** Business objects                                                   *)
(* ===================================================================== *)

(** A business object: its own properties. [{...b, k: v}] is [<[k:=v]> b]. *)
Abbreviation Business := (gmap string JS.Value).

(** [b.k]: [undefined] when the property is missing. *)
Definition prop (b : Business) (k : string) : JS.Value :=
  default JS.JUndefined (b !! k).

(* ===================================================================== *)
(** ** Summary cards ([scraper.js], lines 409-522)                        *)
(* ===================================================================== *)

Module Summary.
Import JS Regex.

(** What the extraction callback reads from one result element. A field
    named after an element is [None] when no element matches (the
    optional chain gives [undefined]) or the attribute is missing. *)
Record Card := {
  textContent : list N;                 (* element.textContent *)
  href : option (list N);               (* el.href || el.getAttribute('href') *)
  ariaLabel : option (list N);          (* element.getAttribute('aria-label') *)
  nameText : option (list N);           (* nameElement?.textContent *)
  ratingAria : option (list N);         (* ratingElement?.getAttribute('aria-label') *)
  ratingTextContent : option (list N);  (* ratingElement?.textContent *)
  reviewAria : option (list N);
  reviewTextContent : option (list N);
  addressText : option (list N);        (* addressElement?.textContent *)
  phoneAria : option (list N);          (* phoneElement?.getAttribute('aria-label') *)
  websiteHref : option (list N);        (* websiteElement?.getAttribute('href') *)
  placeHref : option (list N)           (* linkElement?.getAttribute('href') *)
}.

(** The identifier under which an element is remembered in
    [seenElements]. *)
Definition identifier (el : Card) : list N :=
  substring0 50 (textContent el) ++ default [] (orElse (href el) (Some [])).

(** The elements of all selectors, in order, each identifier once. *)
Fixpoint collect (seen : list (list N)) (els : list Card) : list Card :=
  match els with
  | [] => []
  | el :: els' =>
      if bool_decide (identifier el ∈ seen) then collect seen els'
      else el :: collect (identifier el :: seen) els'
  end.

Definition businessElements (bySelector : list (list Card)) : list Card :=
  collect [] (concat bySelector).

(** The decimal rendering of [index + 1] in the name of last resort. *)
Definition fallbackName (index : nat) : list N :=
  js "Business " ++ js (pretty (S index)).

(** [/\d+\.?\d*/], the whole match being its one group *)
Definition ratingRe : list Atom := [plus isDigit; opt (isChar "."); star isDigit].
(** [/\d+[\d,]*/], the whole match being its one group *)
Definition reviewRe : list Atom :=
  [plus isDigit; star (fun c => isDigit c || isChar "," c)].
(** [/\d[\d\s\-\(\)]+/] *)
Definition phoneRe : list Atom :=
  [one isDigit;
   plus (fun c => isDigit c || isWhiteSpace c || isChar "-" c || isChar "(" c || isChar ")" c)].
(** [/\/place\/[^\/]+/]; the group is what follows [/place/] *)
Definition placeRe : list Atom := lit "/place/" ++ [plus (fun c => negb (isChar "/" c))].

(** The number a run of decimal digits denotes. *)
Definition digitsValue (ds : list N) : N :=
  fold_left (fun acc d => 10 * acc + (d - 48)) ds 0.

Fixpoint takeWhile (p : N -> bool) (s : list N) : list N :=
  match s with
  | [] => []
  | c :: s' => if p c then c :: takeWhile p s' else []
  end.

(** [parseInt(s)] for a string that starts with a digit: the number its
    leading digits denote. *)
Definition parseInt (s : list N) : Q :=
  inject_Z (Z.of_N (digitsValue (takeWhile isDigit s))).

(** [parseFloat(s)] for a match of [ratingRe]: the decimal number
    written there, as an exact rational (the source rounds it to the
    nearest double). *)
Definition parseFloat (s : list N) : Q :=
  let whole := takeWhile isDigit s in
  let rest := drop (length whole) s in
  let frac := match rest with
              | c :: rest' => if isChar "." c then takeWhile isDigit rest' else []
              | [] => []
              end in
  let scale := (10 ^ N.of_nat (length frac)) in
  Qred (Z.of_N (digitsValue whole * scale + digitsValue frac) # N.succ_pos (scale - 1)).

(** The callback of [businessElements.forEach]: the record it pushes,
    if any. *)
Definition extractCard (index : nat) (element : Card) : option Business :=
  let name :=
    orElse (trim <$> nameText element)
      (orElse (trim <$> ariaLabel element)
         (orElse (Some (trim (textContent element)))
            (Some (fallbackName index)))) in
  let ratingText := default [] (orElse (ratingAria element)
                                  (orElse (ratingTextContent element) (Some []))) in
  let rating := match exec ratingRe ratingText with
                | Some m => JNum (parseFloat m)
                | None => JNull
                end in
  let reviewText := default [] (orElse (reviewAria element)
                                  (orElse (reviewTextContent element) (Some []))) in
  let reviewCount := match exec reviewRe reviewText with
                     | Some m => JNum (parseInt (removeCommas m))
                     | None => JNull
                     end in
  let address := orElse (trim <$> addressText element) None in
  let phone := orElse (phoneAria element ≫= exec phoneRe) None in
  let website := orElse (websiteHref element) None in
  let website :=
    match website with
    | Some w =>
        if nonEmpty website
           && (includes (js "google.com/maps") w || includes (js "maps.google.com") w)
        then None else website
    | None => None
    end in
  let placeUrl := orElse (placeHref element) None in
  let placeIdMatch := placeUrl ≫= exec placeRe in
  let placeId := match placeIdMatch with
                 | Some m => JStr (drop (length (js "/place/")) m)
                 | None => JNull
                 end in
  match name with
  | Some n =>
      if nonEmpty name && negb (bool_decide (n = fallbackName index)) then
        Some (<["name" := JStr n]>
             (<["rating" := rating]>
             (<["reviewCount" := reviewCount]>
             (<["address" := ofDom address]>
             (<["phone" := ofDom phone]>
             (<["website" := ofDom website]>
             (<["placeId" := placeId]>
             (<["placeUrl" :=
                  match placeUrl with
                  | Some u =>
                      if nonEmpty placeUrl then
                        if startsWith (js "http") u then JStr u
                        else JStr (js "https://www.google.com" ++ u)
                      else JNull
                  | None => JNull
                  end]> ∅))))))))
      else None
  | None => None
  end.

(** [businessElements.forEach((element, index) => ...)] *)
Fixpoint extractFrom (index : nat) (elements : list Card) : list Business :=
  match elements with
  | [] => []
  | element :: elements' =>
      match extractCard index element with
      | Some b => b :: extractFrom (S index) elements'
      | None => extractFrom (S index) elements'
      end
  end.

(** The array the extraction callback returns for the elements that each
    selector matched. *)
Definition extractBusinesses (bySelector : list (list Card)) : list Business :=
  extractFrom 0 (businessElements bySelector).

(** [self.findIndex(p)]: [-1] when nothing satisfies [p]. *)
Fixpoint findIndexFrom {A} (p : A -> bool) (i : Z) (l : list A) : Z :=
  match l with
  | [] => (-1)%Z
  | x :: l' => if p x then i else findIndexFrom p (i + 1)%Z l'
  end.

Definition findIndex {A} (p : A -> bool) (l : list A) : Z := findIndexFrom p 0%Z l.

(** [self.filter((x, index) => keep x index)] *)
Fixpoint filterIndexed {A} (keep : A -> Z -> bool) (i : Z) (l : list A) : list A :=
  match l with
  | [] => []
  | x :: l' =>
      if keep x i then x :: filterIndexed keep (i + 1)%Z l'
      else filterIndexed keep (i + 1)%Z l'
  end.

Definition sameName (business b : Business) : bool :=
  strictEq (prop b "name") (prop business "name").

(** [uniqueResults] (lines 519-522). *)
Definition uniqueResults (results : list Business) : list Business :=
  filterIndexed
    (fun business index => (index =? findIndex (sameName business) results)%Z)
    0%Z results.

End Summary.

(* ===================================================================== *)
(** ** Exceptions                                                         *)
(* ===================================================================== *)

(** A thrown [Error] with its [message]. *)
Inductive Error := MkError (message : list N).

Definition TypeError : Error := MkError (JS.js "TypeError").

(** The result of an evaluation that may throw. *)
Inductive Res (A : Type) :=
| Ok (a : A)
| Throw (e : Error).
Arguments Ok {A} a.
Arguments Throw {A} e.

(** Built-ins of the JavaScript platform that the model does not look
    into: Unicode lower-casing, the host name that [new URL(href)]
    parses ([None]: the constructor throws a [TypeError]) and the
    percent-encoding of the query. *)
Class Platform := {
  toLowerCase : list N -> list N;
  hostname : list N -> option (list N);
  encodeURIComponent : list N -> list N
}.

(* ===================================================================== *)
(** ** Detail page: the extraction callback (detailExtractor.js, 490-799) *)
(* ===================================================================== *)

Module Detail.
Import JS Regex.

(** The element matched for the "Phone" control. *)
Record PhoneButton := {
  pb_ariaLabel : option (list N);
  pb_textContent : option (list N);
  pb_href : option (list N);
  pb_closestHref : option (list N);     (* closest('a')?.getAttribute('href') *)
  pb_title : option (list N)
}.

(** An element of class [.Io6YTe.fontBodyMedium]. *)
Record ContactElement := {
  ce_textContent : option (list N);
  ce_ariaLabel : option (list N);
  ce_telLink : option (list N);         (* href of its a[href^="tel:"], if any *)
  ce_httpLink : option (option (list N)); (* its a[href^="http"], if any, and its href *)
  ce_previousText : option (list N)     (* previousElementSibling?.textContent *)
}.

(** [[role="main"]] or [.m6QErb]. *)
Record MainPanel := {
  mp_contactElements : list ContactElement;
  mp_telLinks : list (option (list N)); (* href of each a[href^="tel:"] *)
  mp_innerText : option (list N);
  mp_textContent : option (list N)
}.

(** An [a[href^="http"]] element. *)
Record Link := {
  l_href : option (list N);
  l_ariaLabel : option (list N);
  l_textContent : option (list N);
  l_inWebsiteControl : bool;            (* closest('[data-value="Website"]') *)
  l_inMainPanel : bool                  (* closest [role="main"] or .m6QErb *)
}.

(** The element matched for the "Website" control. *)
Record WebsiteButton := {
  wb_href : option (list N);
  wb_closestHref : option (list N)
}.

(** An element read for its text or, failing that, its label. *)
Record Labelled := {
  lb_textContent : option (list N);
  lb_ariaLabel : option (list N)
}.

(** The snapshot of the document the callback reads. *)
Record Dom := {
  panelNames : list (option (list N));  (* textContent of the four name selectors *)
  phoneButton : option PhoneButton;
  mainPanel : option MainPanel;
  websiteButton : option WebsiteButton;
  websiteSectionLinks : option (list Link); (* links of the main info section, if found *)
  contactInfoElements : list ContactElement; (* document-wide *)
  allLinks : list Link;
  addressElements : list (option Labelled); (* one per address selector, in order *)
  hoursElement : option Labelled;
  categoryElement : option Labelled
}.

(** The [details] object the callback returns. *)
Record Details := {
  phone : option (list N);
  website : option (list N);
  address : option (list N);
  hours : option (list N);
  category : option (list N);
  description : option (list N);
  verifiedBusinessName : option (list N)
}.

(** [a?.trim() || b?.trim() || ...] over the name selectors. *)
Fixpoint firstName (candidates : list (option (list N))) : option (list N) :=
  match candidates with
  | [] => None
  | [c] => trim <$> c
  | c :: rest => orElse (trim <$> c) (firstName rest)
  end.

(** [/[\d\s\+\-\(\)]{7,}/] *)
Definition phoneClass (c : N) : bool :=
  isDigit c || isWhiteSpace c || isChar "+" c || isChar "-" c || isChar "(" c || isChar ")" c.
Definition phoneRe : list Atom := [rep phoneClass 7 None].

(** [digitsOnly.length >= 7 && digitsOnly.length <= 15] *)
Definition validLength (digits : list N) : bool :=
  (7 <=? length digits)%nat && (length digits <=? 15)%nat.

(** [if (t.startsWith('tel:')) t = t.replace('tel:', '').trim()] *)
Definition stripTel (phoneText : list N) : list N :=
  if startsWith (js "tel:") phoneText then trim (removeFirst (js "tel:") phoneText)
  else phoneText.

(** Strategy 1: the "Phone" control. The result is [details.phone]
    afterwards. *)
Definition phoneStrategy1 (button : option PhoneButton) : option (list N) :=
  match button with
  | Some b =>
      let phoneText :=
        orElse (pb_ariaLabel b)
          (orElse (pb_textContent b)
             (orElse (pb_href b) (orElse (pb_closestHref b) (pb_title b)))) in
      match phoneText with
      | Some t =>
          if nonEmpty phoneText then
            match exec phoneRe (stripTel t) with
            | Some m => Some (trim m)
            | None => None
            end
          else None
      | None => None
      end
  | None => None
  end.

Section WithPlatform.
Context `{Platform}.

(** The body of the strategy 2 loop for one contact element: the phone
    it assigns, if it assigns one (and breaks). *)
Definition phoneOfContact (element : ContactElement) : option (list N) :=
  let text := default [] (orElse (ce_textContent element)
                            (orElse (ce_ariaLabel element) (Some []))) in
  if includes (js "phone") (toLowerCase text)
     || includes (js "call") (toLowerCase text)
     || bool_decide (is_Some (ce_telLink element))
  then
    let phoneText := match ce_telLink element with
                     | Some href => href
                     | None => text
                     end in
    match phoneText with
    | [] => None
    | _ =>
        match exec phoneRe (stripTel phoneText) with
        | Some m =>
            let phone := trim m in
            if validLength (digitsOnly phone) then Some phone else None
        | None => None
        end
    end
  else None.

(** [for (const x of xs) { ... if (found) { assign; break; } }] *)
Fixpoint firstOf {A B} (f : A -> option B) (xs : list A) : option B :=
  match xs with
  | [] => None
  | x :: xs' =>
      match f x with
      | Some y => Some y
      | None => firstOf f xs'
      end
  end.

(** Strategy 2: contact elements of the main panel. *)
Definition phoneStrategy2 (panel : option MainPanel) : option (list N) :=
  match panel with
  | Some p => firstOf phoneOfContact (mp_contactElements p)
  | None => None
  end.

(** The body of the strategy 3 loop for one [tel:] link. *)
Definition phoneOfTelLink (href : option (list N)) : option (list N) :=
  match href with
  | Some h =>
      if nonEmpty href then
        let phone := trim (removeFirst (js "tel:") h) in
        if (7 <=? length phone)%nat && validLength (digitsOnly phone)
        then Some phone else None
      else None
  | None => None
  end.

(** Strategy 3: [tel:] links of the main panel. *)
Definition phoneStrategy3 (panel : option MainPanel) : option (list N) :=
  match panel with
  | Some p => firstOf phoneOfTelLink (mp_telLinks p)
  | None => None
  end.

(** [/\+?[\d\s\-\(\)]{10,}/g] and
    [/\+?\d{1,4}[\s\-]?\d{1,4}[\s\-]?\d{1,4}[\s\-]?\d{1,9}/g] *)
Definition separator (c : N) : bool := isWhiteSpace c || isChar "-" c.
Definition phonePatterns : list (list Atom) :=
  [ [opt (isChar "+");
     rep (fun c => isDigit c || isWhiteSpace c || isChar "-" c || isChar "(" c || isChar ")" c)
         10 None];
    [opt (isChar "+");
     rep isDigit 1 (Some 4%nat); opt separator;
     rep isDigit 1 (Some 4%nat); opt separator;
     rep isDigit 1 (Some 4%nat); opt separator;
     rep isDigit 1 (Some 9%nat)] ].

(** [matches.find(match => valid digit count)] *)
Definition findValid (matches : list (list N)) : option (list N) :=
  List.find (fun m => validLength (digitsOnly m)) matches.

(** The body of the strategy 4 loop for one pattern. *)
Definition phoneOfPattern (panelText : list N) (pattern : list Atom) : option (list N) :=
  match matchAll pattern panelText with
  | Some matches =>
      match findValid matches with
      | Some validPhone =>
          match validPhone with
          | [] => None
          | _ => Some (trim validPhone)
          end
      | None => None
      end
  | None => None
  end.

(** Strategy 4: the text of the main panel. *)
Definition phoneStrategy4 (panel : option MainPanel) : option (list N) :=
  match panel with
  | Some p =>
      let panelText := default [] (orElse (mp_innerText p)
                                     (orElse (mp_textContent p) (Some []))) in
      firstOf (phoneOfPattern panelText) phonePatterns
  | None => None
  end.

(** [if (!details.phone) { ... }]: a later strategy runs only while
    the field is still falsy, and assigns only when it finds a value. *)
Definition unlessSet (current : option (list N)) (strategy : option (list N))
  : option (list N) :=
  if nonEmpty current then current
  else match strategy with
       | Some v => Some v
       | None => current
       end.

(** [details.phone] at the end of the callback. *)
Definition extractPhone (dom : Dom) : option (list N) :=
  let phone := phoneStrategy1 (phoneButton dom) in
  let phone := unlessSet phone (phoneStrategy2 (mainPanel dom)) in
  let phone := unlessSet phone (phoneStrategy3 (mainPanel dom)) in
  unlessSet phone (phoneStrategy4 (mainPanel dom)).

(** [!href.includes(d1) && !href.includes(d2) && ...] *)
Definition includesNone (domains : list string) (s : list N) : bool :=
  forallb (fun d => negb (includes (js d) s)) domains.

Definition mapsLinks : list string :=
  ["google.com/maps"; "maps.google.com"]%string.

(** The domains strategies 2 and 3 refuse. *)
Definition refusedDomains : list string :=
  ["google.com"; "maps.google.com"; "youtube.com"; "facebook.com";
   "instagram.com"; "twitter.com"; "linkedin.com"]%string.

(** [excludedDomains] of strategy 4. *)
Definition excludedDomains : list string :=
  ["google.com"; "maps.google.com"; "youtube.com"; "facebook.com";
   "instagram.com"; "twitter.com"; "linkedin.com"; "pinterest.com";
   "tumblr.com"; "reddit.com"; "github.com"; "stackoverflow.com"]%string.

(** Strategy 1: the "Website" control. *)
Definition websiteStrategy1 (button : option WebsiteButton) : option (list N) :=
  match button with
  | Some b =>
      let href := orElse (wb_href b) (wb_closestHref b) in
      match href with
      | Some h =>
          if nonEmpty href && startsWith (js "http") h
             && includesNone (mapsLinks ++ ["google.com/search"%string]) h
          then Some h else None
      | None => None
      end
  | None => None
  end.

(** The body of the strategy 2 loop for one link. *)
Definition websiteOfLabelledLink (link : Link) : option (list N) :=
  let href := l_href link in
  let ariaLabel := default [] (orElse (toLowerCase <$> l_ariaLabel link) (Some [])) in
  let text := default [] (orElse (toLowerCase <$> l_textContent link) (Some [])) in
  match href with
  | Some h =>
      if nonEmpty href && startsWith (js "http") h
         && includesNone refusedDomains h
         && (includes (js "website") ariaLabel
             || includes (js "visit website") ariaLabel
             || includes (js "website") text
             || l_inWebsiteControl link)
      then Some h else None
  | None => None
  end.

(** Strategy 2: labelled links of the main info section. *)
Definition websiteStrategy2 (section : option (list Link)) : option (list N) :=
  match section with
  | Some links => firstOf websiteOfLabelledLink links
  | None => None
  end.

(** The body of the strategy 3 loop for one contact element. *)
Definition websiteOfContact (element : ContactElement) : option (list N) :=
  match ce_httpLink element with
  | Some href =>
      let parentText :=
        default [] (orElse (toLowerCase <$> ce_textContent element) (Some [])) in
      match href with
      | Some h =>
          if nonEmpty href && startsWith (js "http") h
             && includesNone refusedDomains h
             && (includes (js "website") parentText
                 || includes (js "www.") parentText
                 || match ce_previousText element with
                    | Some t => includes (js "website") (toLowerCase t)
                    | None => false
                    end)
          then Some h else None
      | None => None
      end
  | None => None
  end.

(** Strategy 3: links of the contact elements. *)
Definition websiteStrategy3 (elements : list ContactElement) : option (list N) :=
  firstOf websiteOfContact elements.

(** [/^https?:\/\/[a-zA-Z0-9.-]+\.[a-zA-Z]{2,}/] *)
Definition urlRe : list Atom :=
  lit "http" ++ [opt (isChar "s")] ++ lit "://"
  ++ [plus (fun c => isAlpha c || isDigit c || isChar "." c || isChar "-" c);
      one (isChar "."); rep isAlpha 2 None].

(** Strategy 4: any other link of the main panel. [new URL(href)]
    throws on a malformed address, which ends the whole callback. *)
Fixpoint websiteStrategy4 (links : list Link) : Res (option (list N)) :=
  match links with
  | [] => Ok None
  | link :: links' =>
      match l_href link with
      | Some h =>
          if nonEmpty (l_href link) && startsWith (js "http") h then
            match hostname h with
            | None => Throw TypeError
            | Some host =>
                let domain := toLowerCase host in
                if existsb (fun excluded => includes (js excluded) domain) excludedDomains
                then websiteStrategy4 links'
                else
                  let isInMainPanel := l_inMainPanel link || l_inWebsiteControl link in
                  if isInMainPanel && bool_decide (is_Some (matchHere urlRe h))
                  then Ok (Some h)
                  else websiteStrategy4 links'
            end
          else websiteStrategy4 links'
      | None => websiteStrategy4 links'
      end
  end.

(** The final validation of the callback. *)
Definition dropMapsLink (website : option (list N)) : option (list N) :=
  match website with
  | Some w =>
      if nonEmpty website
         && (includes (js "google.com/maps") w
             || includes (js "maps.google.com") w
             || includes (js "google.com/search") w)
      then None else website
  | None => None
  end.

(** [details.website] at the end of the callback. *)
Definition extractWebsite (dom : Dom) : Res (option (list N)) :=
  let website := websiteStrategy1 (websiteButton dom) in
  let website := unlessSet website (websiteStrategy2 (websiteSectionLinks dom)) in
  let website := unlessSet website (websiteStrategy3 (contactInfoElements dom)) in
  if nonEmpty website then Ok (dropMapsLink website)
  else
    match websiteStrategy4 (allLinks dom) with
    | Throw e => Throw e
    | Ok found => Ok (dropMapsLink (unlessSet website found))
    end.

(** The body of the address loop for one selector. *)
Definition addressOf (element : option Labelled) : option (list N) :=
  match element with
  | Some el =>
      let addressText := orElse (lb_textContent el) (lb_ariaLabel el) in
      match addressText with
      | Some t =>
          if nonEmpty addressText && (10 <? length t)%nat then Some (trim t) else None
      | None => None
      end
  | None => None
  end.

Definition extractAddress (dom : Dom) : option (list N) :=
  firstOf addressOf (addressElements dom).

Definition extractHours (dom : Dom) : option (list N) :=
  match hoursElement dom with
  | Some el => orElse (trim <$> lb_textContent el) (lb_ariaLabel el)
  | None => None
  end.

Definition extractCategory (dom : Dom) : option (list N) :=
  match categoryElement dom with
  | Some el => trim <$> lb_textContent el
  | None => None
  end.

(** [name.substring(0, 20).toLowerCase()]: a [TypeError] unless [name]
    is a string. *)
Definition namePrefix (name : Value) : Res (list N) :=
  match name with
  | JStr s => Ok (toLowerCase (substring0 20 s))
  | _ => Throw TypeError
  end.

(** [panelName && !panelName.toLowerCase().includes(prefix of name)]:
    the mismatch that is only logged. *)
Definition nameMismatch (panelName : option (list N)) (name : Value) : Res bool :=
  match panelName with
  | Some p =>
      if nonEmpty panelName then
        match namePrefix name with
        | Ok prefix => Ok (negb (includes prefix (toLowerCase p)))
        | Throw e => Throw e
        end
      else Ok false
  | None => Ok false
  end.

(** The callback of the second [page.evaluate]. *)
Definition detailedInfo (dom : Dom) (expectedBusinessName : Value) : Res Details :=
  let detailPanelName := firstName (panelNames dom) in
  match nameMismatch detailPanelName expectedBusinessName with
  | Throw e => Throw e
  | Ok _ =>
      match extractWebsite dom with
      | Throw e => Throw e
      | Ok website =>
          Ok {| phone := extractPhone dom;
                website := website;
                address := extractAddress dom;
                hours := extractHours dom;
                category := extractCategory dom;
                description := None;
                verifiedBusinessName := detailPanelName |}
      end
  end.

(** The callback of the first [page.evaluate], on the title it finds. *)
Definition isCorrectBusiness (pageTitle : option (list N)) (expectedName : Value)
  : Res bool :=
  match pageTitle with
  | Some title =>
      if nonEmpty pageTitle then
        match namePrefix expectedName with
        | Ok expectedLower =>
            let foundLower := toLowerCase title in
            Ok (includes expectedLower foundLower
                || includes (substring0 20 foundLower) expectedLower)
        | Throw e => Throw e
        end
      else Ok false
  | None => Ok false
  end.

(* ------------------------------------------------------------------ *)
(** *** Merging (detailExtractor.js, lines 809-870)                    *)
(* ------------------------------------------------------------------ *)

(** [v.includes(pat)] on a truthy value: a [TypeError] unless it is a
    string. *)
Definition valueIncludes (v : Value) (pat : string) : Res bool :=
  match v with
  | JStr s => Ok (includes (js pat) s)
  | _ => Throw TypeError
  end.

(** [v && !v.includes('google.com/maps') && !v.includes('maps.google.com')
     ? v : null] *)
Definition unlessMapsLink (v : Value) : Res Value :=
  if truthy v then
    match valueIncludes v "google.com/maps" with
    | Throw e => Throw e
    | Ok true => Ok JNull
    | Ok false =>
        match valueIncludes v "maps.google.com" with
        | Throw e => Throw e
        | Ok true => Ok JNull
        | Ok false => Ok v
        end
    end
  else Ok JNull.

(** [v && (v.includes('google.com/maps') || v.includes('maps.google.com'))] *)
Definition isMapsLink (v : Value) : Res bool :=
  if truthy v then
    match valueIncludes v "google.com/maps" with
    | Throw e => Throw e
    | Ok true => Ok true
    | Ok false => valueIncludes v "maps.google.com"
    end
  else Ok false.

Definition finalWebsite (business : Business) (info : Details) : Res Value :=
  match unlessMapsLink (ofDom (website info)) with
  | Throw e => Throw e
  | Ok detailWebsite =>
      match unlessMapsLink (prop business "website") with
      | Throw e => Throw e
      | Ok originalWebsite =>
          let final :=
            if truthy detailWebsite && truthy originalWebsite then detailWebsite
            else if truthy detailWebsite then detailWebsite
            else if truthy originalWebsite then originalWebsite
            else JNull in
          match isMapsLink final with
          | Throw e => Throw e
          | Ok true => Ok JNull
          | Ok false => Ok final
          end
      end
  end.

Definition finalPhone (business : Business) (info : Details) : Value :=
  let detailPhone := ofDom (phone info) in
  let originalPhone := prop business "phone" in
  if truthy detailPhone then detailPhone
  else if truthy originalPhone then originalPhone
  else JNull.

(** [enhancedBusiness] *)
Definition enhance (business : Business) (info : Details) : Res Business :=
  match finalWebsite business info with
  | Throw e => Throw e
  | Ok website =>
      Ok (<["description" := ofDom (description info)]>
         (<["category" := ofDom (category info)]>
         (<["hours" := ofDom (hours info)]>
         (<["address" := or (ofDom (address info)) (prop business "address")]>
         (<["website" := website]>
         (<["phone" := finalPhone business info]> business))))))
  end.

End WithPlatform.

End Detail.

(* ===================================================================== *)
(** ** Awaiting, throwing and catching                                    *)
(* ===================================================================== *)

(** A computation over a state [S] that returns or throws. *)
Definition M (S A : Type) : Type := S -> Res A * S.

Definition ret {S A} (a : A) : M S A := fun s => (Ok a, s).

Definition throw {S A} (e : Error) : M S A := fun s => (Throw e, s).

Definition bind {S A B} (m : M S A) (k : A -> M S B) : M S B :=
  fun s =>
    match m s with
    | (Ok a, s') => k a s'
    | (Throw e, s') => (Throw e, s')
    end.

Notation "'let!' x ':=' m 'in' k" := (bind m (fun x => k))
  (at level 10, x name, m at level 100, k at level 200, only parsing).
Notation "'run!' m 'in' k" := (bind m (fun _ => k))
  (at level 10, m at level 100, k at level 200, only parsing).

(** [try { body } catch (error) { handler }] *)
Definition tryCatch {S A} (body : M S A) (handler : Error -> M S A) : M S A :=
  fun s =>
    match body s with
    | (Ok a, s') => (Ok a, s')
    | (Throw e, s') => handler e s'
    end.

(** [try { body } catch (e) { }], and [promise.catch(() => {})]. *)
Definition attempt {S A} (body : M S A) : M S unit :=
  tryCatch (run! body in ret tt) (fun _ => ret tt).

(** [try { body } finally { cleanup }] *)
Definition tryFinally {S A} (body : M S A) (cleanup : M S unit) : M S A :=
  fun s =>
    match body s with
    | (r, s') =>
        match cleanup s' with
        | (Ok _, s'') => (r, s'')
        | (Throw e, s'') => (Throw e, s'')
        end
    end.

(** The outcome of a pure evaluation, inside a computation. *)
Definition liftRes {S A} (r : Res A) : M S A := fun s => (r, s).

(** [for (const x of xs) { body x }] *)
Fixpoint forEach {S A} (body : A -> M S unit) (xs : list A) : M S unit :=
  match xs with
  | [] => ret tt
  | x :: xs' => run! body x in forEach body xs'
  end.

(** A computation on the world, run where a local array [L] is in scope. *)
Definition liftW {W L A} (m : M W A) : M (W * L) A :=
  fun s =>
    match m (fst s) with
    | (r, w') => (r, (w', snd s))
    end.

(** [array.push(x)] on the local array. *)
Definition push {W A} (x : A) : M (W * list A) unit :=
  fun s => (Ok tt, (fst s, snd s ++ [x])).

(** [const array = []; body; return array;] *)
Definition collecting {W A} (body : M (W * list A) unit) : M W (list A) :=
  fun w =>
    match body (w, []) with
    | (Ok _, s') => (Ok (snd s'), fst s')
    | (Throw e, s') => (Throw e, fst s')
    end.

(* ===================================================================== *)
(** ** The browser                                                        *)
(* ===================================================================== *)

(** Puppeteer calls made for their effect. *)
Inductive Action :=
| Launch
| NewPage
| SetUserAgent (ua : list N)
| SetViewport (vp : Fingerprint.Viewport)
| EvaluateOnNewDocument (script : Q -> Fingerprint.Overrides)
| SetExtraHTTPHeaders
| Goto (url : JS.Value) (timeout : N)
| WaitForTimeout (ms : N)
| WaitForSelector (selector : string) (timeout : N)
| ClickShowMore
| ScrollContainers
| KeyboardPress (key : string)
| ScrollLastIntoView
| Hover (index : nat)
| WaitForLoading (timeout : N)
| GoBack (timeout : N)
| CloseBrowser.

(** The world the scraper runs in: the browser, and [Math.random]. Every
    call may change the world, and every browser call may throw. The
    queries return what the callback passed to [page.evaluate] reads from
    the document. *)
Class Browser (W : Type) := {
  perform : Action -> M W unit;
  random : W -> Q * W;                          (* Math.random() *)
  pageUrl : M W (list N);                       (* page.url() *)
  showMoreButton : M W bool;                    (* is one of the three controls there *)
  selectorCounts : M W (list nat);              (* matches of each counting selector *)
  articles : M W nat;                           (* number of [role="article"] elements *)
  cards : M W (list (list Summary.Card));       (* the elements of each card selector *)
  pageTitle : M W (option (list N));            (* the title the first check finds *)
  detailDom : M W Detail.Dom
}.

(** The caller's sink [onBusinessExtracted(business, query)]; it acts on
    the same world. *)
Definition Sink (W : Type) : Type := Business -> list N -> M W unit.

Section Scraper.
Context `{Platform} {W : Type} `{Browser W}.
Import JS.

(* -------------------------------------------------------------------- *)
(** *** [extractBusinessDetails] (detailExtractor.js, lines 422-963)     *)
(* -------------------------------------------------------------------- *)

(** Lines 473-939: what follows a successful navigation. *)
Definition afterNavigation (business : Business) (currentUrl : list N)
    (navigatedAway : bool) : M W Business :=
  run! attempt (perform (WaitForSelector
         "[data-value=Phone], [data-value=Website], button[data-value=Phone], a[href^=tel:]"
         3000)) in
  run! perform (WaitForTimeout 1000) in
  let! dom := detailDom in
  let! detailedInfo := liftRes (Detail.detailedInfo dom (prop business "name")) in
  let! _ := liftRes (Detail.nameMismatch (Detail.verifiedBusinessName detailedInfo)
                       (prop business "name")) in
  let! enhancedBusiness := liftRes (Detail.enhance business detailedInfo) in
  run! (if navigatedAway && nonEmpty (Some currentUrl) then
          attempt (run! perform (Goto (JStr currentUrl) 15000) in
                   run! perform (WaitForTimeout 2000) in
                   articles)
        else
          attempt (run! perform (KeyboardPress "Escape") in
                   run! perform (WaitForTimeout 1500) in
                   articles)) in
  ret enhancedBusiness.

(** Lines 944-959: the recovery of the outer [catch]. *)
Definition recover : M W unit :=
  attempt (let! currentUrl := pageUrl in
           if negb (includes (js "/maps/search/") currentUrl) then
             run! perform (GoBack 10000) in
             perform (WaitForTimeout 2000)
           else
             run! perform (KeyboardPress "Escape") in
             perform (WaitForTimeout 1000)).

Definition extractBusinessDetails (business : Business) : M W Business :=
  tryCatch
    (let! currentUrl := pageUrl in
     if truthy (prop business "placeUrl") then
       (* the inner try: [true] when it completes, [false] when its catch
          returns the original business *)
       let! navigatedAway :=
         tryCatch
           (run! perform (Goto (prop business "placeUrl") 15000) in
            run! perform (WaitForTimeout 3000) in
            let! title := pageTitle in
            let! _ := liftRes (Detail.isCorrectBusiness title (prop business "name")) in
            ret true)
           (fun error => ret false) in
       if navigatedAway then afterNavigation business currentUrl navigatedAway
       else ret business
     else ret business)
    (fun error =>
       run! recover in
       ret business).

(* -------------------------------------------------------------------- *)
(** *** [scrapeGoogleMaps] (scraper.js, lines 194-594)                   *)
(* -------------------------------------------------------------------- *)

(** [Math.random()] as a computation. *)
Definition mathRandom : M W Q :=
  fun w => match random w with (r, w') => (Ok r, w') end.

(** [setupFingerprintAvoidance(page)] *)
Definition setupFingerprintAvoidance : M W unit :=
  let! r1 := mathRandom in
  let! r2 := mathRandom in
  match Fingerprint.setupFingerprintAvoidance r1 r2 with
  | Some setup =>
      run! perform (SetUserAgent (Fingerprint.userAgent setup)) in
      run! perform (SetViewport (Fingerprint.viewport setup)) in
      perform (EvaluateOnNewDocument (Fingerprint.initScript setup))
  | None => throw TypeError
  end.

(** Lines 311-400: the nudges of one scroll iteration. *)
Definition nudge (scrollAttempts : nat) : M W unit :=
  run! perform ScrollContainers in
  run! attempt (run! perform (KeyboardPress "ArrowDown") in
                run! perform (WaitForTimeout 100) in
                run! perform (KeyboardPress "ArrowDown") in
                run! perform (WaitForTimeout 100) in
                run! perform (KeyboardPress "ArrowDown") in
                perform (WaitForTimeout 100)) in
  run! attempt (perform ScrollLastIntoView) in
  run! attempt (let! results := articles in
                if (0 <? results)%nat then
                  let lastIndex := Nat.min (results - 1) scrollAttempts in
                  if (lastIndex <? results)%nat then
                    run! perform (Hover lastIndex) in
                    perform (WaitForTimeout 500)
                  else ret tt
                else ret tt) in
  run! attempt (attempt (perform (WaitForLoading 2000))) in
  perform (WaitForTimeout 1500).

(** The [while] loop of lines 275-401 on the live page; [budget] bounds
    the passes that remain. *)
Fixpoint scrollPage (budget : nat) (st : Scroll.State) : M W Scroll.State :=
  match budget with
  | O => ret st
  | S budget' =>
      if (Scroll.scrollAttempts st <? Scroll.maxScrollAttempts)%nat then
        let! lengths := selectorCounts in
        match Scroll.iteration st (Scroll.countResults lengths) with
        | Scroll.Break st' => ret st'
        | Scroll.Continue st' =>
            run! nudge (Scroll.scrollAttempts st) in
            scrollPage budget' st'
        end
      else ret st
  end.

(** [if (onBusinessExtracted) await onBusinessExtracted(business, query)] *)
Definition callSink (onBusinessExtracted : option (Sink W))
    (business : Business) (query : list N) : M W unit :=
  match onBusinessExtracted with
  | Some sink => sink business query
  | None => ret tt
  end.

(** The body of the [for] loop of lines 530-579; [detailedResults] is
    the local array. *)
Definition processBusiness (onBusinessExtracted : option (Sink W)) (query : list N)
    (business : Business) : M (W * list Business) unit :=
  tryCatch
    (let! detailedBusiness := liftW (extractBusinessDetails business) in
     run! push detailedBusiness in
     run! liftW (callSink onBusinessExtracted detailedBusiness query) in
     run! liftW (perform (WaitForTimeout 2000)) in
     attempt (let! found := liftW articles in
              if negb (0 <? found)%nat then liftW (perform (WaitForTimeout 2000))
              else ret tt))
    (fun error =>
       run! push business in
       liftW (callSink onBusinessExtracted business query)).

(** Lines 519-584: from the extracted cards to the returned array. *)
Definition processResults (onBusinessExtracted : option (Sink W)) (query : list N)
    (results : list Business) : M W (list Business) :=
  let uniqueResults := Summary.uniqueResults results in
  collecting (forEach (processBusiness onBusinessExtracted query) uniqueResults).

(** Lines 212-584: the body of the outer [try], once the browser runs. *)
Definition scrapePage (query : list N) (onBusinessExtracted : option (Sink W))
    : M W (list Business) :=
  run! perform NewPage in
  run! setupFingerprintAvoidance in
  run! perform SetExtraHTTPHeaders in
  let searchUrl := js "https://www.google.com/maps/search/" ++ encodeURIComponent query in
  let! r := mathRandom in
  let randomDelay := Z.to_N (Qfloor (r * 2000)) + 1000 in
  run! perform (WaitForTimeout randomDelay) in
  run! perform (Goto (JStr searchUrl) 30000) in
  run! attempt (perform (WaitForSelector "[role=article]" 15000)) in
  run! perform (WaitForTimeout 3000) in
  run! attempt (let! found := showMoreButton in
                if found then
                  run! perform ClickShowMore in
                  perform (WaitForTimeout 2000)
                else ret tt) in
  let! _ := scrollPage Scroll.maxScrollAttempts Scroll.initial in
  run! perform (WaitForTimeout 2000) in
  let! elements := cards in
  let results := Summary.extractBusinesses elements in
  processResults onBusinessExtracted query results.

(** [scrapeGoogleMaps(query, onBusinessExtracted)]: the [catch] rethrows
    and the [finally] closes the browser if it was launched. *)
Definition scrapeGoogleMaps (query : list N) (onBusinessExtracted : option (Sink W))
    : M W (list Business) :=
  tryCatch
    (run! perform Launch in
     tryFinally (scrapePage query onBusinessExtracted) (perform CloseBrowser))
    (fun error => throw error).

End Scraper.

(* ===================================================================== *)
(** ** A scripted world, for the worked examples                          *)
(* ===================================================================== *)

Module Demo.
Import JS.

(** A platform for ASCII text. *)
Definition lowerAscii (c : N) : N :=
  if (65 <=? c) && (c <=? 90) then c + 32 else c.

Definition hostEnd (c : N) : bool :=
  isChar "/" c || isChar ":" c || isChar "?" c || isChar "#" c.

Fixpoint afterScheme (s : list N) : option (list N) :=
  if startsWith (js "://") s then Some (drop 3 s)
  else match s with
       | [] => None
       | _ :: s' => afterScheme s'
       end.

Definition hostOf (href : list N) : option (list N) :=
  match afterScheme href with
  | Some rest =>
      match Summary.takeWhile (fun c => negb (hostEnd c)) rest with
      | [] => None
      | host => Some host
      end
  | None => None
  end.

Definition unreserved (c : N) : bool :=
  isAlpha c || isDigit c || isChar "-" c || isChar "_" c || isChar "." c
  || isChar "!" c || isChar "~" c || isChar "*" c || isChar "'" c
  || isChar "(" c || isChar ")" c.

Definition hexDigit (d : N) : N := if d <? 10 then 48 + d else 55 + d.

Definition percentEncode (s : list N) : list N :=
  flat_map (fun c => if unreserved c then [c]
                     else [37; hexDigit (c / 16); hexDigit (c mod 16)]) s.

Definition platform : Platform :=
  {| toLowerCase := map lowerAscii;
     hostname := hostOf;
     encodeURIComponent := percentEncode |}.

(** What the page does in one scripted run: which calls throw, and what
    the queries return. *)
Record Script := {
  fails : Action -> bool;
  draw : Q;
  url : list N;
  showMore : bool;
  counts : list nat;
  articleCount : nat;
  listing : list (list Summary.Card);
  title : option (list N);
  detail : Detail.Dom
}.

Definition timeout : Error := MkError (js "Navigation timeout of 15000 ms exceeded").

(** The page set-up when [Math.random()] returns 0 and then 0.5. *)
Definition session : Fingerprint.PageSetup :=
  let ua := js "Mozilla/5.0 (Windows NT 10.0; Win64; x64) AppleWebKit/537.36 (KHTML, like Gecko) Chrome/120.0.0.0 Safari/537.36" in
  let vp := {| Fingerprint.width := 1440; Fingerprint.height := 900 |} in
  {| Fingerprint.userAgent := ua;
     Fingerprint.viewport := vp;
     Fingerprint.initScript := Fingerprint.onNewDocument ua vp |}.

(** The world records how many times the sink was called. *)
Definition browser (sc : Script) : Browser nat :=
  {| perform a := fun w => if fails sc a then (Throw timeout, w) else (Ok tt, w);
     random := fun w => (draw sc, w);
     pageUrl := ret (url sc);
     showMoreButton := ret (showMore sc);
     selectorCounts := ret (counts sc);
     articles := ret (articleCount sc);
     cards := ret (listing sc);
     pageTitle := ret (title sc);
     detailDom := ret (detail sc) |}.

Definition saveFailed : Error := MkError (js "save failed").

(** A sink that throws on every call. *)
Definition throwingSink : Sink nat := fun _ _ w => (Throw saveFailed, S w).

(** A sink that throws on its first call only. *)
Definition throwingOnceSink : Sink nat :=
  fun _ _ w => match w with
               | O => (Throw saveFailed, S w)
               | _ => (Ok tt, S w)
               end.

(** A sink that never throws. *)
Definition quietSink : Sink nat := fun _ _ w => (Ok tt, S w).

Definition emptyDom : Detail.Dom :=
  {| Detail.panelNames := [None; None; None; None];
     Detail.phoneButton := None;
     Detail.mainPanel := None;
     Detail.websiteButton := None;
     Detail.websiteSectionLinks := None;
     Detail.contactInfoElements := [];
     Detail.allLinks := [];
     Detail.addressElements := [None; None; None; None; None];
     Detail.hoursElement := None;
     Detail.categoryElement := None |}.

(** A result card showing only a name, with what else is given. *)
Definition card (name : string) (phoneLabel website place : option string) : Summary.Card :=
  {| Summary.textContent := js name;
     Summary.href := None;
     Summary.ariaLabel := Some (js name);
     Summary.nameText := Some (js name);
     Summary.ratingAria := Some (js "4.5 stars");
     Summary.ratingTextContent := None;
     Summary.reviewAria := Some (js "1,234 reviews");
     Summary.reviewTextContent := None;
     Summary.addressText := None;
     Summary.phoneAria := js <$> phoneLabel;
     Summary.websiteHref := js <$> website;
     Summary.placeHref := js <$> place |}.

(** A run in which nothing throws, on a listing of [cards]. *)
Definition calm (cards : list Summary.Card) (dom : Detail.Dom) : Script :=
  {| fails := fun _ => false;
     draw := 0;
     url := js "https://www.google.com/maps/search/dentist";
     showMore := false;
     counts := [length cards; 0; 0; 0]%nat;
     articleCount := length cards;
     listing := [cards];
     title := None;
     detail := dom |}.

(** A run in which every navigation to a place page times out. *)
Definition unreachable (cards : list Summary.Card) : Script :=
  {| fails := fun a => match a with
                       | Goto _ 15000 => true
                       | _ => false
                       end;
     draw := 0;
     url := js "https://www.google.com/maps/search/dentist";
     showMore := false;
     counts := [length cards; 0; 0; 0]%nat;
     articleCount := length cards;
     listing := [cards];
     title := None;
     detail := emptyDom |}.

(** Two cards of a listing: the first has a phone label that mentions
    the opening hours first, a link back into Google Maps and a place
    page; the second has none. *)
Definition cafeOne : Summary.Card :=
  card "Cafe One" (Some "Open 24 hours, phone 042 35761999")
    (Some "https://maps.google.com/?cid=1") (Some "/maps/place/Cafe+One/data=x").

Definition cafeTwo : Summary.Card :=
  card "Cafe Two" (Some "Phone: 042 35761999") (Some "https://cafe.example.com") None.

(** A business object with a name and a phone only. *)
Definition named (name phone : string) : Business :=
  <["name" := JStr (js name)]> (<["phone" := JStr (js phone)]> ∅).

(** A summary with a place page. *)
Definition placed (name phone : string) : Business :=
  <["placeUrl" := JStr (js "https://www.google.com/maps/place/Cafe")]> (named name phone).

(** A "Phone" control whose label carries two numbers. *)
Definition busyButton : Detail.PhoneButton :=
  {| Detail.pb_ariaLabel := Some (js "Phone: 0300 1234567 0300 7654321");
     Detail.pb_textContent := None;
     Detail.pb_href := None;
     Detail.pb_closestHref := None;
     Detail.pb_title := None |}.

(** A main panel with one [tel:] link. *)
Definition panel : Detail.MainPanel :=
  {| Detail.mp_contactElements := [];
     Detail.mp_telLinks := [Some (js "tel:+92 300 1234567")];
     Detail.mp_innerText := None;
     Detail.mp_textContent := None |}.

(** A place page that shows that panel and a "Website" control. *)
Definition placeDom : Detail.Dom :=
  {| Detail.panelNames := [Some (js " Cafe One "); None; None; None];
     Detail.phoneButton := None;
     Detail.mainPanel := Some panel;
     Detail.websiteButton :=
       Some {| Detail.wb_href := Some (js "https://cafe-one.example.com/");
               Detail.wb_closestHref := None |};
     Detail.websiteSectionLinks := None;
     Detail.contactInfoElements := [];
     Detail.allLinks := [];
     Detail.addressElements := [None; None; None; None; None];
     Detail.hoursElement := None;
     Detail.categoryElement := None |}.

(** The same page with the busy "Phone" control. *)
Definition busyDom : Detail.Dom :=
  {| Detail.panelNames := [Some (js " Cafe One "); None; None; None];
     Detail.phoneButton := Some busyButton;
     Detail.mainPanel := Some panel;
     Detail.websiteButton := None;
     Detail.websiteSectionLinks := None;
     Detail.contactInfoElements := [];
     Detail.allLinks := [];
     Detail.addressElements := [None; None; None; None; None];
     Detail.hoursElement := None;
     Detail.categoryElement := None |}.

(** A place page whose only link has an address [new URL] rejects. *)
Definition brokenDom : Detail.Dom :=
  {| Detail.panelNames := [None; None; None; None];
     Detail.phoneButton := None;
     Detail.mainPanel := None;
     Detail.websiteButton := None;
     Detail.websiteSectionLinks := None;
     Detail.contactInfoElements := [];
     Detail.allLinks := [{| Detail.l_href := Some (js "http:broken");
                            Detail.l_ariaLabel := None;
                            Detail.l_textContent := None;
                            Detail.l_inWebsiteControl := false;
                            Detail.l_inMainPanel := true |}];
     Detail.addressElements := [None; None; None; None; None];
     Detail.hoursElement := None;
     Detail.categoryElement := None |}.

(** [scrapeGoogleMaps("dentist in lahore", sink)] in a scripted run,
    with no sink call made before. *)
Definition scrape (sc : Script) (sink : option (Sink nat)) : Res (list Business) * nat :=
  @scrapeGoogleMaps platform nat (browser sc) (js "dentist in lahore") sink 0%nat.

(** [extractBusinessDetails(page, business)] in a scripted run. *)
Definition enrich (sc : Script) (business : Business) : Res Business * nat :=
  @extractBusinessDetails platform nat (browser sc) business 0%nat.

Definition phoneOf (b : Business) : Value := prop b "phone".
Definition websiteOf (b : Business) : Value := prop b "website".

End Demo.

(* ===================================================================== *)
(** ** Vocabulary of the properties                                       *)
(* ===================================================================== *)

(** [wp m Q E s]: started in [s], the computation [m] either returns a
    value and a state that satisfy [Q], or throws an error in a state
    that satisfy [E]. *)
Definition wp {S A} (m : M S A) (Q : A -> S -> Prop) (E : Error -> S -> Prop) (s : S) : Prop :=
  match m s with
  | (Ok a, s') => Q a s'
  | (Throw e, s') => E e s'
  end.

(** A [website] value that does not point back into Google Maps. *)
Definition notMapsLink (v : JS.Value) : Prop :=
  match v with
  | JS.JStr s =>
      JS.includes (JS.js "google.com/maps") s = false
      /\ JS.includes (JS.js "maps.google.com") s = false
  | _ => True
  end.

(** The digit-only length of a phone number. *)
Definition digitCount (phone : list N) : nat := length (JS.digitsOnly phone).

(** The enrichment leaves the summary-level identity of a record alone. *)
Definition sameIdentity (r business : Business) : Prop :=
  r !! "name" = business !! "name"
  /\ r !! "rating" = business !! "rating"
  /\ r !! "reviewCount" = business !! "reviewCount"
  /\ r !! "placeId" = business !! "placeId"
  /\ r !! "placeUrl" = business !! "placeUrl".

(* ===================================================================== *)
(** ** Query slugs and CSV rows (utils/saveToCSV.js)                      *)
(* ===================================================================== *)

Module Csv.
Import JS.

(** [[a-z0-9]] *)
Definition isSlugChar (c : N) : bool := ((97 <=? c) && (c <=? 122)) || isDigit c.

Definition isUnderscore (c : N) : bool := isChar "_" c.

(** [s.replace(/[^a-z0-9]+/g, '_')]: every maximal run of other code
    units becomes one underscore. [inRun] tells that the code unit before
    belonged to such a run. *)
Fixpoint replaceRuns (inRun : bool) (s : list N) : list N :=
  match s with
  | [] => []
  | c :: s' =>
      if isSlugChar c then c :: replaceRuns false s'
      else if inRun then replaceRuns true s'
      else N_of_ascii "_" :: replaceRuns true s'
  end.

(** [s.replace(/^_+|_+$/g, '')] *)
Definition stripUnderscores (s : list N) : list N :=
  rev (dropWhile isUnderscore (rev (dropWhile isUnderscore s))).

(** [createQuerySlug(query)]; the same function is in utils/saveToDB.js
    and, inline, in the scraping route of the server. *)
Definition createQuerySlug `{Platform} (query : list N) : list N :=
  stripUnderscores (replaceRuns false (trim (toLowerCase query))).

(** The code unit of the double quote. *)
Definition quote : N := 34.

Definition isQuote (c : N) : bool := c =? quote.
Definition isComma (c : N) : bool := isChar "," c.

(** The loop of [parseCSVLine] from one position on, with the values
    pushed so far, the value being read and the quote state. *)
Fixpoint parseFrom (line : list N) (values : list (list N)) (current : list N)
    (inQuotes : bool) : list (list N) :=
  match line with
  | [] => values ++ [trim current]
  | char :: line' =>
      if isQuote char then parseFrom line' values current (negb inQuotes)
      else if isComma char && negb inQuotes
      then parseFrom line' (values ++ [trim current]) [] inQuotes
      else parseFrom line' values (current ++ [char]) inQuotes
  end.

(** [parseCSVLine(line)] *)
Definition parseCSVLine (line : list N) : list (list N) := parseFrom line [] [] false.

(** [stringValue.replace] of every double quote by two. *)
Definition doubleQuotes (s : list N) : list N :=
  flat_map (fun c => if isQuote c then [c; c] else [c]) s.

Definition needsQuoting (s : list N) : bool :=
  includes (js ",") s || includes [quote] s || includes [10] s.

(** [escapeCSVValue] once [String(value)] is taken. *)
Definition escapeString (stringValue : list N) : list N :=
  if needsQuoting stringValue
  then quote :: doubleQuotes stringValue ++ [quote]
  else stringValue.

(** [String(value)] for a value that is neither [null] nor [undefined];
    [show] renders a number. *)
Definition stringOf (show : Q -> list N) (value : Value) : list N :=
  match value with
  | JStr s => s
  | JNum q => show q
  | JNull | JUndefined => []
  end.

(** [escapeCSVValue(value)] *)
Definition escapeCSVValue (show : Q -> list N) (value : Value) : list N :=
  match value with
  | JNull | JUndefined => []
  | _ => escapeString (stringOf show value)
  end.

(** [parts.join(',')] *)
Fixpoint joinCommas (parts : list (list N)) : list N :=
  match parts with
  | [] => []
  | [p] => p
  | p :: rest => p ++ js "," ++ joinCommas rest
  end.

(** [headers.map(header => escapeCSVValue(data[header])).join(',')] for
    the values of the headers, in order. *)
Definition row (show : Q -> list N) (values : list Value) : list N :=
  joinCommas (map (escapeCSVValue show) values).

(** [value === '' || value === 'null' ? null : value], how the readers
    take a text column. *)
Definition textColumn (value : list N) : Value :=
  if bool_decide (value = []) || bool_decide (value = js "null") then JNull
  else JStr value.

(** What is left of a written text once it is read back: the quotes are
    gone and the ends are trimmed. *)
Definition unquoted (s : list N) : list N := trim (List.filter (fun c => negb (isQuote c)) s).

End Csv.

(* ===================================================================== *)
(** ** Saving to the database (utils/saveToDB.js) and the server's sink   *)
(* ===================================================================== *)

Module Store.
Import JS.

(** The filters the code passes to [Business.findOne]. *)
Inductive Filter :=
| ByPlaceId (placeId : Value) (querySlug : list N)
| ByName (name : Value) (querySlug : list N) (placeId : Value).

(** A document of the [queries] collection. *)
Record QueryRecord := {
  query : list N;
  querySlug : list N;
  totalBusinesses : nat;
  lastScrapedAt : Q;
  scrapedCount : nat
}.

(** The database, and the clock: every call may change the world, and
    every database call may reject. [errorCode] is the [code] property of
    a rejection. *)
Class Database (W : Type) := {
  findOne : Filter -> M W (option Business);      (* Business.findOne(filter) *)
  save : Business -> M W unit;                    (* new Business(doc).save() *)
  countDocuments : list N -> M W nat;             (* Business.countDocuments({ querySlug }) *)
  findQuery : list N -> M W (option QueryRecord); (* Query.findOne({ querySlug }) *)
  saveQuery : QueryRecord -> M W unit;            (* queryRecord.save() *)
  newDate : W -> Q * W;                           (* new Date() *)
  errorCode : Error -> option Z
}.

(** What [saveSingleBusinessToDB] returns. *)
Record SaveResult := {
  saved : bool;
  duplicate : bool;
  error : option (list N)
}.

Definition savedResult : SaveResult := {| saved := true; duplicate := false; error := None |}.
Definition duplicateResult : SaveResult := {| saved := false; duplicate := true; error := None |}.
Definition errorResult (message : list N) : SaveResult :=
  {| saved := false; duplicate := false; error := Some message |}.

Definition messageOf (e : Error) : list N := match e with MkError message => message end.

(** The three counters of a save loop. *)
Record Counters := {
  savedCount : nat;
  duplicateCount : nat;
  errorCount : nat
}.

Definition noCounts : Counters := {| savedCount := 0; duplicateCount := 0; errorCount := 0 |}.

(** [if (result.saved) savedCount++; else if (result.duplicate)
    duplicateCount++; else errorCount++;] *)
Definition tally (result : SaveResult) (c : Counters) : Counters :=
  if saved result then
    {| savedCount := S (savedCount c); duplicateCount := duplicateCount c;
       errorCount := errorCount c |}
  else if duplicate result then
    {| savedCount := savedCount c; duplicateCount := S (duplicateCount c);
       errorCount := errorCount c |}
  else
    {| savedCount := savedCount c; duplicateCount := duplicateCount c;
       errorCount := S (errorCount c) |}.

(** How many results the counters have taken in. *)
Definition counted (c : Counters) : nat :=
  (savedCount c + duplicateCount c + errorCount c)%nat.

(** An update of the counters, which are local to the caller. *)
Definition update {W} (f : Counters -> Counters) : M (W * Counters) unit :=
  fun s => (Ok tt, (fst s, f (snd s))).

(** What [saveBusinessesToDB] returns. *)
Record Stats := {
  total : nat;
  statSaved : nat;
  statDuplicates : nat;
  statErrors : nat;
  statQuery : list N;
  statQuerySlug : list N;
  totalInQuery : nat
}.

Section WithDatabase.
Context `{Platform} {W : Type} `{Database W}.

(** [new Date()] as a computation. *)
Definition clock : M W Q :=
  fun w => match newDate w with (d, w') => (Ok d, w') end.

(** The document [saveSingleBusinessToDB] builds. *)
Definition document (business : Business) (query querySlug : list N) (scrapedAt : Q)
  : Business :=
  <["name" := prop business "name"]>
  (<["rating" := prop business "rating"]>
  (<["reviewCount" := prop business "reviewCount"]>
  (<["address" := prop business "address"]>
  (<["phone" := prop business "phone"]>
  (<["website" := prop business "website"]>
  (<["placeId" := prop business "placeId"]>
  (<["placeUrl" := prop business "placeUrl"]>
  (<["query" := JStr query]>
  (<["querySlug" := JStr querySlug]>
  (<["email" := JNull]>
  (<["emailExtractedAt" := JNull]>
  (<["hours" := or (prop business "hours") JNull]>
  (<["category" := or (prop business "category") JNull]>
  (<["description" := or (prop business "description") JNull]>
  (<["scrapedAt" := JNum scrapedAt]> ∅))))))))))))))).

(** [saveSingleBusinessToDB(business, query, querySlug)] *)
Definition saveSingleBusinessToDB (business : Business) (query querySlug : list N)
  : M W SaveResult :=
  tryCatch
    (let! existingBusiness :=
       if truthy (prop business "placeId")
       then findOne (ByPlaceId (prop business "placeId") querySlug)
       else ret None in
     let! existingBusiness :=
       match existingBusiness with
       | Some found => ret (Some found)
       | None => findOne (ByName (prop business "name") querySlug
                            (or (prop business "placeId") JNull))
       end in
     match existingBusiness with
     | Some _ => ret duplicateResult
     | None =>
         let! scrapedAt := clock in
         run! save (document business query querySlug scrapedAt) in
         ret savedResult
     end)
    (fun error =>
       if bool_decide (errorCode error = Some 11000%Z) then ret duplicateResult
       else ret (errorResult (messageOf error))).

(** The counting loop of [saveBusinessesToDB]. *)
Definition saveEach (query querySlug : list N) (businesses : list Business)
  : M (W * Counters) unit :=
  forEach (fun business =>
             let! result := liftW (saveSingleBusinessToDB business query querySlug) in
             update (tally result))
          businesses.

(** [let savedCount = 0, ...; body; read the counters] *)
Definition counting (body : M (W * Counters) unit) : M W Counters :=
  fun w =>
    match body (w, noCounts) with
    | (Ok _, s') => (Ok (snd s'), fst s')
    | (Throw e, s') => (Throw e, fst s')
    end.

Definition queryRequired : Error := MkError (js "Query is required to save businesses").

(** [saveBusinessesToDB(businesses, query)] *)
Definition saveBusinessesToDB (businesses : list Business) (query : list N) : M W Stats :=
  match query with
  | [] => throw queryRequired
  | _ =>
      let querySlug := Csv.createQuerySlug query in
      let! found := findQuery querySlug in
      let! queryRecord :=
        match found with
        | None =>
            let! lastScrapedAt := clock in
            let queryRecord := {| query := query; querySlug := querySlug;
                                  totalBusinesses := 0; lastScrapedAt := lastScrapedAt;
                                  scrapedCount := 1 |} in
            run! saveQuery queryRecord in
            ret queryRecord
        | Some queryRecord =>
            let! lastScrapedAt := clock in
            let queryRecord := {| query := Store.query queryRecord;
                                  querySlug := Store.querySlug queryRecord;
                                  totalBusinesses := totalBusinesses queryRecord;
                                  lastScrapedAt := lastScrapedAt;
                                  scrapedCount := scrapedCount queryRecord + 1 |} in
            run! saveQuery queryRecord in
            ret queryRecord
        end in
      let! counters := counting (saveEach query querySlug businesses) in
      let! totalForQuery := countDocuments querySlug in
      run! saveQuery {| query := Store.query queryRecord;
                        querySlug := Store.querySlug queryRecord;
                        totalBusinesses := totalForQuery;
                        lastScrapedAt := lastScrapedAt queryRecord;
                        scrapedCount := scrapedCount queryRecord |} in
      ret {| total := length businesses;
             statSaved := savedCount counters;
             statDuplicates := duplicateCount counters;
             statErrors := errorCount counters;
             statQuery := query;
             statQuerySlug := querySlug;
             totalInQuery := totalForQuery |}
  end.

(** The sink the scraping route of the server passes to
    [scrapeGoogleMaps]; the counters are variables of the route. *)
Definition onBusinessExtracted (querySlug : list N) (business : Business) (query : list N)
  : M (W * Counters) unit :=
  tryCatch
    (let! result := liftW (saveSingleBusinessToDB business query querySlug) in
     update (tally result))
    (fun error =>
       update (fun c => {| savedCount := savedCount c; duplicateCount := duplicateCount c;
                           errorCount := S (errorCount c) |})).

End WithDatabase.

End Store.

(* ===================================================================== *)
(** ** A database in memory                                               *)
(* ===================================================================== *)

Module DemoStore.
Import JS Store.

(** Whether a stored document answers a filter. *)
Definition answers (filter : Filter) (doc : Business) : bool :=
  match filter with
  | ByPlaceId placeId querySlug =>
      strictEq (prop doc "placeId") placeId
      && strictEq (prop doc "querySlug") (JStr querySlug)
  | ByName name querySlug placeId =>
      strictEq (prop doc "name") name
      && strictEq (prop doc "querySlug") (JStr querySlug)
      && strictEq (prop doc "placeId") placeId
  end.

Definition inQuery (querySlug : list N) (doc : Business) : bool :=
  strictEq (prop doc "querySlug") (JStr querySlug).

(** The world is the [businesses] collection; no call rejects, no query
    record is kept and the clock stands still. *)
Definition database : Database (list Business) :=
  {| findOne filter := fun w => (Ok (List.find (answers filter) w), w);
     save doc := fun w => (Ok tt, w ++ [doc]);
     countDocuments querySlug := fun w => (Ok (length (List.filter (inQuery querySlug) w)), w);
     findQuery querySlug := ret None;
     saveQuery queryRecord := ret tt;
     newDate := fun w => (0%Q, w);
     errorCode e := None |}.

(** The scripted page of [Demo.browser], beside the counters of the
    scraping route: no operation of the page reaches them. *)
Definition page (sc : Demo.Script) : Browser (list Business * Counters) :=
  {| perform a := fun s => if Demo.fails sc a then (Throw Demo.timeout, s) else (Ok tt, s);
     random := fun s => (Demo.draw sc, s);
     pageUrl := ret (Demo.url sc);
     showMoreButton := ret (Demo.showMore sc);
     selectorCounts := ret (Demo.counts sc);
     articles := ret (Demo.articleCount sc);
     cards := ret (Demo.listing sc);
     pageTitle := ret (Demo.title sc);
     detailDom := ret (Demo.detail sc) |}.

(** A summary with a place id. *)
Definition listed (name placeId : string) : Business :=
  <["name" := JStr (js name)]> (<["placeId" := JStr (js placeId)]> ∅).

(** What a stored document shows to a lookup by place id. *)
Definition entry (placeId querySlug : string) : Business :=
  <["placeId" := JStr (js placeId)]> (<["querySlug" := JStr (js querySlug)]> ∅).

End DemoStore.

(* ===================================================================== *)
(** ** More vocabulary                                                    *)
(* ===================================================================== *)

(** [keeps I m]: [m] leaves [I] true, whether it returns or throws. *)
Definition keeps {S A} (I : S -> Prop) (m : M S A) : Prop :=
  forall s, I s -> wp m (fun _ s' => I s') (fun _ s' => I s') s.

(** Every operation of the browser keeps [I]. *)
Definition browserKeeps {W} `{Browser W} (I : W -> Prop) : Prop :=
  (forall a, keeps I (perform a))
  /\ (forall w, I w -> I (snd (random w)))
  /\ keeps I pageUrl
  /\ keeps I showMoreButton
  /\ keeps I selectorCounts
  /\ keeps I articles
  /\ keeps I cards
  /\ keeps I pageTitle
  /\ keeps I detailDom.

(** A summary record: what the card extraction pushes for some element. *)
Definition summaryRecord (b : Business) : Prop :=
  exists (index : nat) (element : Summary.Card), Summary.extractCard index element = Some b.

(** [r] is what the detail navigator can return for [business]: the
    business itself, or the outcome of the merge on some extracted
    details. *)
Definition enriches (r business : Business) : Prop :=
  r = business \/ exists info : Detail.Details, Detail.enhance business info = Ok r.

(** A property holds a non-empty string. *)
Definition nonEmptyString (v : JS.Value) : Prop :=
  exists s : list N, v = JS.JStr s /\ s <> [].

(** A [placeUrl] as the summaries carry it: [null], or an address that
    starts with [http]. *)
Definition absoluteOrNull (v : JS.Value) : Prop :=
  v = JS.JNull \/ exists u : list N, v = JS.JStr u /\ JS.startsWith (JS.js "http") u = true.

(** The properties of a summary record, and those the merge adds. *)
Definition summaryKeys : list string :=
  ["name"; "rating"; "reviewCount"; "address"; "phone"; "website"; "placeId"; "placeUrl"]%string.

Definition detailKeys : list string := ["hours"; "category"; "description"]%string.

(** What a record carried under [k] has not been lost in [r]. *)
Definition retains (k : string) (r business : Business) : Prop :=
  JS.truthy (prop business k) = false \/ JS.truthy (prop r k) = true.

(** Whether a run returned rather than threw. *)
Definition returns {S A} (out : Res A * S) : bool :=
  match out with
  | (Ok _, _) => true
  | (Throw _, _) => false
  end.

(* ===================================================================== *)
(** * Properties                                                          *)
(* ===================================================================== *)

(** ** The scroll driver *)

Section ScrollFacts.
Import Scroll.

Lemma iteration_attempts st count :
  match iteration st count with
  | Break st' => scrollAttempts st' = scrollAttempts st
  | Continue st' => scrollAttempts st' = S (scrollAttempts st)
  end.
Proof.
  unfold iteration.
  destruct (count =? previousCount st)%nat; [|reflexivity].
  destruct (2 <=? S (noChangeCount st))%nat; reflexivity.
Qed.

(** The loop never counts past the cap. *)
Lemma scrollLoop_attempts counts : forall st,
  (scrollAttempts st <= maxScrollAttempts)%nat ->
  (scrollAttempts (finalState (scrollLoop counts st)) <= maxScrollAttempts)%nat.
Proof.
  induction counts as [|count counts IH]; intros st Hst; simpl.
  - destruct (scrollAttempts st <? maxScrollAttempts)%nat; exact Hst.
  - destruct (scrollAttempts st <? maxScrollAttempts)%nat eqn:Hlt; [|exact Hst].
    apply Nat.ltb_lt in Hlt.
    pose proof (iteration_attempts st count) as Hit.
    destruct (iteration st count) as [st'|st']; simpl.
    + lia.
    + apply IH. lia.
Qed.

(** Every check but a final one at stability completes an iteration, so
    the checks fit in what is left of the cap. *)
Lemma scrollLoop_checks counts : forall st,
  (scrollAttempts st <= maxScrollAttempts)%nat ->
  (checks counts (scrollLoop counts st) <= maxScrollAttempts - scrollAttempts st)%nat
  /\ match scrollLoop counts st with
     | Stable _ unused | Capped _ unused => (length unused <= length counts)%nat
     | Pending st' =>
         (scrollAttempts st' < maxScrollAttempts)%nat
         /\ scrollAttempts st' = (scrollAttempts st + length counts)%nat
     end.
Proof.
  induction counts as [|count counts IH]; intros st Hst; simpl.
  - destruct (scrollAttempts st <? maxScrollAttempts)%nat eqn:Hlt; simpl.
    + apply Nat.ltb_lt in Hlt. lia.
    + lia.
  - destruct (scrollAttempts st <? maxScrollAttempts)%nat eqn:Hlt; simpl.
    + apply Nat.ltb_lt in Hlt.
      pose proof (iteration_attempts st count) as Hit.
      destruct (iteration st count) as [st'|st']; simpl.
      * lia.
      * destruct (IH st') as [Hc Hu]; [lia|].
        destruct (scrollLoop counts st') as [st2 unused|st2 unused|st2];
          simpl in *; lia.
    + lia.
Qed.

(** With as many counts as the cap leaves room for, the loop ends. *)
Lemma scrollLoop_terminates counts : forall st,
  (maxScrollAttempts - scrollAttempts st <= length counts)%nat ->
  terminated (scrollLoop counts st) = true.
Proof.
  induction counts as [|count counts IH]; intros st Hlen; simpl in *.
  - destruct (scrollAttempts st <? maxScrollAttempts)%nat eqn:Hlt; [|reflexivity].
    apply Nat.ltb_lt in Hlt. lia.
  - destruct (scrollAttempts st <? maxScrollAttempts)%nat eqn:Hlt; [|reflexivity].
    pose proof (iteration_attempts st count) as Hit.
    destruct (iteration st count) as [st'|st']; [reflexivity|].
    apply IH. lia.
Qed.

(** C9: on every sequence of counts the loop completes at most 100
    iterations and makes at most 100 checks; given 100 counts or more
    it terminates, at stability or at the cap. *)
Theorem scroll_at_most_100_iterations (counts : list nat) :
  (scrollAttempts (finalState (scrollLoop counts initial)) <= 100)%nat
  /\ (checks counts (scrollLoop counts initial) <= 100)%nat
  /\ ((100 <= length counts)%nat -> terminated (scrollLoop counts initial) = true).
Proof.
  assert (Hinit : (scrollAttempts initial <= maxScrollAttempts)%nat)
    by (unfold initial, maxScrollAttempts; simpl; lia).
  split; [|split].
  - exact (scrollLoop_attempts counts initial Hinit).
  - destruct (scrollLoop_checks counts initial Hinit) as [Hc _].
    unfold maxScrollAttempts in Hc. simpl in Hc. lia.
  - intros Hlen. apply scrollLoop_terminates.
    unfold maxScrollAttempts, initial. simpl. lia.
Qed.

(** A page whose count grows at every check drives the loop to the cap. *)
Lemma scroll_at_most_100_iterations_witness :
  (100 <= length (seq 1 100))%nat
  /\ terminated (scrollLoop (seq 1 100) initial) = true.
Proof.
  split.
  - vm_compute. lia.
  - apply (scroll_at_most_100_iterations (seq 1 100)). vm_compute. lia.
Defined.

Example scroll_growing_page_reaches_cap :
  scrollLoop (seq 1 120) initial
  = Capped {| previousCount := 100; currentCount := 100;
              scrollAttempts := 100; noChangeCount := 0 |} (seq 101 20).
Proof. vm_compute. reflexivity. Qed.

(** C3, as the code has it: the first 5 is growth over the initial
    count 0, so [5, 5] leaves the loop waiting for a third check; on
    [5, 5, 5] it stops at stability on the third check, with exactly two
    iterations completed; whatever follows [5, 5], it never stops within
    two checks. *)
Theorem scroll_5_5_5_stops_after_two_iterations :
  scrollLoop [5; 5; 5]%nat initial
  = Stable {| previousCount := 5; currentCount := 5;
              scrollAttempts := 2; noChangeCount := 2 |} []
  /\ checks [5; 5; 5]%nat (scrollLoop [5; 5; 5]%nat initial) = 3%nat
  /\ forall rest : list nat,
       terminated (scrollLoop (5 :: 5 :: rest)%nat initial) = false
       \/ (3 <= checks (5 :: 5 :: rest)%nat (scrollLoop (5 :: 5 :: rest)%nat initial))%nat.
Proof.
  split; [reflexivity|]. split; [reflexivity|].
  intros rest. simpl.
  destruct rest as [|count rest]; simpl; [left; reflexivity|].
  right.
  set (st := {| previousCount := 5; currentCount := 5;
                scrollAttempts := 2; noChangeCount := 1 |}).
  pose proof (iteration_attempts st count) as Hit.
  destruct (iteration st count) as [st'|st'] eqn:Hi; simpl.
  - lia.
  - destruct (scrollLoop_checks rest st') as [_ Hu].
    { rewrite Hit. unfold maxScrollAttempts. simpl. lia. }
    destruct (scrollLoop rest st') as [st2 unused|st2 unused|st2]; simpl in *; lia.
Qed.

(** C3 as stated fails: after the counts [5, 5] the loop has not
    terminated; one unchanged check is on record, not two. *)
Lemma scroll_5_5_still_pending :
  scrollLoop [5; 5]%nat initial
  = Pending {| previousCount := 5; currentCount := 5;
               scrollAttempts := 2; noChangeCount := 1 |}
  /\ terminated (scrollLoop [5; 5]%nat initial) = false.
Proof. split; reflexivity. Qed.

(** Two unchanged checks from the start are only seen on an empty page. *)
Example scroll_0_0_stops_at_second_check :
  scrollLoop [0; 0]%nat initial
  = Stable {| previousCount := 0; currentCount := 0;
              scrollAttempts := 1; noChangeCount := 2 |} [].
Proof. reflexivity. Qed.

End ScrollFacts.

(** ** The fingerprint randomizer *)

Section FingerprintFacts.
Import Fingerprint.

(** [Math.random()] returns a value in [0, 1), so the index drawn is
    within the catalog. *)
Lemma randomIndex_in_range (r : Q) (n : nat) :
  (0 <= r)%Q -> (r < 1)%Q -> (0 < n)%nat -> (randomIndex r n < n)%nat.
Proof.
  intros H0 H1 Hn. unfold randomIndex.
  assert (Hlt : (Qfloor (r * inject_Z (Z.of_nat n)) < Z.of_nat n)%Z).
  { rewrite Zlt_Qlt.
    apply Qle_lt_trans with (r * inject_Z (Z.of_nat n))%Q; [apply Qfloor_le|].
    rewrite <- (Qmult_1_l (inject_Z (Z.of_nat n))) at 2.
    apply Qmult_lt_compat_r; [|exact H1].
    change 0%Q with (inject_Z 0). rewrite <- Zlt_Qlt. lia. }
  assert (Hge : (0 <= Qfloor (r * inject_Z (Z.of_nat n)))%Z).
  { change 0%Z with (Qfloor (inject_Z 0)) at 1. apply Qfloor_resp_le.
    apply Qmult_le_0_compat; [exact H0|].
    change 0%Q with (inject_Z 0). rewrite <- Zle_Qle. lia. }
  lia.
Qed.

(** The set-up always finds a user agent and a viewport. *)
Lemma setup_defined (r1 r2 : Q) :
  (0 <= r1)%Q -> (r1 < 1)%Q -> (0 <= r2)%Q -> (r2 < 1)%Q ->
  is_Some (setupFingerprintAvoidance r1 r2).
Proof.
  intros Ha Hb Hc Hd. unfold setupFingerprintAvoidance, getRandomUserAgent, getRandomViewport.
  destruct (lookup_lt_is_Some_2 userAgents (randomIndex r1 (length userAgents)))
    as [ua ->].
  { apply randomIndex_in_range; try assumption. vm_compute. lia. }
  destruct (lookup_lt_is_Some_2 viewports (randomIndex r2 (length viewports)))
    as [vp ->].
  { apply randomIndex_in_range; try assumption. vm_compute. lia. }
  eauto.
Qed.

(** C6, as the code has it: the user agent and the viewport are drawn
    once, by the set-up, and every document of the session reports the
    same ones; the time zone is drawn by the script each document runs,
    from that document's own random value. *)
Theorem identity_across_page_loads (r1 r2 : Q) (setup : PageSetup)
    (Hsetup : setupFingerprintAvoidance r1 r2 = Some setup) (d1 d2 : Q) :
  id_userAgent (identityIn setup d1) = id_userAgent (identityIn setup d2)
  /\ id_viewport (identityIn setup d1) = id_viewport (identityIn setup d2)
  /\ Some (id_userAgent (identityIn setup d1)) = getRandomUserAgent r1
  /\ id_timezoneChoice (identityIn setup d1) = timezones !! randomIndex d1 5
  /\ id_timezoneChoice (identityIn setup d2) = timezones !! randomIndex d2 5.
Proof.
  unfold setupFingerprintAvoidance in Hsetup.
  destruct (getRandomUserAgent r1) as [ua|] eqn:Hua; [|discriminate].
  destruct (getRandomViewport r2) as [vp|]; [|discriminate].
  injection Hsetup as <-. unfold identityIn. simpl.
  repeat split; reflexivity.
Qed.

Lemma identity_across_page_loads_witness :
  setupFingerprintAvoidance 0 (1 # 2) = Some Demo.session
  /\ id_viewport (identityIn Demo.session 0)
     = id_viewport (identityIn Demo.session (9 # 10)).
Proof.
  split.
  - reflexivity.
  - apply (identity_across_page_loads 0 (1 # 2) Demo.session eq_refl 0 (9 # 10)).
Defined.

(** C6 as stated fails: two documents of one session can report
    different time zones. *)
Lemma timezone_differs_between_page_loads :
  exists setup : PageSetup,
    setupFingerprintAvoidance 0 0 = Some setup
    /\ id_timezoneChoice (identityIn setup 0) = Some "America/New_York"%string
    /\ id_timezoneChoice (identityIn setup (1 # 2)) = Some "America/Chicago"%string
    /\ id_timezoneOffset (identityIn setup 0) = 300%Z
    /\ id_timezoneOffset (identityIn setup (1 # 2)) = 360%Z
    /\ identityIn setup 0 <> identityIn setup (1 # 2).
Proof.
  eexists. split; [reflexivity|].
  repeat split; try reflexivity.
  intros Heq. apply (f_equal id_timezoneOffset) in Heq. vm_compute in Heq. discriminate.
Qed.

End FingerprintFacts.

(** ** De-duplication of the summaries *)

Section UniqueFacts.
Import JS Summary.

Lemma strictEq_refl v : strictEq v v = true.
Proof.
  destruct v; simpl; try reflexivity.
  - apply Qeq_bool_iff. reflexivity.
  - apply bool_decide_eq_true. reflexivity.
Qed.

Lemma strictEq_sym u v : strictEq u v = strictEq v u.
Proof.
  destruct u, v; simpl; try reflexivity.
  - apply eq_true_iff_eq. rewrite !Qeq_bool_iff. split; intros Hq; symmetry; exact Hq.
  - apply eq_true_iff_eq. rewrite !bool_decide_eq_true. split; congruence.
Qed.

Lemma strictEq_trans u v w :
  strictEq u v = true -> strictEq v w = true -> strictEq u w = true.
Proof.
  destruct u, v, w; simpl; try congruence.
  - rewrite !Qeq_bool_iff. intros Ha Hb. rewrite Ha. exact Hb.
  - rewrite !bool_decide_eq_true. congruence.
Qed.

(** Two strings are the same name only when they agree code unit by
    code unit. *)
Lemma strictEq_strings s t : strictEq (JStr s) (JStr t) = true <-> s = t.
Proof. simpl. apply bool_decide_eq_true. Qed.

Lemma sameName_refl b : sameName b b = true.
Proof. apply strictEq_refl. Qed.

(** Businesses with the same name have the same duplicates. *)
Lemma sameName_exists b x l :
  sameName b x = true -> existsb (sameName x) l = existsb (sameName b) l.
Proof.
  unfold sameName. intros Hbx.
  induction l as [|y l IH]; simpl; [reflexivity|].
  rewrite IH. f_equal.
  apply eq_true_iff_eq. split; intros Hy.
  - apply strictEq_trans with (prop x "name"); assumption.
  - apply strictEq_trans with (prop b "name"); [assumption|].
    rewrite strictEq_sym. assumption.
Qed.

Lemma findIndexFrom_first {A} (p : A -> bool) (x : A) (l : list A) :
  p x = true -> forall (pre : list A) (i : Z),
  if existsb p pre
  then (i <= findIndexFrom p i (pre ++ x :: l) < i + Z.of_nat (length pre))%Z
  else findIndexFrom p i (pre ++ x :: l) = (i + Z.of_nat (length pre))%Z.
Proof.
  intros Hx. induction pre as [|y pre IH]; intros i; simpl.
  - rewrite Hx. lia.
  - destruct (p y) eqn:Hy; simpl.
    + lia.
    + specialize (IH (i + 1)%Z). destruct (existsb p pre); lia.
Qed.

(** The filter keeps an element exactly when no earlier element has its
    name. *)
Lemma kept_iff_first (pre : list Business) (x : Business) (l : list Business) :
  (Z.of_nat (length pre) =? findIndex (sameName x) (pre ++ x :: l))%Z
  = negb (existsb (sameName x) pre).
Proof.
  unfold findIndex.
  pose proof (findIndexFrom_first (sameName x) x l (sameName_refl x) pre 0%Z) as Hf.
  destruct (existsb (sameName x) pre); simpl.
  - apply Z.eqb_neq. lia.
  - apply Z.eqb_eq. lia.
Qed.

Lemma unique_count (b : Business) (l : list Business) : forall pre : list Business,
  length (List.filter (sameName b)
            (filterIndexed
               (fun business index =>
                  (index =? findIndex (sameName business) (pre ++ l))%Z)
               (Z.of_nat (length pre)) l))
  = if existsb (sameName b) pre then 0%nat
    else if existsb (sameName b) l then 1%nat else 0%nat.
Proof.
  induction l as [|x l IH]; intros pre.
  - simpl. destruct (existsb (sameName b) pre); reflexivity.
  - cbn [filterIndexed]. rewrite kept_iff_first.
    specialize (IH (pre ++ [x])).
    rewrite <- app_assoc in IH. simpl in IH.
    rewrite length_app, Nat2Z.inj_add in IH. change (Z.of_nat (length [x])) with 1%Z in IH.
    rewrite existsb_app in IH. simpl in IH. rewrite orb_false_r in IH.
    destruct (sameName b x) eqn:Hbx.
    + rewrite (sameName_exists b x pre Hbx).
      destruct (existsb (sameName b) pre) eqn:Hpre; simpl in *.
      * exact IH.
      * rewrite Hbx. simpl. rewrite IH. reflexivity.
    + rewrite orb_false_r in IH.
      destruct (negb (existsb (sameName x) pre)); simpl; rewrite ?Hbx; exact IH.
Qed.

Lemma filterIndexed_subset {A} (keep : A -> Z -> bool) (l : list A) : forall i x,
  x ∈ filterIndexed keep i l -> x ∈ l.
Proof.
  induction l as [|y l IH]; intros i x; simpl.
  - intros Hx. exact Hx.
  - destruct (keep y i).
    + rewrite !elem_of_cons. intros [->|Hx]; [left; reflexivity|right; eauto].
    + rewrite elem_of_cons. intros Hx. right. eauto.
Qed.

Lemma exists_sameName b (l : list Business) : b ∈ l -> existsb (sameName b) l = true.
Proof.
  induction 1 as [b l|b y l _ IH]; simpl.
  - rewrite sameName_refl. reflexivity.
  - rewrite IH. apply orb_true_r.
Qed.

(** C8: for every summary of the pass, the de-duplicated list holds
    exactly one record with its name, names being compared with [===];
    and it holds nothing that was not in the pass. *)
Theorem unique_results_one_per_name (results : list Business) (business : Business)
    (Hin : business ∈ results) :
  length (List.filter (sameName business) (uniqueResults results)) = 1%nat
  /\ forall b : Business, b ∈ uniqueResults results -> b ∈ results.
Proof.
  split.
  - pose proof (unique_count business results []) as Hcount.
    simpl in Hcount. change (Z.of_nat 0) with 0%Z in Hcount.
    unfold uniqueResults. rewrite Hcount.
    rewrite (exists_sameName business results Hin). reflexivity.
  - intros b. apply filterIndexed_subset.
Qed.

End UniqueFacts.

(** ** Reasoning about computations *)

Section Outcomes.
Context {S : Type}.

Lemma wp_ret {A} (a : A) (Q : A -> S -> Prop) E s : Q a s -> wp (ret a) Q E s.
Proof. intros HQ. exact HQ. Qed.

Lemma wp_throw {A} (e : Error) (Q : A -> S -> Prop) (E : Error -> S -> Prop) s :
  E e s -> wp (throw e) Q E s.
Proof. intros HE. exact HE. Qed.

Lemma wp_bind {A B} (m : M S A) (k : A -> M S B) (Q : B -> S -> Prop) E s :
  wp m (fun a s' => wp (k a) Q E s') E s -> wp (bind m k) Q E s.
Proof. unfold wp, bind. destruct (m s) as [[a|e] s']; intros Hm; exact Hm. Qed.

Lemma wp_tryCatch {A} (body : M S A) handler (Q : A -> S -> Prop) E s :
  wp body Q (fun e s' => wp (handler e) Q E s') s -> wp (tryCatch body handler) Q E s.
Proof. unfold wp, tryCatch. destruct (body s) as [[a|e] s']; intros Hm; exact Hm. Qed.

Lemma wp_attempt {A} (body : M S A) (Q : unit -> S -> Prop) E s :
  wp body (fun _ s' => Q tt s') (fun _ s' => Q tt s') s -> wp (attempt body) Q E s.
Proof.
  unfold wp, attempt, tryCatch, bind, ret.
  destruct (body s) as [[a|e] s']; intros Hm; exact Hm.
Qed.

Lemma wp_tryFinally {A} (body : M S A) cleanup (Q : A -> S -> Prop) (E : Error -> S -> Prop) s :
  wp body (fun a s' => wp cleanup (fun _ s'' => Q a s'') E s')
          (fun e s' => wp cleanup (fun _ s'' => E e s'') E s') s ->
  wp (tryFinally body cleanup) Q E s.
Proof.
  unfold wp, tryFinally.
  destruct (body s) as [[a|e] s']; destruct (cleanup s') as [[[]|e'] s'']; intros Hm; exact Hm.
Qed.

Lemma wp_liftRes {A} (r : Res A) (Q : A -> S -> Prop) (E : Error -> S -> Prop) s :
  match r with Ok a => Q a s | Throw e => E e s end -> wp (liftRes r) Q E s.
Proof. unfold wp, liftRes. destruct r; intros Hr; exact Hr. Qed.

(** A call nothing is known about. *)
Lemma wp_any {A} (m : M S A) (Q : A -> S -> Prop) (E : Error -> S -> Prop) s :
  (forall a s', Q a s') -> (forall e s', E e s') -> wp m Q E s.
Proof. unfold wp. intros HQ HE. destruct (m s) as [[a|e] s']; auto. Qed.

Lemma wp_mono {A} (m : M S A) (Q Q' : A -> S -> Prop) (E E' : Error -> S -> Prop) s :
  wp m Q E s -> (forall a s', Q a s' -> Q' a s') -> (forall e s', E e s' -> E' e s') ->
  wp m Q' E' s.
Proof. unfold wp. destruct (m s) as [[a|e] s']; auto. Qed.

(** A loop that keeps the invariant [I] whether its body returns or
    throws. *)
Lemma wp_forEach {A} (body : A -> M S unit) (I : S -> Prop) (E : Error -> S -> Prop)
    (xs : list A) :
  (forall x s, x ∈ xs -> I s -> wp (body x) (fun _ s' => I s') E s) ->
  forall s, I s -> wp (forEach body xs) (fun _ s' => I s') E s.
Proof.
  induction xs as [|x xs IH]; intros Hbody s Hs; simpl.
  - exact Hs.
  - apply wp_bind.
    apply wp_mono with (Q := fun _ s' => I s') (E := E).
    + apply Hbody; [left|exact Hs].
    + intros _ s' Hs'. apply IH; [|exact Hs'].
      intros y s0 Hy. apply Hbody. right. exact Hy.
    + auto.
Qed.

(** [attempt] always returns. *)
Lemma attempt_returns {A} (body : M S A) s : exists s', attempt body s = (Ok tt, s').
Proof.
  unfold attempt, tryCatch, bind, ret.
  destruct (body s) as [[a|e] s']; eauto.
Qed.

End Outcomes.

Lemma wp_liftW {W L A} (m : M W A) (Q : A -> W * L -> Prop) E (s : W * L) :
  wp m (fun a w' => Q a (w', snd s)) (fun e w' => E e (w', snd s)) (fst s) ->
  wp (liftW m) Q E s.
Proof. unfold wp, liftW. destruct (m (fst s)) as [[a|e] w']; intros Hm; exact Hm. Qed.

Lemma wp_push {W A} (x : A) (Q : unit -> W * list A -> Prop) E (s : W * list A) :
  Q tt (fst s, snd s ++ [x]) -> wp (push x) Q E s.
Proof. intros HQ. exact HQ. Qed.

Lemma wp_collecting {W A} (body : M (W * list A) unit) (Q : list A -> W -> Prop) E (w : W) :
  wp body (fun _ s' => Q (snd s') (fst s')) (fun e s' => E e (fst s')) (w, []) ->
  wp (collecting body) Q E w.
Proof. unfold wp, collecting. destruct (body (w, [])) as [[a|e] s']; intros Hm; exact Hm. Qed.

(** ** The detail navigator *)

Section EnrichFacts.
Context `{Platform} {W : Type} `{Browser W}.
Import JS.

(** The fields the merge writes. *)
Lemma enhance_frame (business r : Business) (info : Detail.Details) (k : string) :
  Detail.enhance business info = Ok r ->
  k ∉ ["phone"; "website"; "address"; "hours"; "category"; "description"]%string ->
  r !! k = business !! k.
Proof.
  unfold Detail.enhance. intros Hr Hk.
  destruct (Detail.finalWebsite business info) as [website|e]; [|discriminate].
  injection Hr as <-.
  rewrite !not_elem_of_cons in Hk.
  destruct Hk as (Hp & Hw & Ha & Hh & Hc & Hd & _).
  rewrite !lookup_insert_ne by congruence. reflexivity.
Qed.

Lemma enhance_identity (business r : Business) (info : Detail.Details) :
  Detail.enhance business info = Ok r -> sameIdentity r business.
Proof.
  intros Hr. unfold sameIdentity.
  repeat split; apply (enhance_frame business r info _ Hr);
    rewrite !not_elem_of_cons; repeat split; try discriminate; apply not_elem_of_nil.
Qed.

(** Whatever the page does, [extractBusinessDetails] returns, and what
    it returns is the business it was given or the outcome of the merge
    on some [detailedInfo]. *)
Lemma extractBusinessDetails_outcome (business : Business)
    (Q : Business -> W -> Prop) (E : Error -> W -> Prop) (w : W) :
  (forall w', Q business w') ->
  (forall info r w', Detail.enhance business info = Ok r -> Q r w') ->
  wp (extractBusinessDetails business) Q E w.
Proof.
  intros Hsame Hmerged.
  unfold extractBusinessDetails. apply wp_tryCatch.
  assert (Hcatch : forall (e : Error) (s' : W),
             wp (run! recover in ret business) Q E s').
  { intros e s'. apply wp_bind. unfold recover. apply wp_attempt.
    apply wp_any; intros; apply wp_ret; apply Hsame. }
  apply wp_bind. apply wp_any; [|exact Hcatch].
  intros currentUrl w1.
  destruct (truthy (prop business "placeUrl")); [|apply wp_ret; apply Hsame].
  apply wp_bind. apply wp_any; [|exact Hcatch].
  intros navigatedAway w2.
  destruct navigatedAway; [|apply wp_ret; apply Hsame].
  unfold afterNavigation.
  apply wp_bind. apply wp_any; [|exact Hcatch]. intros _ w3.
  apply wp_bind. apply wp_any; [|exact Hcatch]. intros _ w4.
  apply wp_bind. apply wp_any; [|exact Hcatch]. intros dom w5.
  apply wp_bind. apply wp_liftRes.
  destruct (Detail.detailedInfo dom (prop business "name")) as [info|e]; [|exact (Hcatch e _)].
  apply wp_bind. apply wp_liftRes.
  destruct (Detail.nameMismatch _ _) as [mismatch|e]; [|exact (Hcatch e _)].
  apply wp_bind. apply wp_liftRes.
  destruct (Detail.enhance business info) as [r|e] eqn:Hr; [|exact (Hcatch e _)].
  apply wp_bind. apply wp_any; [|exact Hcatch]. intros _ w6.
  apply wp_ret. apply (Hmerged info r w6 Hr).
Qed.

(** C4: [extractBusinessDetails] never raises, and when the navigation
    to [placeUrl] throws it returns the summary it was given, as it
    was. *)
Theorem enrich_never_raises (business : Business) (w : W) :
  (exists (r : Business) (w' : W), extractBusinessDetails business w = (Ok r, w'))
  /\ (forall (currentUrl : list N) (w1 : W) (e : Error) (w2 : W),
        pageUrl w = (Ok currentUrl, w1) ->
        perform (Goto (prop business "placeUrl") 15000) w1 = (Throw e, w2) ->
        exists w' : W, extractBusinessDetails business w = (Ok business, w')).
Proof.
  split.
  - pose proof (extractBusinessDetails_outcome business
                  (fun _ _ => True) (fun _ _ => False) w
                  (fun _ => I) (fun _ _ _ _ => I)) as Hwp.
    unfold wp in Hwp.
    destruct (extractBusinessDetails business w) as [[r|e] w']; [eauto|contradiction].
  - intros currentUrl w1 e w2 Hurl Hgoto.
    unfold extractBusinessDetails, tryCatch, bind. rewrite Hurl.
    destruct (truthy (prop business "placeUrl")).
    + rewrite Hgoto. simpl. eauto.
    + simpl. eauto.
Qed.

(** C7: without a [placeUrl] the business comes back as it was given. *)
Theorem enrich_identity_without_placeUrl (business : Business) (w : W)
    (Habsent : truthy (prop business "placeUrl") = false) :
  exists w' : W, extractBusinessDetails business w = (Ok business, w').
Proof.
  unfold extractBusinessDetails, tryCatch, bind. rewrite Habsent.
  destruct (pageUrl w) as [[currentUrl|e] w1].
  - simpl. eauto.
  - destruct (attempt_returns
                (let! currentUrl := pageUrl in
                 if negb (includes (js "/maps/search/") currentUrl) then
                   run! perform (GoBack 10000) in
                   perform (WaitForTimeout 2000)
                 else
                   run! perform (KeyboardPress "Escape") in
                   perform (WaitForTimeout 1000)) w1) as [w2 Hw2].
    unfold recover. rewrite Hw2. simpl. eauto.
Qed.

(** A missing [placeUrl] and a [null] one are both absent. *)
Lemma placeUrl_absent (business : Business) :
  business !! "placeUrl" = None \/ business !! "placeUrl" = Some JNull ->
  truthy (prop business "placeUrl") = false.
Proof. unfold prop. intros [-> | ->]; reflexivity. Qed.

(** C10: on every path the record returned has the [name], [rating],
    [reviewCount], [placeId] and [placeUrl] of the summary; indeed it
    agrees with the summary on every property other than [phone],
    [website], [address], [hours], [category] and [description]. *)
Theorem enrich_keeps_identity (business : Business) (w : W) :
  exists (r : Business) (w' : W),
    extractBusinessDetails business w = (Ok r, w')
    /\ sameIdentity r business
    /\ forall k : string,
         k ∈ ["phone"; "website"; "address"; "hours"; "category"; "description"]%string
         \/ r !! k = business !! k.
Proof.
  assert (Hdec : forall (r : Business) (k : string),
             (k ∉ ["phone"; "website"; "address"; "hours"; "category"; "description"]%string ->
              r !! k = business !! k) ->
             k ∈ ["phone"; "website"; "address"; "hours"; "category"; "description"]%string
             \/ r !! k = business !! k).
  { intros r k Hk.
    destruct (decide (k ∈ ["phone"; "website"; "address"; "hours"; "category";
                           "description"]%string)); auto. }
  pose proof (extractBusinessDetails_outcome business
                (fun r _ => sameIdentity r business
                            /\ forall k : string,
                                 k ∉ ["phone"; "website"; "address"; "hours";
                                      "category"; "description"]%string ->
                                 r !! k = business !! k)
                (fun _ _ => False) w) as Hwp.
  unfold wp in Hwp.
  destruct (extractBusinessDetails business w) as [[r|e] w'].
  - exists r, w'. split; [reflexivity|].
    enough (Hr : sameIdentity r business
                 /\ forall k : string,
                      k ∉ ["phone"; "website"; "address"; "hours"; "category";
                           "description"]%string ->
                      r !! k = business !! k)
      by (split; [apply Hr|intros k; apply Hdec; apply Hr]).
    apply Hwp.
    + intros _. split; [repeat split|reflexivity].
    + intros info r' _ Hr. split.
      * exact (enhance_identity business r' info Hr).
      * intros k. exact (enhance_frame business r' info k Hr).
  - exfalso. apply Hwp.
    + intros _. split; [repeat split|reflexivity].
    + intros info r' _ Hr. split.
      * exact (enhance_identity business r' info Hr).
      * intros k. exact (enhance_frame business r' info k Hr).
Qed.

End EnrichFacts.

(** ** Websites *)

Section WebsiteFacts.
Context `{Platform} {W : Type} `{Browser W}.
Import JS.







Lemma wp_liftW_any {L A} (m : M W A) (Q : A -> W * L -> Prop) E (s : W * L) :
  (forall a w', Q a (w', snd s)) -> (forall e w', E e (w', snd s)) -> wp (liftW m) Q E s.
Proof. intros HQ HE. apply wp_liftW. apply wp_any; auto. Qed.





End WebsiteFacts.

(** ** Phone numbers *)

Section PhoneFacts.
Context `{Platform}.
Import JS.

Lemma digit_not_whitespace (c : N) : isDigit c = true -> isWhiteSpace c = false.
Proof.
  unfold isDigit, isWhiteSpace. intros Hd.
  apply andb_true_iff in Hd. destruct Hd as [Hlo Hhi].
  apply N.leb_le in Hlo. apply N.leb_le in Hhi.
  repeat (apply orb_false_iff; split);
    try (apply N.eqb_neq; lia);
    apply andb_false_iff; [right|left]; apply N.leb_gt; lia.
Qed.

Lemma digitsOnly_dropWhile (s : list N) :
  digitsOnly (dropWhile isWhiteSpace s) = digitsOnly s.
Proof.
  induction s as [|c s IH]; simpl; [reflexivity|].
  destruct (isWhiteSpace c) eqn:Hws.
  - rewrite IH. destruct (isDigit c) eqn:Hd; [|reflexivity].
    rewrite (digit_not_whitespace c Hd) in Hws. discriminate.
  - reflexivity.
Qed.

(** Trimming removes no digit. *)
Lemma digitsOnly_trim (s : list N) : digitsOnly (trim s) = digitsOnly s.
Proof.
  unfold trim, trimEnd, trimStart, digitsOnly.
  rewrite filter_rev. fold (digitsOnly (dropWhile isWhiteSpace (rev (dropWhile isWhiteSpace s)))).
  rewrite digitsOnly_dropWhile. unfold digitsOnly.
  rewrite filter_rev, rev_involutive.
  apply digitsOnly_dropWhile.
Qed.

Lemma validLength_bounds (digits : list N) :
  Detail.validLength digits = true -> (7 <= length digits <= 15)%nat.
Proof.
  unfold Detail.validLength. intros Hv.
  apply andb_true_iff in Hv. destruct Hv as [Hlo Hhi].
  apply Nat.leb_le in Hlo. apply Nat.leb_le in Hhi. lia.
Qed.

Lemma firstOf_some {A B} (f : A -> option B) (xs : list A) (y : B) :
  Detail.firstOf f xs = Some y -> exists x, x ∈ xs /\ f x = Some y.
Proof.
  induction xs as [|x xs IH]; simpl; [discriminate|].
  destruct (f x) as [y'|] eqn:Hx.
  - intros Hy. injection Hy as <-. exists x. split; [left|exact Hx].
  - intros Hy. destruct (IH Hy) as (x' & Hin & Hx'). exists x'. split; [right; exact Hin|exact Hx'].
Qed.

Lemma phoneOfContact_valid (element : Detail.ContactElement) (p : list N) :
  Detail.phoneOfContact element = Some p -> (7 <= digitCount p <= 15)%nat.
Proof.
  unfold Detail.phoneOfContact.
  destruct (_ || _); [|discriminate].
  destruct (match Detail.ce_telLink element with Some href => href | None => _ end)
    as [|c phoneText]; [discriminate|].
  destruct (Regex.exec Detail.phoneRe _) as [m|]; [|discriminate].
  destruct (Detail.validLength (digitsOnly (trim m))) eqn:Hv; [|discriminate].
  intros Hp. injection Hp as <-. exact (validLength_bounds _ Hv).
Qed.

Lemma phoneOfTelLink_valid (href : option (list N)) (p : list N) :
  Detail.phoneOfTelLink href = Some p -> (7 <= digitCount p <= 15)%nat.
Proof.
  unfold Detail.phoneOfTelLink.
  destruct href as [h|]; [|discriminate].
  destruct (nonEmpty (Some h)); [|discriminate].
  destruct (_ && _) eqn:Hv; [|discriminate].
  apply andb_true_iff in Hv. destruct Hv as [_ Hv].
  intros Hp. injection Hp as <-. exact (validLength_bounds _ Hv).
Qed.

Lemma phoneOfPattern_valid (panelText : list N) (pattern : list Regex.Atom) (p : list N) :
  Detail.phoneOfPattern panelText pattern = Some p -> (7 <= digitCount p <= 15)%nat.
Proof.
  unfold Detail.phoneOfPattern.
  destruct (Regex.matchAll pattern panelText) as [matches|]; [|discriminate].
  destruct (Detail.findValid matches) as [validPhone|] eqn:Hfind; [|discriminate].
  apply find_some in Hfind. destruct Hfind as [_ Hv].
  destruct validPhone as [|c validPhone]; [discriminate|].
  intros Hp. injection Hp as <-.
  unfold digitCount. rewrite digitsOnly_trim. exact (validLength_bounds _ Hv).
Qed.

Lemma phoneStrategy2_valid panel (p : list N) :
  Detail.phoneStrategy2 panel = Some p -> (7 <= digitCount p <= 15)%nat.
Proof.
  unfold Detail.phoneStrategy2. destruct panel as [panel|]; [|discriminate].
  intros Hp. destruct (firstOf_some _ _ _ Hp) as (element & _ & He).
  exact (phoneOfContact_valid element p He).
Qed.

Lemma phoneStrategy3_valid panel (p : list N) :
  Detail.phoneStrategy3 panel = Some p -> (7 <= digitCount p <= 15)%nat.
Proof.
  unfold Detail.phoneStrategy3. destruct panel as [panel|]; [|discriminate].
  intros Hp. destruct (firstOf_some _ _ _ Hp) as (href & _ & He).
  exact (phoneOfTelLink_valid href p He).
Qed.

Lemma phoneStrategy4_valid panel (p : list N) :
  Detail.phoneStrategy4 panel = Some p -> (7 <= digitCount p <= 15)%nat.
Proof.
  unfold Detail.phoneStrategy4. destruct panel as [panel|]; [|discriminate].
  intros Hp. destruct (firstOf_some _ _ _ Hp) as (pattern & _ & He).
  exact (phoneOfPattern_valid _ pattern p He).
Qed.

Lemma valid_nonEmpty (p : list N) : (7 <= digitCount p)%nat -> nonEmpty (Some p) = true.
Proof. destruct p; [unfold digitCount; simpl; lia|reflexivity]. Qed.

(** A later strategy sets the field only to a number it validated. *)
Lemma unlessSet_valid (current strategy : option (list N)) :
  (forall p, strategy = Some p -> (7 <= digitCount p <= 15)%nat) ->
  (nonEmpty current = false
   \/ exists p, current = Some p /\ (7 <= digitCount p <= 15)%nat) ->
  nonEmpty (Detail.unlessSet current strategy) = false
  \/ exists p, Detail.unlessSet current strategy = Some p /\ (7 <= digitCount p <= 15)%nat.
Proof.
  intros Hs [Hc|(p & -> & Hp)]; unfold Detail.unlessSet.
  - rewrite Hc. destruct strategy as [v|]; [|left; exact Hc].
    right. exists v. split; [reflexivity|]. apply Hs. reflexivity.
  - rewrite valid_nonEmpty by lia. right. exists p. split; [reflexivity|exact Hp].
Qed.

(** A pattern whose first atom must match at least once starts its
    match on a code unit of that atom's class. *)
Lemma matchHere_first (a : Regex.Atom) (pat : list Regex.Atom) (s m : list N) :
  (1 <= Regex.atLeast a)%nat ->
  Regex.matchHere (a :: pat) s = Some m ->
  exists c m', m = c :: m' /\ Regex.cls a c = true.
Proof.
  intros Hmin.
  assert (Hstop : forall s0,
             (if (Regex.atLeast a <=? 0)%nat then Regex.matchHere pat s0 else None) = None).
  { intros s0. destruct (Nat.leb_spec (Regex.atLeast a) 0); [lia|reflexivity]. }
  destruct s as [|c s']; cbn [Regex.matchHere]; rewrite ?Hstop.
  - discriminate.
  - destruct (Regex.cls a c) eqn:Hc; cbn [andb]; [|discriminate].
    destruct (Regex.below 0 (Regex.atMost a)); [|discriminate].
    match goal with
    | |- context [match ?r with Some _ => _ | None => _ end] => destruct r as [found|]
    end.
    + intros Hm. injection Hm as <-. eauto.
    + discriminate.
Qed.

(** What [exec] returns is a match at some position. *)
Lemma exec_matchHere (pat : list Regex.Atom) (s m : list N) :
  Regex.exec pat s = Some m -> exists s', Regex.matchHere pat s' = Some m.
Proof.
  induction s as [|c s IH]; cbn [Regex.exec].
  - destruct (Regex.matchHere pat []) eqn:Hm; [|discriminate].
    intros Heq. injection Heq as <-. eauto.
  - destruct (Regex.matchHere pat (c :: s)) eqn:Hm.
    + intros Heq. injection Heq as <-. eauto.
    + exact IH.
Qed.

(** The pattern of the summary card starts its match on a digit. *)
Lemma summary_phone_starts_with_digit (s m : list N) :
  Regex.exec Summary.phoneRe s = Some m -> exists d m', m = d :: m' /\ isDigit d = true.
Proof.
  intros Hm. destruct (exec_matchHere _ _ _ Hm) as [s' Hs'].
  exact (matchHere_first (Regex.one isDigit) _ s' m (Nat.le_refl 1) Hs').
Qed.

(** C1, as the code has it: the numbers that strategies 2, 3 and 4 of
    the detail page assign have 7 to 15 digits, and so has
    [details.phone] whenever the "Phone" control of strategy 1 left it
    unset; the summary card validates nothing, its number is a match of
    the label that starts with a digit. *)
Theorem phone_digit_counts :
  (forall panel (p : list N),
      Detail.phoneStrategy2 panel = Some p \/ Detail.phoneStrategy3 panel = Some p
      \/ Detail.phoneStrategy4 panel = Some p ->
      (7 <= digitCount p <= 15)%nat)
  /\ (forall (dom : Detail.Dom) (p : list N),
        nonEmpty (Detail.phoneStrategy1 (Detail.phoneButton dom)) = false ->
        Detail.extractPhone dom = Some p -> p <> [] ->
        (7 <= digitCount p <= 15)%nat)
  /\ (forall (index : nat) (element : Summary.Card) (b : Business) (p : list N),
        Summary.extractCard index element = Some b ->
        prop b "phone" = JStr p ->
        (1 <= digitCount p)%nat).
Proof.
  split; [|split].
  - intros panel p [Hp|[Hp|Hp]];
      eauto using phoneStrategy2_valid, phoneStrategy3_valid, phoneStrategy4_valid.
  - intros dom p H1 Hp Hne. unfold Detail.extractPhone in Hp.
    destruct (unlessSet_valid
                (Detail.unlessSet
                   (Detail.unlessSet (Detail.phoneStrategy1 (Detail.phoneButton dom))
                      (Detail.phoneStrategy2 (Detail.mainPanel dom)))
                   (Detail.phoneStrategy3 (Detail.mainPanel dom)))
                (Detail.phoneStrategy4 (Detail.mainPanel dom)))
      as [Hunset|(q & Hq & Hvalid)].
    + apply phoneStrategy4_valid.
    + apply unlessSet_valid; [apply phoneStrategy3_valid|].
      apply unlessSet_valid; [apply phoneStrategy2_valid|].
      left. exact H1.
    + rewrite Hp in Hunset. destruct p; [congruence|discriminate].
    + rewrite Hp in Hq. injection Hq as <-. exact Hvalid.
  - intros index element b p. unfold Summary.extractCard.
    destruct (orElse (trim <$> Summary.nameText element) _) as [n|]; [|discriminate].
    destruct (_ && _); [|discriminate].
    intros Hb. injection Hb as <-.
    unfold prop. rewrite !lookup_insert_ne by discriminate. rewrite lookup_insert_eq.
    cbn [default].
    destruct (Summary.phoneAria element) as [label|]; cbn [mbind option_bind];
      [|discriminate].
    destruct (Regex.exec Summary.phoneRe label) as [m|] eqn:Hm; [|discriminate].
    destruct (summary_phone_starts_with_digit label m Hm) as (d & m' & -> & Hd).
    cbn [orElse nonEmpty ofDom]. intros Hp. injection Hp as <-.
    unfold digitCount, digitsOnly. simpl. rewrite Hd. simpl. lia.
Qed.

End PhoneFacts.

(** ** The orchestrator on the live page *)

Section OrchestratorFacts.
Context `{Platform} {W : Type} `{Browser W}.

(** The budget of [scrollPage] is never what stops the loop: from the
    initial state, 100 passes are all the cap allows. *)
Lemma scrollPage_budget (budget : nat) : forall (st : Scroll.State) (w : W),
  (Scroll.maxScrollAttempts - Scroll.scrollAttempts st <= budget)%nat ->
  scrollPage (S budget) st w = scrollPage budget st w.
Proof.
  induction budget as [|budget IH]; intros st w Hle.
  - cbn [scrollPage].
    destruct (Nat.ltb_spec (Scroll.scrollAttempts st) Scroll.maxScrollAttempts);
      [lia|reflexivity].
  - change (scrollPage (S (S budget)) st w)
      with ((if (Scroll.scrollAttempts st <? Scroll.maxScrollAttempts)%nat then
               let! lengths := selectorCounts in
               match Scroll.iteration st (Scroll.countResults lengths) with
               | Scroll.Break st' => ret st'
               | Scroll.Continue st' =>
                   run! nudge (Scroll.scrollAttempts st) in
                   scrollPage (S budget) st'
               end
             else ret st) w).
    change (scrollPage (S budget) st w)
      with ((if (Scroll.scrollAttempts st <? Scroll.maxScrollAttempts)%nat then
               let! lengths := selectorCounts in
               match Scroll.iteration st (Scroll.countResults lengths) with
               | Scroll.Break st' => ret st'
               | Scroll.Continue st' =>
                   run! nudge (Scroll.scrollAttempts st) in
                   scrollPage budget st'
               end
             else ret st) w).
    destruct (Scroll.scrollAttempts st <? Scroll.maxScrollAttempts)%nat; [|reflexivity].
    unfold bind at 1 3. destruct (selectorCounts w) as [[lengths|e] w1]; [|reflexivity].
    pose proof (iteration_attempts st (Scroll.countResults lengths)) as Hit.
    destruct (Scroll.iteration st (Scroll.countResults lengths)) as [st'|st'];
      [reflexivity|].
    unfold bind. destruct (nudge (Scroll.scrollAttempts st) w1) as [[[]|e] w2];
      [|reflexivity].
    apply IH. lia.
Qed.

(** The live loop never counts past the cap either. *)
Lemma scrollPage_attempts (budget : nat) : forall (st : Scroll.State) (w : W),
  (Scroll.scrollAttempts st <= Scroll.maxScrollAttempts)%nat ->
  wp (scrollPage budget st)
     (fun st' _ => (Scroll.scrollAttempts st' <= Scroll.maxScrollAttempts)%nat)
     (fun _ _ => True) w.
Proof.
  induction budget as [|budget IH]; intros st w Hst; cbn [scrollPage].
  - apply wp_ret. exact Hst.
  - destruct (Nat.ltb_spec (Scroll.scrollAttempts st) Scroll.maxScrollAttempts) as [Hlt|_];
      [|apply wp_ret; exact Hst].
    apply wp_bind. apply wp_any; [|auto]. intros lengths w1.
    pose proof (iteration_attempts st (Scroll.countResults lengths)) as Hit.
    destruct (Scroll.iteration st (Scroll.countResults lengths)) as [st'|st'].
    + apply wp_ret. lia.
    + apply wp_bind. apply wp_any; [|auto]. intros _ w2. apply IH. lia.
Qed.

(** With a sink that throws whenever it is called, no pass of the
    per-record loop completes: the first exception is caught and the call
    repeated by the handler, the second is not caught. *)
Lemma processBusiness_rethrows (sink : Sink W) (query : list N) (business : Business)
    (s : W * list Business) :
  (forall (b : Business) (w : W), exists e w', sink b query w = (Throw e, w')) ->
  exists e s', processBusiness (Some sink) query business s = (Throw e, s').
Proof.
  intros Hsink.
  pose proof (extractBusinessDetails_outcome business
                (fun _ _ => True) (fun _ _ => False) (fst s)
                (fun _ => I) (fun _ _ _ _ => I)) as Hwp.
  unfold wp in Hwp.
  unfold processBusiness, tryCatch, bind, liftW, push, callSink.
  destruct (extractBusinessDetails business (fst s)) as [[r|e] w1]; [|contradiction].
  cbn [fst snd].
  destruct (Hsink r w1) as (e1 & w2 & ->). cbn [fst snd].
  destruct (Hsink business w2) as (e2 & w3 & ->). eauto.
Qed.

End OrchestratorFacts.

(** ** Worked examples *)

Section Examples.
Import JS.

(** C1 as stated fails: from the label "Open 24 hours, phone 042
    35761999" the summary card takes the first match, "24 ", whose
    digit-only length is 2, and the record leaves the scrape with that
    phone when the place page shows none. *)
Lemma summary_phone_with_two_digits :
  Demo.phoneOf <$> Summary.extractCard 0 Demo.cafeOne = Some (JStr (js "24 "))
  /\ digitCount (js "24 ") = 2%nat
  /\ exists (r : Business) (w : nat),
       Demo.scrape (Demo.calm [Demo.cafeOne] Demo.emptyDom) None = (Ok [r], w)
       /\ Demo.phoneOf r = JStr (js "24 ").
Proof.
  split; [vm_compute; reflexivity|]. split; [reflexivity|].
  eexists. eexists. split; vm_compute; reflexivity.
Qed.

(** Strategy 1 does not count digits either: a label with two numbers
    gives a phone of 22 digits, which the merge prefers to the
    summary's. *)
Example phone_control_is_not_validated :
  Detail.phoneStrategy1 (Some Demo.busyButton) = Some (js "0300 1234567 0300 7654321")
  /\ digitCount (js "0300 1234567 0300 7654321") = 22%nat
  /\ exists (r : Business) (w : nat),
       Demo.enrich (Demo.calm [] Demo.busyDom) (Demo.placed "Cafe" "555-1111") = (Ok r, w)
       /\ Demo.phoneOf r = JStr (js "0300 1234567 0300 7654321").
Proof.
  split; [vm_compute; reflexivity|]. split; [reflexivity|].
  eexists. eexists. split; vm_compute; reflexivity.
Qed.

Lemma phone_digit_counts_witness :
  Detail.phoneStrategy3 (Some Demo.panel) = Some (js "+92 300 1234567")
  /\ (7 <= digitCount (js "+92 300 1234567") <= 15)%nat.
Proof.
  assert (Hp : Detail.phoneStrategy3 (Some Demo.panel) = Some (js "+92 300 1234567"))
    by (vm_compute; reflexivity).
  split; [exact Hp|].
  apply (proj1 (@phone_digit_counts Demo.platform) (Some Demo.panel)).
  right. left. exact Hp.
Defined.

(** The merge falls back on the summary's phone. *)
Example merge_keeps_summary_phone :
  exists (r : Business) (w : nat),
    Demo.enrich (Demo.calm [] Demo.emptyDom) (Demo.placed "Cafe" "555-1111") = (Ok r, w)
    /\ Demo.phoneOf r = JStr (js "555-1111").
Proof. eexists. eexists. split; vm_compute; reflexivity. Qed.

(** A card whose website points into Google Maps yields [null]. *)
Example maps_website_is_nulled :
  Demo.websiteOf <$> Summary.extractCard 0 Demo.cafeOne = Some JNull.
Proof. vm_compute. reflexivity. Qed.


(** C2 fails on the code: the first exception of the sink is caught by
    the [catch] of the loop body, which calls the sink again outside any
    [try]; the second exception leaves the loop and [scrapeGoogleMaps]
    rejects. The second record is never processed. *)
Theorem throwing_sink_unwinds_scrape :
  Demo.scrape (Demo.calm [Demo.cafeTwo; Demo.cafeOne] Demo.placeDom) (Some Demo.throwingSink)
  = (Throw Demo.saveFailed, 2%nat).
Proof. vm_compute. reflexivity. Qed.

(** When only the first call of the sink throws, the scrape returns, but
    the record is in the list twice. *)
Example sink_throwing_once_duplicates_record :
  exists (first second : Business) (w : nat),
    Demo.scrape (Demo.calm [Demo.cafeTwo; Demo.cafeOne] Demo.placeDom)
      (Some Demo.throwingOnceSink)
    = (Ok [first; first; second], w)
    /\ w = 3%nat.
Proof. eexists. eexists. eexists. split; vm_compute; reflexivity. Qed.

Lemma enrich_never_raises_witness :
  Demo.enrich (Demo.unreachable []) (Demo.placed "Cafe" "555-1111")
  = (Ok (Demo.placed "Cafe" "555-1111"), 0%nat)
  /\ exists w' : nat,
       Demo.enrich (Demo.unreachable []) (Demo.placed "Cafe" "555-1111")
       = (Ok (Demo.placed "Cafe" "555-1111"), w').
Proof.
  split; [vm_compute; reflexivity|].
  apply (proj2 (@enrich_never_raises Demo.platform nat (Demo.browser (Demo.unreachable []))
                  (Demo.placed "Cafe" "555-1111") 0%nat)
           (js "https://www.google.com/maps/search/dentist") 0%nat Demo.timeout 0%nat);
    vm_compute; reflexivity.
Defined.

Lemma enrich_identity_without_placeUrl_witness :
  truthy (prop (Demo.named "Cafe" "555-1111") "placeUrl") = false
  /\ exists w' : nat,
       Demo.enrich (Demo.calm [] Demo.placeDom) (Demo.named "Cafe" "555-1111")
       = (Ok (Demo.named "Cafe" "555-1111"), w').
Proof.
  split; [vm_compute; reflexivity|].
  apply (@enrich_identity_without_placeUrl Demo.platform nat
           (Demo.browser (Demo.calm [] Demo.placeDom))).
  vm_compute. reflexivity.
Defined.

Lemma unique_results_one_per_name_witness :
  Demo.named "Cafe" "3" ∈ [Demo.named "Cafe" "1"; Demo.named "cafe" "2"; Demo.named "Cafe" "3"]
  /\ length (List.filter (Summary.sameName (Demo.named "Cafe" "3"))
               (Summary.uniqueResults
                  [Demo.named "Cafe" "1"; Demo.named "cafe" "2"; Demo.named "Cafe" "3"]))
     = 1%nat.
Proof.
  assert (Hin : Demo.named "Cafe" "3"
                ∈ [Demo.named "Cafe" "1"; Demo.named "cafe" "2"; Demo.named "Cafe" "3"])
    by (rewrite !elem_of_cons; auto).
  split; [exact Hin|].
  exact (proj1 (unique_results_one_per_name _ _ Hin)).
Defined.

(** Names are compared as they are written: "cafe" is not "Cafe"; of two
    records with one name the first is kept, whatever else differs. *)
Example unique_results_keep_first_and_case :
  Summary.uniqueResults
    [Demo.named "Cafe" "1"; Demo.named "cafe" "2"; Demo.named "Cafe" "3"]
  = [Demo.named "Cafe" "1"; Demo.named "cafe" "2"].
Proof. vm_compute. reflexivity. Qed.

End Examples.

(** ** Query slugs *)

Section SlugFacts.
Context `{Platform}.
Import JS Csv.

Lemma dropWhile_split (p : N -> bool) (s : list N) :
  exists pre, s = pre ++ dropWhile p s /\ Forall (fun c => p c = true) pre.
Proof.
  induction s as [|c s (pre & Hs & Hpre)]; simpl.
  - exists []. split; [reflexivity|constructor].
  - destruct (p c) eqn:Hc.
    + exists (c :: pre). split; [simpl; f_equal; exact Hs|constructor; assumption].
    + exists []. split; [reflexivity|constructor].
Qed.

Lemma dropWhile_head (p : N -> bool) (s : list N) (c : N) :
  head (dropWhile p s) = Some c -> p c = false.
Proof.
  induction s as [|d s IH]; simpl; [discriminate|].
  destruct (p d) eqn:Hd; [exact IH|].
  simpl. intros Hc. injection Hc as <-. exact Hd.
Qed.

Lemma dropWhile_id (p : N -> bool) (s : list N) :
  (forall c, head s = Some c -> p c = false) -> dropWhile p s = s.
Proof.
  destruct s as [|c s]; simpl; [reflexivity|].
  intros Hc. rewrite (Hc c eq_refl). reflexivity.
Qed.

Lemma dropWhile_Forall (P : N -> Prop) (p : N -> bool) (s : list N) :
  Forall P s -> Forall P (dropWhile p s).
Proof.
  destruct (dropWhile_split p s) as (pre & Hs & _).
  intros HP. rewrite Hs in HP. apply Forall_app in HP. apply HP.
Qed.

Lemma head_rev {A} (l : list A) : head (rev l) = last l.
Proof.
  induction l as [|x l _] using rev_ind; [reflexivity|].
  rewrite rev_app_distr, last_snoc. reflexivity.
Qed.

Lemma last_rev {A} (l : list A) : last (rev l) = head l.
Proof. rewrite <- (rev_involutive l) at 2. symmetry. apply head_rev. Qed.

Lemma last_dropWhile (p : N -> bool) (s : list N) :
  dropWhile p s <> [] -> last (dropWhile p s) = last s.
Proof.
  destruct (dropWhile_split p s) as (pre & Hs & _). intros Hne.
  rewrite Hs at 2. destruct (dropWhile p s) as [|c rest]; [congruence|].
  rewrite last_app.
  destruct (last (c :: rest)) eqn:Hl; [reflexivity|].
  apply last_None in Hl. discriminate.
Qed.

(** What [replaceRuns] writes: slug characters, and single underscores. *)
Lemma replaceRuns_chars (s : list N) : forall inRun : bool,
  Forall (fun c => isSlugChar c = true \/ isUnderscore c = true) (replaceRuns inRun s).
Proof.
  induction s as [|c s IH]; intros inRun; simpl; [constructor|].
  destruct (isSlugChar c) eqn:Hc.
  - constructor; [left; exact Hc|apply IH].
  - destruct inRun; [apply IH|].
    constructor; [right; reflexivity|apply IH].
Qed.

Lemma replaceRuns_head (s : list N) (c : N) :
  head (replaceRuns true s) = Some c -> isSlugChar c = true.
Proof.
  induction s as [|d s IH]; simpl; [discriminate|].
  destruct (isSlugChar d) eqn:Hd; [|exact IH].
  simpl. intros Hc. injection Hc as <-. exact Hd.
Qed.

Lemma underscore_not_slug (c : N) : isUnderscore c = true -> isSlugChar c = false.
Proof.
  unfold isUnderscore, isChar. intros Hc. apply N.eqb_eq in Hc. subst c. reflexivity.
Qed.

Lemma replaceRuns_no_double (s : list N) : forall (inRun : bool) (pre post : list N) (a b : N),
  replaceRuns inRun s = pre ++ a :: b :: post ->
  isUnderscore a = true -> isUnderscore b = true -> False.
Proof.
  induction s as [|c s IH]; intros inRun pre post a b; simpl.
  - destruct pre; discriminate.
  - destruct (isSlugChar c) eqn:Hc.
    + destruct pre as [|x pre]; simpl; intros Heq Ha Hb; injection Heq as -> Heq.
      * rewrite (underscore_not_slug _ Ha) in Hc. discriminate.
      * exact (IH false pre post a b Heq Ha Hb).
    + destruct inRun; [apply IH|].
      destruct pre as [|x pre]; simpl; intros Heq Ha Hb; injection Heq as Hx Heq.
      * pose proof (replaceRuns_head s b) as Hhead. rewrite Heq in Hhead.
        rewrite (underscore_not_slug _ Hb) in Hhead.
        specialize (Hhead eq_refl). discriminate.
      * exact (IH true pre post a b Heq Ha Hb).
Qed.

(** X1: a query slug is made of lower-case ASCII letters, digits and
    underscores; it neither starts nor ends with an underscore and has no
    two underscores in a row. *)
Theorem slug_shape (query : list N) :
  Forall (fun c => isSlugChar c = true \/ isUnderscore c = true) (createQuerySlug query)
  /\ (forall c, head (createQuerySlug query) = Some c -> isSlugChar c = true)
  /\ (forall c, last (createQuerySlug query) = Some c -> isSlugChar c = true)
  /\ (forall (pre post : list N) (a b : N),
        createQuerySlug query = pre ++ a :: b :: post ->
        isUnderscore a = true -> isUnderscore b = true -> False).
Proof.
  unfold createQuerySlug, stripUnderscores.
  set (runs := replaceRuns false (trim (toLowerCase query))).
  assert (Hchars : Forall (fun c => isSlugChar c = true \/ isUnderscore c = true)
                     (rev (dropWhile isUnderscore (rev (dropWhile isUnderscore runs))))).
  { apply Forall_rev. apply dropWhile_Forall. apply Forall_rev. apply dropWhile_Forall.
    apply replaceRuns_chars. }
  assert (Hlast : forall c,
             last (rev (dropWhile isUnderscore (rev (dropWhile isUnderscore runs)))) = Some c ->
             isUnderscore c = false).
  { intros c. rewrite last_rev. apply dropWhile_head. }
  assert (Hhead : forall c,
             head (rev (dropWhile isUnderscore (rev (dropWhile isUnderscore runs)))) = Some c ->
             isUnderscore c = false).
  { intros c. rewrite head_rev.
    destruct (dropWhile isUnderscore (rev (dropWhile isUnderscore runs))) as [|d rest] eqn:Hd;
      [discriminate|].
    rewrite <- Hd. rewrite last_dropWhile by (rewrite Hd; discriminate).
    rewrite last_rev. apply dropWhile_head. }
  assert (Hslug : forall c,
             c ∈ rev (dropWhile isUnderscore (rev (dropWhile isUnderscore runs))) ->
             isUnderscore c = false -> isSlugChar c = true).
  { intros c Hin Hc. rewrite Forall_forall in Hchars.
    destruct (Hchars c Hin) as [Hs|Hu]; [exact Hs|congruence]. }
  split; [exact Hchars|]. split; [|split].
  - intros c Hc. apply Hslug; [|exact (Hhead c Hc)].
    destruct (rev _) as [|d rest]; [discriminate|].
    simpl in Hc. injection Hc as ->. left.
  - intros c Hc. apply Hslug; [|exact (Hlast c Hc)].
    apply last_Some in Hc. destruct Hc as [l' ->]. apply elem_of_app. right. left.
  - intros pre post a b Heq Ha Hb.
    destruct (dropWhile_split isUnderscore runs) as (p1 & H1 & _).
    destruct (dropWhile_split isUnderscore (rev (dropWhile isUnderscore runs)))
      as (p2 & H2 & _).
    apply (f_equal (@rev N)) in Heq. rewrite rev_involutive in Heq.
    rewrite Heq in H2. apply (f_equal (@rev N)) in H2. rewrite rev_involutive in H2.
    rewrite rev_app_distr, rev_involutive in H2.
    rewrite H2 in H1.
    apply (replaceRuns_no_double (trim (toLowerCase query)) false
             (p1 ++ pre) (post ++ rev p2) a b); [|exact Ha|exact Hb].
    fold runs. rewrite H1. rewrite <- !app_assoc. reflexivity.
Qed.

End SlugFacts.

(** ** CSV rows *)

Section CsvFacts.
Import JS Csv.

Lemma parse_quoted (content : list N) : forall (tail : list N) (values : list (list N))
    (current : list N),
  parseFrom (doubleQuotes content ++ quote :: tail) values current true
  = parseFrom tail values (current ++ List.filter (fun c => negb (isQuote c)) content) false.
Proof.
  induction content as [|c content IH]; intros tail values current.
  - simpl. rewrite app_nil_r. reflexivity.
  - unfold doubleQuotes. cbn [flat_map List.filter].
    fold (doubleQuotes content).
    destruct (isQuote c) eqn:Hc; cbn [negb app parseFrom]; rewrite ?Hc; cbn [negb].
    + apply IH.
    + rewrite andb_false_r. rewrite IH. rewrite <- app_assoc. reflexivity.
Qed.

Lemma parse_plain (v : list N) : forall (tail : list N) (values : list (list N))
    (current : list N),
  Forall (fun c => isQuote c = false /\ isComma c = false) v ->
  parseFrom (v ++ tail) values current false = parseFrom tail values (current ++ v) false.
Proof.
  induction v as [|c v IH]; intros tail values current Hv.
  - simpl. rewrite app_nil_r. reflexivity.
  - inversion Hv as [|? ? [Hq Hc] Hv']; subst.
    cbn [app parseFrom]. rewrite Hq, Hc. cbn [andb].
    rewrite IH by exact Hv'. rewrite <- app_assoc. reflexivity.
Qed.

Lemma includes_single (c : N) (s : list N) :
  includes [c] s = false -> Forall (fun d => (c =? d) = false) s.
Proof.
  induction s as [|d s IH]; simpl; [constructor|].
  rewrite andb_true_r. intros Hs. apply orb_false_iff in Hs. destruct Hs as [Hd Hs].
  constructor; [exact Hd|apply IH; exact Hs].
Qed.

Lemma plain_when_unquoted (s : list N) :
  needsQuoting s = false ->
  Forall (fun c => isQuote c = false /\ isComma c = false) s.
Proof.
  unfold needsQuoting. intros Hs.
  apply orb_false_iff in Hs. destruct Hs as [Hs _].
  apply orb_false_iff in Hs. destruct Hs as [Hcomma Hquote].
  apply includes_single in Hcomma. apply includes_single in Hquote.
  rewrite Forall_forall in *. intros c Hc. split.
  - unfold isQuote. rewrite N.eqb_sym. apply Hquote. exact Hc.
  - unfold isComma, isChar. rewrite N.eqb_sym. apply Hcomma. exact Hc.
Qed.

Lemma filter_plain (s : list N) :
  Forall (fun c => isQuote c = false /\ isComma c = false) s ->
  List.filter (fun c => negb (isQuote c)) s = s.
Proof.
  induction 1 as [|c s [Hq _] _ IH]; simpl; [reflexivity|].
  rewrite Hq. simpl. f_equal. exact IH.
Qed.

(** Reading one escaped value: the quotes are dropped, the commas kept. *)
Lemma parse_escaped (v tail : list N) (values : list (list N)) :
  parseFrom (escapeString v ++ tail) values [] false
  = parseFrom tail values (List.filter (fun c => negb (isQuote c)) v) false.
Proof.
  unfold escapeString. destruct (needsQuoting v) eqn:Hv.
  - cbn [app]. rewrite <- app_assoc. cbn [app parseFrom].
    change (isQuote quote) with true. cbn [negb].
    apply parse_quoted.
  - pose proof (plain_when_unquoted v Hv) as Hplain.
    rewrite parse_plain by exact Hplain. rewrite filter_plain by exact Hplain.
    reflexivity.
Qed.

Lemma parse_joined (vs : list (list N)) : forall (v : list N) (values : list (list N)),
  parseFrom (joinCommas (map escapeString (v :: vs))) values [] false
  = values ++ map unquoted (v :: vs).
Proof.
  induction vs as [|w vs IH]; intros v values.
  - cbn [map joinCommas].
    rewrite <- (app_nil_r (escapeString v)). rewrite parse_escaped. reflexivity.
  - change (joinCommas (map escapeString (v :: w :: vs)))
      with (escapeString v ++ js "," ++ joinCommas (map escapeString (w :: vs))).
    rewrite parse_escaped.
    change (js "," ++ joinCommas (map escapeString (w :: vs)))
      with (N_of_ascii "," :: joinCommas (map escapeString (w :: vs))).
    cbn [parseFrom]. change (isQuote (N_of_ascii ",")) with false.
    change (isComma (N_of_ascii ",")) with true. cbn [andb negb].
    rewrite IH. rewrite <- app_assoc. reflexivity.
Qed.

Lemma escapeCSVValue_string (show : Q -> list N) (value : Value) :
  escapeCSVValue show value = escapeString (stringOf show value).
Proof. destruct value; reflexivity. Qed.

(** X2: a row written for at least one value reads back, with
    [parseCSVLine], as one field per value: the text of the value with
    its double quotes removed and its ends trimmed ([null] and
    [undefined] read back empty). Commas survive, quotes do not. *)
Theorem csv_row_reads_back (show : Q -> list N) (values : list Value)
    (Hvalues : values <> []) :
  parseCSVLine (row show values) = map (fun v => unquoted (stringOf show v)) values.
Proof.
  destruct values as [|v values]; [congruence|].
  unfold parseCSVLine, row.
  rewrite (map_ext _ _ (escapeCSVValue_string show)).
  rewrite <- (map_map (stringOf show) escapeString).
  change (map (stringOf show) (v :: values))
    with (stringOf show v :: map (stringOf show) values).
  rewrite parse_joined. cbn [app].
  rewrite <- (map_map (stringOf show) unquoted). reflexivity.
Qed.

(** Without values the row is empty, and an empty line reads as one empty
    field. *)
Example csv_empty_row_reads_one_field :
  parseCSVLine (row (fun _ => []) []) = [[]].
Proof. reflexivity. Qed.

End CsvFacts.

(** ** Saving to the database *)

Section StoreFacts.
Context `{Platform} {W : Type} `{Store.Database W}.
Import JS Store.

(** The three outcomes of [saveSingleBusinessToDB]. *)
Lemma saveSingleBusinessToDB_outcome (business : Business)
    (query querySlug : list N) (w : W) :
  exists (r : SaveResult) (w' : W),
    saveSingleBusinessToDB business query querySlug w = (Ok r, w')
    /\ (r = savedResult \/ r = duplicateResult \/ exists e : Error, r = errorResult (messageOf e)).
Proof.
  unfold saveSingleBusinessToDB, tryCatch.
  match goal with
  | |- context [match ?body w with _ => _ end] => destruct (body w) as [[r|e] w1] eqn:Hbody
  end.
  - exists r, w1. split; [reflexivity|].
    revert Hbody. unfold bind.
    destruct (if truthy (prop business "placeId") then _ else _) as [[[found|]|e] w2];
      try discriminate.
    + cbn. intros Hr. injection Hr as <- _. auto.
    + destruct (findOne _ w2) as [[[found|]|e] w3]; try discriminate.
      * cbn. intros Hr. injection Hr as <- _. auto.
      * unfold clock. destruct (newDate w3) as [scrapedAt w4].
        destruct (save _ w4) as [[[]|e] w5]; try discriminate.
        cbn. intros Hr. injection Hr as <- _. auto.
  - destruct (bool_decide (errorCode e = Some 11000%Z)).
    + exists duplicateResult, w1. split; [reflexivity|auto].
    + exists (errorResult (messageOf e)), w1. split; [reflexivity|eauto].
Qed.


(** X4: a business with a place id that the database already holds for
    the query is a duplicate: the one lookup by place id settles it, no
    second lookup is made and nothing is saved. *)
Theorem known_placeId_is_duplicate (business found : Business)
    (query querySlug : list N) (w w1 : W)
    (HplaceId : truthy (prop business "placeId") = true)
    (Hfound : findOne (ByPlaceId (prop business "placeId") querySlug) w = (Ok (Some found), w1)) :
  saveSingleBusinessToDB business query querySlug w = (Ok duplicateResult, w1).
Proof.
  unfold saveSingleBusinessToDB, tryCatch, bind. rewrite HplaceId, Hfound. reflexivity.
Qed.

(** A rejection with code 11000 counts as a duplicate, any other one as
    an error. *)
Lemma rejected_save_outcome (business : Business) (query querySlug : list N)
    (w w1 w2 : W) (scrapedAt : Q) (e : Error) :
  truthy (prop business "placeId") = false ->
  findOne (ByName (prop business "name") querySlug (or (prop business "placeId") JNull)) w
  = (Ok None, w1) ->
  newDate w1 = (scrapedAt, w2) ->
  save (document business query querySlug scrapedAt) w2 = (Throw e, w2) ->
  saveSingleBusinessToDB business query querySlug w
  = (Ok (if bool_decide (errorCode e = Some 11000%Z) then duplicateResult
         else errorResult (messageOf e)), w2).
Proof.
  intros Hp Hfind Hdate Hsave.
  unfold saveSingleBusinessToDB, tryCatch, bind, clock.
  rewrite Hp. cbn. rewrite Hfind, Hdate, Hsave.
  destruct (bool_decide (errorCode e = Some 11000%Z)); reflexivity.
Qed.


Lemma tally_counted (result : SaveResult) (c : Counters) :
  counted (tally result c) = S (counted c).
Proof.
  unfold tally, counted.
  destruct (saved result); [simpl; lia|].
  destruct (duplicate result); simpl; lia.
Qed.

Lemma onBusinessExtracted_counts (querySlug : list N) (business : Business)
    (query : list N) (s : W * Counters) :
  exists s' : W * Counters,
    onBusinessExtracted querySlug business query s = (Ok tt, s')
    /\ counted (snd s') = S (counted (snd s)).
Proof.
  unfold onBusinessExtracted, tryCatch, bind, liftW, update.
  destruct (saveSingleBusinessToDB_outcome business query querySlug (fst s))
    as (r & w' & -> & _).
  eexists. split; [reflexivity|]. cbn [fst snd]. apply tally_counted.
Qed.

(** X5: the sink of the scraping route never raises, and every call adds
    exactly one to exactly one of the three counters, so their sum counts
    the calls. *)
Theorem onBusinessExtracted_counts_once (querySlug : list N) (business : Business)
    (query : list N) (s : W * Counters) :
  exists s' : W * Counters,
    onBusinessExtracted querySlug business query s = (Ok tt, s')
    /\ counted (snd s') = S (counted (snd s))
    /\ (savedCount (snd s) <= savedCount (snd s'))%nat
    /\ (duplicateCount (snd s) <= duplicateCount (snd s'))%nat
    /\ (errorCount (snd s) <= errorCount (snd s'))%nat.
Proof.
  unfold onBusinessExtracted, tryCatch, bind, liftW, update.
  destruct (saveSingleBusinessToDB_outcome business query querySlug (fst s))
    as (r & w' & -> & _).
  eexists. split; [reflexivity|]. cbn [fst snd]. split; [apply tally_counted|].
  unfold tally. destruct (saved r); [cbn; lia|]. destruct (duplicate r); cbn; lia.
Qed.

(** X20: a save is reported only when the lookup by name found nothing
    (and the lookup by place id, if the business has one, found nothing
    before it) and the document built for the business was saved
    without a rejection. *)
Theorem saved_only_after_lookups (business : Business) (query querySlug : list N)
    (w w' : W) (r : SaveResult)
    (Hrun : saveSingleBusinessToDB business query querySlug w = (Ok r, w'))
    (Hsaved : saved r = true) :
  exists (w1 w2 w3 : W) (scrapedAt : Q),
    (if truthy (prop business "placeId")
     then findOne (ByPlaceId (prop business "placeId") querySlug) w = (Ok None, w1)
     else w1 = w)
    /\ findOne (ByName (prop business "name") querySlug (or (prop business "placeId") JNull)) w1
       = (Ok None, w2)
    /\ newDate w2 = (scrapedAt, w3)
    /\ save (document business query querySlug scrapedAt) w3 = (Ok tt, w').
Proof.
  revert Hrun. unfold saveSingleBusinessToDB, tryCatch.
  match goal with
  | |- context [match ?body w with _ => _ end] => destruct (body w) as [[r0|e] w0] eqn:Hbody
  end.
  - intros Hr. injection Hr as -> ->.
    revert Hbody. unfold bind, clock.
    destruct (truthy (prop business "placeId")).
    + destruct (findOne (ByPlaceId _ _) w) as [[[found|]|e] w1] eqn:H1; try discriminate.
      * cbn. intros Hr. injection Hr as <- _. discriminate Hsaved.
      * destruct (findOne (ByName _ _ _) w1) as [[[found|]|e] w2] eqn:H2; try discriminate.
        -- cbn. intros Hr. injection Hr as <- _. discriminate Hsaved.
        -- destruct (newDate w2) as [scrapedAt w3] eqn:H3.
           destruct (save _ w3) as [[[]|e] w4] eqn:H4; try discriminate.
           cbn. intros Hr. injection Hr as _ <-.
           exists w1, w2, w3, scrapedAt. auto.
    + cbn [ret].
      destruct (findOne (ByName _ _ _) w) as [[[found|]|e] w2] eqn:H2; try discriminate.
      * cbn. intros Hr. injection Hr as <- _. discriminate Hsaved.
      * destruct (newDate w2) as [scrapedAt w3] eqn:H3.
        destruct (save _ w3) as [[[]|e] w4] eqn:H4; try discriminate.
        cbn. intros Hr. injection Hr as _ <-.
        exists w, w2, w3, scrapedAt. auto.
  - destruct (bool_decide (errorCode e = Some 11000%Z));
      cbn; intros Hr; injection Hr as <- _; discriminate Hsaved.
Qed.

Lemma saveOne_counts (query querySlug : list N) (business : Business) (s : W * Counters) :
  exists s' : W * Counters,
    (let! result := liftW (saveSingleBusinessToDB business query querySlug) in
     update (tally result)) s = (Ok tt, s')
    /\ counted (snd s') = S (counted (snd s)).
Proof.
  unfold bind, liftW, update.
  destruct (saveSingleBusinessToDB_outcome business query querySlug (fst s))
    as (r & w' & -> & _).
  eexists. split; [reflexivity|]. cbn [fst snd]. apply tally_counted.
Qed.

Lemma saveEach_counts (query querySlug : list N) (businesses : list Business) :
  forall s : W * Counters,
  exists s' : W * Counters,
    saveEach query querySlug businesses s = (Ok tt, s')
    /\ counted (snd s') = (counted (snd s) + length businesses)%nat.
Proof.
  unfold saveEach.
  induction businesses as [|business businesses IH]; intros s.
  - exists s. split; [reflexivity|]. simpl. lia.
  - cbn [forEach]. unfold bind at 1. cbn beta.
    destruct (saveOne_counts query querySlug business s) as (s1 & -> & Hs1).
    destruct (IH s1) as (s' & -> & Hs').
    exists s'. split; [reflexivity|].
    rewrite Hs', Hs1. simpl. lia.
Qed.

(** X6: [saveBusinessesToDB] rejects an empty query before it touches
    the database; when it returns, its statistics add up: saved,
    duplicates and errors together are the number of businesses given. *)
Theorem saveBusinessesToDB_statistics (businesses : list Business) (query : list N) (w : W) :
  (query = [] -> saveBusinessesToDB businesses query w = (Throw queryRequired, w))
  /\ (forall (stats : Stats) (w' : W),
        saveBusinessesToDB businesses query w = (Ok stats, w') ->
        total stats = length businesses
        /\ (statSaved stats + statDuplicates stats + statErrors stats)%nat = total stats
        /\ statQuerySlug stats = Csv.createQuerySlug query).
Proof.
  split.
  - intros ->. reflexivity.
  - intros stats w'. unfold saveBusinessesToDB.
    destruct query as [|c query]; [discriminate|].
    set (q := c :: query).
    unfold bind at 1.
    destruct (findQuery (Csv.createQuerySlug q) w) as [[found|e] w1]; [|discriminate].
    unfold bind at 1.
    match goal with
    | |- context [match ?m w1 with _ => _ end] => destruct (m w1) as [[queryRecord|e] w2]
    end; [|discriminate].
    unfold bind at 1. unfold counting.
    destruct (saveEach_counts q (Csv.createQuerySlug q) businesses (w2, noCounts))
      as (s' & -> & Hs').
    unfold bind at 1.
    destruct (countDocuments (Csv.createQuerySlug q) (fst s')) as [[totalForQuery|e] w3];
      [|discriminate].
    unfold bind at 1.
    destruct (saveQuery _ w3) as [[[]|e] w4]; [|discriminate].
    intros Hstats. injection Hstats as <- _. cbn.
    split; [reflexivity|]. split; [|reflexivity].
    unfold counted in Hs'. simpl in Hs'. lia.
Qed.

End StoreFacts.

(** ** What the scraper leaves alone *)

Section Frames.
Context {S : Type}.

Lemma keeps_ret {A} (I : S -> Prop) (a : A) : keeps I (ret a).
Proof. intros s Hs. exact Hs. Qed.

Lemma keeps_throw {A} (I : S -> Prop) (e : Error) : keeps I (@throw S A e).
Proof. intros s Hs. exact Hs. Qed.

Lemma keeps_liftRes {A} (I : S -> Prop) (r : Res A) : keeps I (liftRes r).
Proof. intros s Hs. apply wp_liftRes. destruct r; exact Hs. Qed.

Lemma keeps_bind {A B} (I : S -> Prop) (m : M S A) (k : A -> M S B) :
  keeps I m -> (forall a, keeps I (k a)) -> keeps I (bind m k).
Proof.
  intros Hm Hk s Hs. apply wp_bind.
  apply wp_mono with (Q := fun _ s' => I s') (E := fun _ s' => I s'); [apply Hm; exact Hs| |auto].
  intros a s' Hs'. apply Hk. exact Hs'.
Qed.

Lemma keeps_tryCatch {A} (I : S -> Prop) (body : M S A) (handler : Error -> M S A) :
  keeps I body -> (forall e, keeps I (handler e)) -> keeps I (tryCatch body handler).
Proof.
  intros Hbody Hhandler s Hs. apply wp_tryCatch.
  apply wp_mono with (Q := fun _ s' => I s') (E := fun _ s' => I s'); [apply Hbody; exact Hs|auto|].
  intros e s' Hs'. apply Hhandler. exact Hs'.
Qed.

Lemma keeps_attempt {A} (I : S -> Prop) (body : M S A) : keeps I body -> keeps I (attempt body).
Proof.
  intros Hbody. unfold attempt. apply keeps_tryCatch.
  - apply keeps_bind; [exact Hbody|intros; apply keeps_ret].
  - intros; apply keeps_ret.
Qed.

Lemma keeps_tryFinally {A} (I : S -> Prop) (body : M S A) (cleanup : M S unit) :
  keeps I body -> keeps I cleanup -> keeps I (tryFinally body cleanup).
Proof.
  intros Hbody Hcleanup s Hs. apply wp_tryFinally.
  apply wp_mono with (Q := fun _ s' => I s') (E := fun _ s' => I s'); [apply Hbody; exact Hs| |];
    intros ? s' Hs'; apply Hcleanup; exact Hs'.
Qed.

Lemma keeps_forEach {A} (I : S -> Prop) (body : A -> M S unit) (xs : list A) :
  (forall x, keeps I (body x)) -> keeps I (forEach body xs).
Proof.
  intros Hbody. induction xs as [|x xs IH]; simpl.
  - apply keeps_ret.
  - apply keeps_bind; [apply Hbody|intros; exact IH].
Qed.

End Frames.

Section BrowserFrames.
Context `{Platform} {W : Type} `{Browser W}.
Variable I : W -> Prop.
Hypothesis Hops : browserKeeps I.

Lemma keeps_perform (a : Action) : keeps I (perform a).
Proof. apply Hops. Qed.

Lemma keeps_mathRandom : keeps I mathRandom.
Proof.
  intros w Hw. unfold wp, mathRandom.
  destruct Hops as (_ & Hrandom & _). specialize (Hrandom w Hw).
  destruct (random w) as [r w']. exact Hrandom.
Qed.

Lemma keeps_pageUrl : keeps I pageUrl.
Proof. apply Hops. Qed.
Lemma keeps_showMoreButton : keeps I showMoreButton.
Proof. apply Hops. Qed.
Lemma keeps_selectorCounts : keeps I selectorCounts.
Proof. apply Hops. Qed.
Lemma keeps_articles : keeps I articles.
Proof. apply Hops. Qed.
Lemma keeps_cards : keeps I cards.
Proof. apply Hops. Qed.
Lemma keeps_pageTitle : keeps I pageTitle.
Proof. apply Hops. Qed.
Lemma keeps_detailDom : keeps I detailDom.
Proof. apply Hops. Qed.

Ltac browser_steps :=
  repeat first
    [ apply keeps_ret
    | apply keeps_throw
    | apply keeps_liftRes
    | apply keeps_perform
    | apply keeps_mathRandom
    | apply keeps_pageUrl
    | apply keeps_showMoreButton
    | apply keeps_selectorCounts
    | apply keeps_articles
    | apply keeps_cards
    | apply keeps_pageTitle
    | apply keeps_detailDom
    | apply keeps_attempt
    | apply keeps_bind; [|intros ?]
    | apply keeps_tryCatch; [|intros ?]
    | match goal with
      | |- keeps _ (if ?b then _ else _) => destruct b
      | |- keeps _ (match ?x with Some _ => _ | None => _ end) => destruct x
      end ].

(** What every operation of the browser keeps, the detail navigator
    keeps. *)
Lemma keeps_extractBusinessDetails (business : Business) :
  keeps I (extractBusinessDetails business).
Proof. unfold extractBusinessDetails, afterNavigation, recover. browser_steps. Qed.

Lemma keeps_nudge (scrollAttempts : nat) : keeps I (nudge scrollAttempts).
Proof. unfold nudge. browser_steps. Qed.

Lemma keeps_scrollPage (budget : nat) : forall st : Scroll.State, keeps I (scrollPage budget st).
Proof.
  induction budget as [|budget IH]; intros st; cbn [scrollPage].
  - apply keeps_ret.
  - destruct (Scroll.scrollAttempts st <? Scroll.maxScrollAttempts)%nat; [|apply keeps_ret].
    apply keeps_bind; [apply keeps_selectorCounts|]. intros lengths.
    destruct (Scroll.iteration st (Scroll.countResults lengths)) as [st'|st'].
    + apply keeps_ret.
    + apply keeps_bind; [apply keeps_nudge|intros; apply IH].
Qed.

Lemma keeps_setupFingerprintAvoidance : keeps I setupFingerprintAvoidance.
Proof. unfold setupFingerprintAvoidance. browser_steps. Qed.

End BrowserFrames.

Lemma wp_and {S A} (m : M S A) (Q1 Q2 : A -> S -> Prop) (E1 E2 : Error -> S -> Prop) (s : S) :
  wp m Q1 E1 s -> wp m Q2 E2 s ->
  wp m (fun a s' => Q1 a s' /\ Q2 a s') (fun e s' => E1 e s' /\ E2 e s') s.
Proof. unfold wp. destruct (m s) as [[a|e] s']; auto. Qed.

Lemma keeps_liftW {W L A} (I : W -> Prop) (l : L) (m : M W A) :
  keeps I m -> keeps (fun s : W * L => I (fst s) /\ snd s = l) (liftW m).
Proof.
  intros Hm s [Hs Hl]. apply wp_liftW.
  apply wp_mono with (Q := fun _ w' => I w') (E := fun _ w' => I w'); [apply Hm; exact Hs| |];
    intros ? w' Hw'; split; assumption.
Qed.

(** ** The sink and the returned list *)

Section SinkFacts.
Context `{Platform} {W : Type} `{Browser W}.
Variable count : W -> nat.
Variable sink : Sink W.
Hypothesis Hbrowser : forall n : nat, browserKeeps (fun w => count w = n).
Hypothesis Hsink : forall (b : Business) (q : list N) (w : W),
  exists w' : W, sink b q w = (Ok tt, w') /\ count w' = S (count w).

Lemma wp_bind_keeps {A B} (I : W -> Prop) (m : M W A) (k : A -> M W B)
    (Q : B -> W -> Prop) (w : W) :
  keeps I m -> I w -> (forall a w', I w' -> wp (k a) Q (fun _ _ => True) w') ->
  wp (bind m k) Q (fun _ _ => True) w.
Proof.
  intros Hm Hw Hk. apply wp_bind.
  apply wp_mono with (Q := fun _ w' => I w') (E := fun _ w' => I w'); [apply Hm; exact Hw| |auto].
  intros a w' Hw'. apply Hk. exact Hw'.
Qed.

(** The catch of the loop body, entered where the sink has been called
    once for every record of the list. *)
Lemma handler_counts (n0 : nat) (query : list N) (business : Business)
    (s : W * list Business) :
  count (fst s) = (n0 + length (snd s))%nat ->
  wp (run! push business in liftW (callSink (Some sink) business query))
     (fun _ s' => count (fst s') = (n0 + length (snd s'))%nat) (fun _ _ => True) s.
Proof.
  intros Hs. apply wp_bind. apply wp_push. apply wp_liftW. cbn [fst snd callSink].
  unfold wp. destruct (Hsink business query (fst s)) as (w' & -> & Hw').
  cbn [fst snd]. rewrite Hw', Hs, length_app. simpl. lia.
Qed.

Lemma processBusiness_counts (n0 : nat) (query : list N) (business : Business)
    (s : W * list Business) :
  count (fst s) = (n0 + length (snd s))%nat ->
  wp (processBusiness (Some sink) query business)
     (fun _ s' => count (fst s') = (n0 + length (snd s'))%nat) (fun _ _ => True) s.
Proof.
  intros Hs. unfold processBusiness. apply wp_tryCatch.
  apply wp_bind. apply wp_liftW.
  apply wp_mono
    with (Q := fun (_ : Business) w' => count w' = count (fst s) /\ True)
         (E := fun (_ : Error) w' => count w' = count (fst s) /\ False).
  - apply wp_and.
    + apply (keeps_extractBusinessDetails _ (Hbrowser (count (fst s)))). reflexivity.
    + apply extractBusinessDetails_outcome; auto.
  - intros r w1 [Hw1 _].
    apply wp_bind. apply wp_push. cbn [fst snd].
    apply wp_bind. apply wp_liftW. cbn [fst snd callSink].
    unfold wp at 1. destruct (Hsink r query w1) as (w2 & -> & Hw2).
    set (l1 := snd s ++ [r]).
    assert (Hcount : count w2 = (n0 + length l1)%nat).
    { rewrite Hw2, Hw1, Hs. unfold l1. rewrite length_app. simpl. lia. }
    apply wp_mono
      with (Q := fun _ s' => count (fst s') = (n0 + length l1)%nat /\ snd s' = l1)
           (E := fun _ s' => count (fst s') = (n0 + length l1)%nat /\ snd s' = l1).
    + assert (Htail : keeps (fun s' : W * list Business =>
                               count (fst s') = (n0 + length l1)%nat /\ snd s' = l1)
                        (run! liftW (perform (WaitForTimeout 2000)) in
                         attempt (let! found := liftW articles in
                                  if negb (0 <? found)%nat
                                  then liftW (perform (WaitForTimeout 2000))
                                  else ret tt))).
      { pose proof (Hbrowser (n0 + length l1)%nat) as Hn1.
        apply keeps_bind.
        - apply (keeps_liftW (fun w => count w = (n0 + length l1)%nat) l1). apply Hn1.
        - intros _. apply keeps_attempt. apply keeps_bind.
          + apply (keeps_liftW (fun w => count w = (n0 + length l1)%nat) l1). apply Hn1.
          + intros found. destruct (negb (0 <? found)%nat).
            * apply (keeps_liftW (fun w => count w = (n0 + length l1)%nat) l1). apply Hn1.
            * apply keeps_ret. }
      apply Htail. split; [exact Hcount|reflexivity].
    + intros _ s' [Hc Hl]. rewrite Hl. exact Hc.
    + intros e s' [Hc Hl]. cbn beta. apply handler_counts. rewrite Hl. exact Hc.
  - intros e w1 [_ []].
Qed.

Lemma scrapeGoogleMaps_counts (query : list N) (w w' : W) (rs : list Business) :
  scrapeGoogleMaps query (Some sink) w = (Ok rs, w') ->
  count w' = (count w + length rs)%nat.
Proof.
  intros Hrun.
  assert (Hwp : wp (scrapeGoogleMaps query (Some sink))
                  (fun rs w' => count w' = (count w + length rs)%nat) (fun _ _ => True) w).
  { set (n0 := count w).
    pose proof (Hbrowser n0) as Hn0.
    unfold scrapeGoogleMaps. apply wp_tryCatch.
    apply wp_mono with (Q := fun rs w' => count w' = (n0 + length rs)%nat)
                       (E := fun _ _ => True); [|auto|intros; apply wp_throw; exact I].
    apply (wp_bind_keeps (fun w => count w = n0)); [apply Hn0|reflexivity|].
    intros _ w1 Hw1. apply wp_tryFinally.
    apply wp_mono with (Q := fun rs w' => count w' = (n0 + length rs)%nat)
                       (E := fun _ _ => True).
    - unfold scrapePage.
      apply (wp_bind_keeps (fun w => count w = n0)); [apply Hn0|exact Hw1|].
      intros _ w2 Hw2.
      apply (wp_bind_keeps (fun w => count w = n0));
        [apply keeps_setupFingerprintAvoidance; exact Hn0|exact Hw2|].
      intros _ w3 Hw3.
      apply (wp_bind_keeps (fun w => count w = n0)); [apply Hn0|exact Hw3|].
      intros _ w4 Hw4.
      apply (wp_bind_keeps (fun w => count w = n0));
        [apply keeps_mathRandom; exact Hn0|exact Hw4|].
      intros r w5 Hw5.
      apply (wp_bind_keeps (fun w => count w = n0)); [apply Hn0|exact Hw5|].
      intros _ w6 Hw6.
      apply (wp_bind_keeps (fun w => count w = n0)); [apply Hn0|exact Hw6|].
      intros _ w7 Hw7.
      apply (wp_bind_keeps (fun w => count w = n0));
        [apply keeps_attempt; apply Hn0|exact Hw7|].
      intros _ w8 Hw8.
      apply (wp_bind_keeps (fun w => count w = n0)); [apply Hn0|exact Hw8|].
      intros _ w9 Hw9.
      apply (wp_bind_keeps (fun w => count w = n0)); [|exact Hw9|].
      { apply keeps_attempt. apply keeps_bind; [apply Hn0|].
        intros found. destruct found; [|apply keeps_ret].
        apply keeps_bind; [apply Hn0|intros; apply Hn0]. }
      intros _ w10 Hw10.
      apply (wp_bind_keeps (fun w => count w = n0));
        [apply keeps_scrollPage; exact Hn0|exact Hw10|].
      intros _ w11 Hw11.
      apply (wp_bind_keeps (fun w => count w = n0)); [apply Hn0|exact Hw11|].
      intros _ w12 Hw12.
      apply (wp_bind_keeps (fun w => count w = n0)); [apply Hn0|exact Hw12|].
      intros elements w13 Hw13.
      unfold processResults. apply wp_collecting.
      apply wp_mono
        with (Q := fun _ s' => count (fst s') = (n0 + length (snd s'))%nat)
             (E := fun _ _ => True); [|auto|auto].
      apply wp_forEach
        with (I := fun s' : W * list Business => count (fst s') = (n0 + length (snd s'))%nat).
      + intros business s _ Hs. apply processBusiness_counts. exact Hs.
      + simpl. lia.
    - intros rs0 w2 Hw2.
      apply wp_mono with (Q := fun _ w' => count w' = (n0 + length rs0)%nat)
                         (E := fun _ w' => count w' = (n0 + length rs0)%nat);
        [apply (Hbrowser (n0 + length rs0)%nat); exact Hw2|auto|auto].
    - intros e w2 _. apply wp_any; auto. }
  unfold wp in Hwp. rewrite Hrun in Hwp. exact Hwp.
Qed.


End SinkFacts.

(** ** The scraping route *)

Section RouteFacts.
Context `{Platform} {W : Type} `{Store.Database W} `{Browser (W * Store.Counters)}.

(** X21: in the scraping route, whose sink saves each record and whose
    page cannot reach the counters, the counters have grown by exactly
    the number of records [scrapeGoogleMaps] returned: saved, duplicates
    and errors together account for every record of the response. *)
Theorem route_counts_every_record (query querySlug : list N) (s s' : W * Store.Counters)
    (rs : list Business)
    (Hpage : forall n : nat,
        browserKeeps (fun s : W * Store.Counters => Store.counted (snd s) = n))
    (Hrun : scrapeGoogleMaps query (Some (Store.onBusinessExtracted querySlug)) s = (Ok rs, s')) :
  Store.counted (snd s') = (Store.counted (snd s) + length rs)%nat.
Proof.
  exact (scrapeGoogleMaps_counts (fun s : W * Store.Counters => Store.counted (snd s))
           (Store.onBusinessExtracted querySlug) Hpage
           (fun b q s => onBusinessExtracted_counts querySlug b q s)
           query s s' rs Hrun).
Qed.

End RouteFacts.

(** ** Summary records and what becomes of them *)

Section RecordFacts.
Context `{Platform} {W : Type} `{Browser W}.
Import JS.
#[local] Set Warnings "-clear-no-such-hyp".

Lemma extractFrom_summaryRecords (elements : list Summary.Card) : forall index : nat,
  Forall summaryRecord (Summary.extractFrom index elements).
Proof.
  induction elements as [|element elements IH]; intros index; simpl.
  - constructor.
  - destruct (Summary.extractCard index element) as [b|] eqn:Hb; [|apply IH].
    constructor; [exists index, element; exact Hb|apply IH].
Qed.

Lemma placeUrl_absolute (placeUrl : option (list N)) :
  absoluteOrNull
    match placeUrl with
    | Some u =>
        if nonEmpty placeUrl then
          if startsWith (js "http") u then JStr u
          else JStr (js "https://www.google.com" ++ u)
        else JNull
    | None => JNull
    end.
Proof.
  destruct placeUrl as [u|]; [|left; reflexivity].
  destruct (nonEmpty (Some u)); [|left; reflexivity].
  destruct (startsWith (js "http") u) eqn:Hhttp.
  - right. exists u. split; [reflexivity|exact Hhttp].
  - right. eexists. split; [reflexivity|]. reflexivity.
Qed.

Lemma extractCard_shape (index : nat) (element : Summary.Card) (b : Business) :
  Summary.extractCard index element = Some b ->
  (nonEmptyString (prop b "name") /\ prop b "name" <> JStr (Summary.fallbackName index))
  /\ dom b = list_to_set summaryKeys
  /\ absoluteOrNull (prop b "placeUrl").
Proof.
  unfold Summary.extractCard.
  destruct (orElse (trim <$> Summary.nameText element) _) as [n|] eqn:Hn; [|discriminate].
  destruct (nonEmpty (Some n)) eqn:Hne; cbn [andb]; [|discriminate].
  destruct (bool_decide (n = Summary.fallbackName index)) eqn:Hfb; cbn [negb]; [discriminate|].
  intros Hb. injection Hb as <-.
  split; [|split].
  - unfold prop. rewrite lookup_insert_eq. cbn [default]. split.
    + exists n. split; [reflexivity|]. intros ->. discriminate Hne.
    + apply bool_decide_eq_false in Hfb. intros Heq. apply Hfb. injection Heq as ->. reflexivity.
  - rewrite !dom_insert_L, dom_empty_L. unfold summaryKeys. set_solver.
  - assert (Hurl : forall (rating reviewCount address phone website placeId v : Value),
              absoluteOrNull v ->
              absoluteOrNull (prop (<["name" := JStr n]> (<["rating" := rating]>
                (<["reviewCount" := reviewCount]> (<["address" := address]>
                (<["phone" := phone]> (<["website" := website]> (<["placeId" := placeId]>
                (<["placeUrl" := v]> ∅)))))))) "placeUrl")).
    { intros rating reviewCount address phone website placeId v Hv. unfold prop.
      rewrite !lookup_insert_ne by discriminate. rewrite lookup_insert_eq. exact Hv. }
    apply Hurl. apply (placeUrl_absolute (orElse (Summary.placeHref element) None)).
Qed.

(** X8: a record the card extraction pushes has a non-empty name that is
    not the positional fallback of its card, exactly the eight summary
    properties, and a [placeUrl] that is [null] or starts with [http]. *)
Theorem summary_record_shape (index : nat) (element : Summary.Card) (b : Business)
    (Hb : Summary.extractCard index element = Some b) :
  nonEmptyString (prop b "name")
  /\ prop b "name" <> JStr (Summary.fallbackName index)
  /\ dom b = list_to_set summaryKeys
  /\ absoluteOrNull (prop b "placeUrl").
Proof.
  destruct (extractCard_shape index element b Hb) as ((Hname & Hfallback) & Hdom & Hurl).
  auto.
Qed.

(** The merge writes six properties and leaves the rest. *)
Lemma enhance_dom (business r : Business) (info : Detail.Details) :
  Detail.enhance business info = Ok r ->
  dom r = list_to_set ["phone"; "website"; "address"; "hours"; "category"; "description"]%string
          ∪ dom business.
Proof.
  unfold Detail.enhance.
  destruct (Detail.finalWebsite business info) as [website|e]; [|discriminate].
  intros Hr. injection Hr as <-.
  rewrite !dom_insert_L. set_solver.
Qed.

(** What the shape of a summary becomes under [enriches]. *)
Lemma enriches_shape (r b : Business) :
  summaryRecord b -> enriches r b ->
  nonEmptyString (prop r "name")
  /\ absoluteOrNull (prop r "placeUrl")
  /\ list_to_set summaryKeys ⊆ dom r
  /\ dom r ⊆ list_to_set (summaryKeys ++ detailKeys).
Proof.
  intros (index & element & Hb) Hr.
  destruct (extractCard_shape index element b Hb) as ((Hname & _) & Hdom & Hurl).
  destruct Hr as [-> | (info & Hr)].
  - rewrite Hdom. unfold summaryKeys, detailKeys.
    split; [exact Hname|]. split; [exact Hurl|]. split; set_solver.
  - destruct (enhance_identity b r info Hr) as (Hn & _ & _ & _ & Hu).
    unfold prop in *. rewrite Hn, Hu.
    split; [exact Hname|]. split; [exact Hurl|].
    rewrite (enhance_dom b r info Hr), Hdom. unfold summaryKeys, detailKeys.
    split; set_solver.
Qed.

(** One pass of the per-record loop pushes the business, or what the
    merge made of it. *)
Lemma processBusiness_pushes (P : Business -> Prop) (sink : option (Sink W))
    (query : list N) (business : Business) (s : W * list Business) :
  (forall r : Business, enriches r business -> P r) ->
  Forall P (snd s) ->
  wp (processBusiness sink query business) (fun _ s' => Forall P (snd s')) (fun _ _ => True) s.
Proof.
  intros Hbusiness Hs.
  unfold processBusiness. apply wp_tryCatch.
  apply wp_mono with (Q := fun _ s' => Forall P (snd s')) (E := fun _ s' => Forall P (snd s')).
  - assert (Hrest : forall (r : Business) (w' : W),
               P r ->
               wp (run! push r in
                   run! liftW (callSink sink r query) in
                   run! liftW (perform (WaitForTimeout 2000)) in
                   attempt (let! found := liftW articles in
                            if negb (0 <? found)%nat
                            then liftW (perform (WaitForTimeout 2000))
                            else ret tt))
                  (fun _ s' => Forall P (snd s')) (fun _ s' => Forall P (snd s')) (w', snd s)).
    { intros r w' Hr.
      assert (Hpushed : Forall P (snd s ++ [r])).
      { apply Forall_app. split; [exact Hs|]. constructor; [exact Hr|constructor]. }
      apply wp_bind. apply wp_push. cbn [fst snd].
      apply wp_bind. apply wp_liftW_any; [|intros; exact Hpushed]. intros _ w1. cbn [snd].
      apply wp_bind. apply wp_liftW_any; [|intros; exact Hpushed]. intros _ w2. cbn [snd].
      apply wp_attempt.
      apply wp_bind. apply wp_liftW_any; [|intros; exact Hpushed]. intros found w3. cbn [snd].
      destruct (negb (0 <? found)%nat).
      - apply wp_liftW_any; intros; exact Hpushed.
      - apply wp_ret. exact Hpushed. }
    apply wp_bind. apply wp_liftW.
    apply extractBusinessDetails_outcome.
    + intros w'. apply Hrest. apply Hbusiness. left. reflexivity.
    + intros info r w' Hr. apply Hrest. apply Hbusiness. right. exists info. exact Hr.
  - auto.
  - intros e s' Hs'. cbn beta.
    apply wp_bind. apply wp_push.
    apply wp_liftW_any; [|auto]. intros _ w'. cbn [fst snd].
    apply Forall_app. split; [exact Hs'|]. constructor; [|constructor].
    apply Hbusiness. left. reflexivity.
Qed.

(** Every record [scrapeGoogleMaps] returns is a summary record of some
    card, or what the merge made of one. *)
Lemma scrapeGoogleMaps_pushes (query : list N) (sink : option (Sink W)) (w : W) :
  wp (scrapeGoogleMaps query sink)
     (fun rs _ => Forall (fun r => exists b, summaryRecord b /\ enriches r b) rs)
     (fun _ _ => True) w.
Proof.
  set (P := fun r : Business => exists b, summaryRecord b /\ enriches r b).
  unfold scrapeGoogleMaps. apply wp_tryCatch.
  apply wp_mono with (Q := fun rs _ => Forall P rs) (E := fun _ _ => True);
    [|auto|intros; apply wp_throw; exact I].
  apply wp_bind. apply wp_any; [|auto]. intros _ w1.
  apply wp_tryFinally.
  apply wp_mono with (Q := fun rs _ => Forall P rs) (E := fun _ _ => True);
    [|intros rs s' Hrs; apply wp_any; auto|intros e s' _; apply wp_any; auto].
  unfold scrapePage.
  repeat (apply wp_bind; apply wp_any; [|auto]; intros ? ?).
  unfold processResults. apply wp_collecting.
  apply wp_mono with (Q := fun _ s' => Forall P (snd s')) (E := fun _ _ => True); [|auto|auto].
  apply wp_forEach with (I := fun s' => Forall P (snd s')).
  - intros business s Hin Hs. apply processBusiness_pushes; [|exact Hs].
    intros r Hr. exists business. split; [|exact Hr].
    unfold Summary.uniqueResults in Hin. apply filterIndexed_subset in Hin.
    exact (proj1 (Forall_forall _ _) (extractFrom_summaryRecords _ _) _ Hin).
  - constructor.
Qed.

(** X9: every record [scrapeGoogleMaps] returns has a non-empty string
    for a name, a [placeUrl] that is [null] or starts with [http], all
    eight summary properties, and besides them at most [hours],
    [category] and [description]. *)
Theorem returned_records_shape (query : list N) (sink : option (Sink W)) (w w' : W)
    (rs : list Business) (Hrun : scrapeGoogleMaps query sink w = (Ok rs, w')) :
  Forall (fun r => nonEmptyString (prop r "name")
                   /\ absoluteOrNull (prop r "placeUrl")
                   /\ list_to_set summaryKeys ⊆ dom r
                   /\ dom r ⊆ list_to_set (summaryKeys ++ detailKeys)) rs.
Proof.
  pose proof (scrapeGoogleMaps_pushes query sink w) as Hwp.
  unfold wp in Hwp. rewrite Hrun in Hwp.
  eapply Forall_impl; [exact Hwp|].
  intros r (b & Hb & Hr). exact (enriches_shape r b Hb Hr).
Qed.

(** What [unlessMapsLink] lets through is what it was given. *)
Lemma unlessMapsLink_truthy (v v' : Value) :
  Detail.unlessMapsLink v = Ok v' -> truthy v' = true ->
  v' = v /\ Detail.isMapsLink v' = Ok false.
Proof.
  unfold Detail.unlessMapsLink, Detail.isMapsLink.
  destruct (truthy v) eqn:Hv; [|intros Hx; injection Hx as <-; discriminate].
  destruct (Detail.valueIncludes v "google.com/maps") as [[|]|e] eqn:H1; try discriminate.
  { intros Hx; injection Hx as <-; discriminate. }
  destruct (Detail.valueIncludes v "maps.google.com") as [[|]|e] eqn:H2; try discriminate.
  { intros Hx; injection Hx as <-; discriminate. }
  intros Hx _. injection Hx as <-. rewrite Hv, H1, H2. auto.
Qed.

(** The summary website survives [unlessMapsLink] unless it points into
    Google Maps. *)
Lemma unlessMapsLink_original (v v' : Value) :
  Detail.unlessMapsLink v = Ok v' ->
  truthy v = false \/ ~ notMapsLink v \/ v' = v.
Proof.
  unfold Detail.unlessMapsLink.
  destruct (truthy v) eqn:Hv; [|auto].
  destruct v as [| |q|s]; try discriminate.
  cbn [Detail.valueIncludes notMapsLink].
  destruct (includes (js "google.com/maps") s) eqn:H1.
  { intros _. right. left. intros [Hx _]. discriminate Hx. }
  destruct (includes (js "maps.google.com") s) eqn:H2.
  { intros _. right. left. intros [_ Hx]. discriminate Hx. }
  intros Hx. injection Hx as <-. auto.
Qed.

(** The merge keeps a phone and an address the summary had, and its
    website unless that points into Google Maps. *)
Lemma enhance_retains (business r : Business) (info : Detail.Details) :
  Detail.enhance business info = Ok r ->
  retains "phone" r business
  /\ retains "address" r business
  /\ (~ notMapsLink (prop business "website") \/ retains "website" r business).
Proof.
  unfold Detail.enhance.
  destruct (Detail.finalWebsite business info) as [website|e] eqn:Hw; [|discriminate].
  intros Hr. injection Hr as <-.
  split; [|split].
  - unfold retains.
    destruct (truthy (prop business "phone")) eqn:Hp; [right|left; reflexivity].
    unfold prop at 1. rewrite !lookup_insert_ne by discriminate. rewrite lookup_insert_eq.
    cbn [default]. unfold Detail.finalPhone.
    destruct (truthy (ofDom (Detail.phone info))) eqn:Hd; [exact Hd|].
    rewrite Hp. exact Hp.
  - unfold retains.
    destruct (truthy (prop business "address")) eqn:Ha; [right|left; reflexivity].
    unfold prop at 1. rewrite !lookup_insert_ne by discriminate. rewrite lookup_insert_eq.
    cbn [default]. unfold or.
    destruct (truthy (ofDom (Detail.address info))) eqn:Hd; [exact Hd|exact Ha].
  - unfold retains.
    destruct (truthy (prop business "website")) eqn:Hb; [|right; left; reflexivity].
    revert Hw. unfold Detail.finalWebsite.
    destruct (Detail.unlessMapsLink (ofDom (Detail.website info))) as [dw|e] eqn:Hdw;
      [|discriminate].
    destruct (Detail.unlessMapsLink (prop business "website")) as [ow|e] eqn:How;
      [|discriminate].
    destruct (unlessMapsLink_original _ _ How) as [Hx | [Hx | ->]];
      [congruence|left; exact Hx|].
    rewrite Hb.
    assert (Hfinal : exists final : Value,
               (if truthy dw && true then dw else if truthy dw then dw
                else prop business "website") = final
               /\ truthy final = true /\ Detail.isMapsLink final = Ok false).
    { destruct (truthy dw) eqn:Hd; cbn [andb].
      - exists dw. split; [reflexivity|]. split; [exact Hd|].
        apply (unlessMapsLink_truthy _ _ Hdw Hd).
      - exists (prop business "website"). split; [reflexivity|]. split; [exact Hb|].
        apply (unlessMapsLink_truthy _ _ How Hb). }
    destruct Hfinal as (final & -> & Htruthy & ->).
    intros Hx. injection Hx as <-. right. right.
    unfold prop at 1. rewrite !lookup_insert_ne by discriminate. rewrite lookup_insert_eq.
    exact Htruthy.
Qed.

(** X10: whatever the page does, the record [extractBusinessDetails]
    returns still has a phone and an address if the one it was given
    had them, and still has a website if the one it was given had one
    that does not point into Google Maps. *)
Theorem enrich_never_drops_contact (business : Business) (w : W) :
  exists (r : Business) (w' : W),
    extractBusinessDetails business w = (Ok r, w')
    /\ retains "phone" r business
    /\ retains "address" r business
    /\ (~ notMapsLink (prop business "website") \/ retains "website" r business).
Proof.
  assert (Hsame : retains "phone" business business
                  /\ retains "address" business business
                  /\ (~ notMapsLink (prop business "website")
                      \/ retains "website" business business)).
  { unfold retains.
    split; [|split; [|right]];
      match goal with |- _ \/ truthy ?v = true => destruct (truthy v); auto end. }
  pose proof (extractBusinessDetails_outcome business
                (fun r _ => retains "phone" r business
                            /\ retains "address" r business
                            /\ (~ notMapsLink (prop business "website")
                                \/ retains "website" r business))
                (fun _ _ => False) w
                (fun _ => Hsame)
                (fun info r _ Hr => enhance_retains business r info Hr)) as Hwp.
  unfold wp in Hwp.
  destruct (extractBusinessDetails business w) as [[r|e] w']; [eauto|contradiction].
Qed.

(** X11: once the browser is launched it is closed, whatever the scrape
    did: the state [scrapeGoogleMaps] ends in is the one [browser.close]
    leaves, and a failing close replaces the outcome of the scrape;
    when the launch itself fails nothing is closed. *)
Theorem browser_closed_after_launch (query : list N) (sink : option (Sink W)) (w : W) :
  match perform Launch w with
  | (Throw e, w1) => scrapeGoogleMaps query sink w = (Throw e, w1)
  | (Ok _, w1) =>
      exists w2 : W,
        snd (scrapePage query sink w1) = w2
        /\ snd (scrapeGoogleMaps query sink w) = snd (perform CloseBrowser w2)
        /\ fst (scrapeGoogleMaps query sink w)
           = match fst (perform CloseBrowser w2) with
             | Ok _ => fst (scrapePage query sink w1)
             | Throw e => Throw e
             end
  end.
Proof.
  unfold scrapeGoogleMaps, tryCatch, bind, tryFinally, throw.
  destruct (perform Launch w) as [[[]|e] w1]; [|reflexivity].
  destruct (scrapePage query sink w1) as [[rs|e] w2]; cbn [fst snd];
    exists w2; (split; [reflexivity|]);
    destruct (perform CloseBrowser w2) as [[[]|e'] w3]; cbn; auto.
Qed.

End RecordFacts.

(** ** When the scroll loop stops *)

Section StabilityFacts.
Import Scroll.

(** What the loop remembers of the counts it has consumed: the last of
    them (or the initial 0), how many there were, and whether the last
    check repeated the one before. *)
Lemma scrollLoop_stable (counts : list nat) : forall (st : State) (consumed : list nat),
  last (0%nat :: consumed) = Some (previousCount st) ->
  scrollAttempts st = length consumed ->
  (noChangeCount st = 0%nat
   \/ noChangeCount st = 1%nat
      /\ exists pre, consumed = pre ++ [previousCount st]
                     /\ last (0%nat :: pre) = Some (previousCount st)) ->
  forall (st' : State) (unused : list nat),
  scrollLoop counts st = Stable st' unused ->
  exists (pre : list nat) (c : nat),
    consumed ++ counts = pre ++ c :: c :: unused
    /\ last (0%nat :: pre) = Some c
    /\ currentCount st' = c
    /\ noChangeCount st' = 2%nat
    /\ scrollAttempts st' = S (length pre).
Proof.
  induction counts as [|count counts IH]; intros st consumed Hlast Hattempts Hno st' unused;
    cbn [scrollLoop].
  - destruct (scrollAttempts st <? maxScrollAttempts)%nat; discriminate.
  - destruct (scrollAttempts st <? maxScrollAttempts)%nat; [|discriminate].
    assert (Hsnoc : last (0%nat :: consumed ++ [count]) = Some count).
    { change (0%nat :: consumed ++ [count]) with ((0%nat :: consumed) ++ [count]).
      apply last_snoc. }
    unfold iteration.
    destruct (count =? previousCount st)%nat eqn:Hsame.
    + apply Nat.eqb_eq in Hsame. subst count.
      destruct Hno as [Hno | (Hno & pre & Hpre & Hlastpre)]; rewrite Hno; cbn [Nat.leb].
      * intros Hloop.
        set (next := {| previousCount := previousCount st; currentCount := previousCount st;
                        scrollAttempts := S (scrollAttempts st); noChangeCount := 1 |}) in Hloop.
        assert (Hnext : scrollAttempts next = length (consumed ++ [previousCount st]))
          by (cbn; rewrite length_app, Hattempts; cbn; lia).
        destruct (IH next (consumed ++ [previousCount st]) Hsnoc Hnext
                    (or_intror (conj eq_refl (ex_intro _ consumed (conj eq_refl Hlast))))
                    st' unused Hloop)
          as (pre & c & Heq & Hc).
        exists pre, c. split; [|exact Hc].
        rewrite <- Heq, <- app_assoc. reflexivity.
      * intros Hloop. injection Hloop as <- <-.
        exists pre, (previousCount st). cbn.
        split; [rewrite Hpre, <- app_assoc; reflexivity|].
        split; [exact Hlastpre|]. split; [reflexivity|]. split; [reflexivity|].
        rewrite Hattempts, Hpre, length_app. cbn. lia.
    + intros Hloop.
      set (next := {| previousCount := count; currentCount := count;
                      scrollAttempts := S (scrollAttempts st); noChangeCount := 0 |}) in Hloop.
      assert (Hnext : scrollAttempts next = length (consumed ++ [count]))
        by (cbn; rewrite length_app, Hattempts; cbn; lia).
      destruct (IH next (consumed ++ [count]) Hsnoc Hnext (or_introl eq_refl)
                  st' unused Hloop)
        as (pre & c & Heq & Hc).
      exists pre, c. split; [|exact Hc].
      rewrite <- Heq, <- app_assoc. reflexivity.
Qed.

(** X12: the scroll loop stops at stability only on the second check in
    a row that reports the count of the check before it (the count
    before the first check being 0): the counts consumed end in [c, c]
    after a [c], the loop has then completed one iteration per count
    but the last, and [currentCount] is [c]. *)
Theorem scroll_stable_after_two_unchanged (counts : list nat) (st : State)
    (unused : list nat) (Hstable : scrollLoop counts initial = Stable st unused) :
  exists (pre : list nat) (c : nat),
    counts = pre ++ c :: c :: unused
    /\ last (0%nat :: pre) = Some c
    /\ currentCount st = c
    /\ noChangeCount st = 2%nat
    /\ scrollAttempts st = S (length pre).
Proof.
  exact (scrollLoop_stable counts initial [] eq_refl eq_refl (or_introl eq_refl)
           st unused Hstable).
Qed.

Lemma countResults_from (lengths : list nat) : forall maxCount : nat,
  let result := fold_left (fun maxCount n => if (maxCount <? n)%nat then n else maxCount)
                  lengths maxCount in
  (maxCount <= result)%nat
  /\ Forall (fun n => (n <= result)%nat) lengths
  /\ (result = maxCount \/ result ∈ lengths).
Proof.
  induction lengths as [|n lengths IH]; intros maxCount; cbv zeta; cbn [fold_left].
  - split; [lia|]. split; [constructor|left; reflexivity].
  - destruct (IH (if (maxCount <? n)%nat then n else maxCount)) as (Hle & Hall & Hin).
    cbv zeta in Hle, Hall, Hin.
    destruct (maxCount <? n)%nat eqn:Hlt;
      [apply Nat.ltb_lt in Hlt|apply Nat.ltb_ge in Hlt].
    + split; [lia|]. split; [constructor; [exact Hle|exact Hall]|].
      right. destruct Hin as [-> | Hin]; [left|right; exact Hin].
    + split; [exact Hle|]. split; [constructor; [lia|exact Hall]|].
      destruct Hin as [Hin | Hin]; [left; exact Hin|right; right; exact Hin].
Qed.

(** X13: the count one check reports is the largest number of matches
    among the selectors: no selector matched more, and it is 0 or the
    number of matches of one of them. *)
Theorem countResults_is_maximum (lengths : list nat) :
  Forall (fun n => (n <= countResults lengths)%nat) lengths
  /\ (countResults lengths = 0%nat \/ countResults lengths ∈ lengths).
Proof.
  destruct (countResults_from lengths 0%nat) as (_ & Hall & Hin).
  split; [exact Hall|exact Hin].
Qed.

End StabilityFacts.

(** ** What the fingerprint set-up draws *)

Section DrawFacts.
Import Fingerprint.

Lemma timezone_offset_listed (tz : string) :
  tz ∈ timezones -> lookupOffset tz offsets = Some (default 0%Z (lookupOffset tz offsets)).
Proof.
  unfold timezones. rewrite !elem_of_cons, elem_of_nil.
  intros [-> | [-> | [-> | [-> | [-> | []]]]]]; reflexivity.
Qed.

(** X14: with [Math.random()] in [0, 1), the set-up always finds a
    user agent and a viewport, both from the catalogs; every document
    then reports that user agent, an available height 40 below the
    viewport's, and a time zone of the list together with the offset
    the table gives for it. *)
Theorem fingerprint_drawn_from_catalogs (r1 r2 d : Q)
    (Hr1 : (0 <= r1)%Q /\ (r1 < 1)%Q) (Hr2 : (0 <= r2)%Q /\ (r2 < 1)%Q)
    (Hd : (0 <= d)%Q /\ (d < 1)%Q) :
  exists setup : PageSetup,
    setupFingerprintAvoidance r1 r2 = Some setup
    /\ userAgent setup ∈ userAgents
    /\ viewport setup ∈ viewports
    /\ nav_userAgent (initScript setup d) = userAgent setup
    /\ screen_availHeight (initScript setup d) = (height (viewport setup) - 40)%Z
    /\ exists tz : string,
         randomTimezone (initScript setup d) = Some tz
         /\ tz ∈ timezones
         /\ lookupOffset tz offsets = Some (getTimezoneOffset (initScript setup d)).
Proof.
  destruct Hr1 as [Ha Hb], Hr2 as [Hc Hc'], Hd as [He Hf].
  unfold setupFingerprintAvoidance, getRandomUserAgent, getRandomViewport.
  destruct (lookup_lt_is_Some_2 userAgents (randomIndex r1 (length userAgents)))
    as [ua Hua].
  { apply randomIndex_in_range; try assumption. vm_compute. lia. }
  destruct (lookup_lt_is_Some_2 viewports (randomIndex r2 (length viewports)))
    as [vp Hvp].
  { apply randomIndex_in_range; try assumption. vm_compute. lia. }
  destruct (lookup_lt_is_Some_2 timezones (randomIndex d (length timezones)))
    as [tz Htz].
  { apply randomIndex_in_range; try assumption. vm_compute. lia. }
  rewrite Hua, Hvp. eexists. split; [reflexivity|]. cbn [userAgent viewport initScript].
  split; [exact (list_elem_of_lookup_2 _ _ _ Hua)|].
  split; [exact (list_elem_of_lookup_2 _ _ _ Hvp)|].
  split; [reflexivity|]. split; [reflexivity|].
  exists tz. unfold onNewDocument. cbn [randomTimezone getTimezoneOffset].
  rewrite Htz. split; [reflexivity|].
  pose proof (list_elem_of_lookup_2 _ _ _ Htz) as Hin.
  split; [exact Hin|exact (timezone_offset_listed tz Hin)].
Qed.

End DrawFacts.

(** ** The elements the card extraction reads *)

Section ElementFacts.
Import JS Summary.

Lemma collect_distinct (els : list Card) : forall seen : list (list N),
  NoDup (map identifier (collect seen els))
  /\ Forall (fun el => identifier el ∉ seen) (collect seen els)
  /\ collect seen els ⊆ els
  /\ Forall (fun el => identifier el ∈ seen
                       \/ identifier el ∈ map identifier (collect seen els)) els.
Proof.
  induction els as [|el els IH]; intros seen; cbn [collect].
  - split; [constructor|]. split; [constructor|]. split; [intros x Hx; exact Hx|constructor].
  - destruct (bool_decide (identifier el ∈ seen)) eqn:Hseen.
    + apply bool_decide_eq_true in Hseen.
      destruct (IH seen) as (Hnd & Hnew & Hsub & Hall).
      split; [exact Hnd|]. split; [exact Hnew|].
      split; [intros x Hx; right; exact (Hsub x Hx)|].
      constructor; [left; exact Hseen|exact Hall].
    + apply bool_decide_eq_false in Hseen.
      destruct (IH (identifier el :: seen)) as (Hnd & Hnew & Hsub & Hall).
      split; [|split; [|split]].
      * cbn [map]. constructor; [|exact Hnd].
        rewrite list_elem_of_fmap. intros (el' & Heq & Hin).
        rewrite Forall_forall in Hnew. apply (Hnew el' Hin). rewrite <- Heq. left.
      * constructor; [exact Hseen|].
        eapply Forall_impl; [exact Hnew|]. intros el' Hel' Hin. apply Hel'. right. exact Hin.
      * intros x Hx. apply elem_of_cons in Hx as [-> | Hx]; [left|right; exact (Hsub x Hx)].
      * constructor; [right; cbn [map]; left|].
        eapply Forall_impl; [exact Hall|]. cbn [map].
        intros el' [Hel' | Hel'].
        -- apply elem_of_cons in Hel' as [-> | Hel']; [right; left|left; exact Hel'].
        -- right. right. exact Hel'.
Qed.

(** X15: the elements the extraction walks have pairwise different
    identifiers (the first 50 code units of the text followed by the
    link); each was matched by some selector, and every matched
    element's identifier is that of one of them. *)
Theorem businessElements_distinct (bySelector : list (list Card)) :
  NoDup (map identifier (businessElements bySelector))
  /\ businessElements bySelector ⊆ concat bySelector
  /\ map identifier (concat bySelector) ⊆ map identifier (businessElements bySelector).
Proof.
  unfold businessElements.
  destruct (collect_distinct (concat bySelector) []) as (Hnd & _ & Hsub & Hall).
  split; [exact Hnd|]. split; [exact Hsub|].
  intros i Hi. apply list_elem_of_fmap in Hi as (el & -> & Hel).
  rewrite Forall_forall in Hall.
  destruct (Hall el Hel) as [Hin | Hin]; [|exact Hin].
  apply elem_of_nil in Hin. contradiction.
Qed.

End ElementFacts.

(** ** The website of the place page *)

Section DetailWebsiteFacts.
Context `{Platform}.
Import JS.

Lemma websiteStrategy4_http (links : list Detail.Link) (w : list N) :
  Detail.websiteStrategy4 links = Ok (Some w) -> startsWith (js "http") w = true.
Proof.
  induction links as [|link links IH]; cbn [Detail.websiteStrategy4]; [discriminate|].
  destruct (Detail.l_href link) as [h|]; [|exact IH].
  destruct (nonEmpty (Some h) && startsWith (js "http") h) eqn:Hh; [|exact IH].
  apply andb_true_iff in Hh as [_ Hh].
  destruct (hostname h) as [host|]; [|discriminate].
  destruct (existsb _ Detail.excludedDomains); [exact IH|].
  destruct (_ && _); [|exact IH].
  intros Hw. injection Hw as <-. exact Hh.
Qed.

Lemma unlessSet_cases (current strategy : option (list N)) (w : list N) :
  Detail.unlessSet current strategy = Some w -> current = Some w \/ strategy = Some w.
Proof.
  unfold Detail.unlessSet.
  destruct (nonEmpty current); [auto|].
  destruct strategy; auto.
Qed.

(** X16: a website the place-page callback settles on starts with
    [http] and contains none of [google.com/maps], [maps.google.com]
    and [google.com/search]. *)
Theorem detail_website_shape (dom : Detail.Dom) (w : list N)
    (Hw : Detail.extractWebsite dom = Ok (Some w)) :
  startsWith (js "http") w = true
  /\ includes (js "google.com/maps") w = false
  /\ includes (js "maps.google.com") w = false
  /\ includes (js "google.com/search") w = false.
Proof.
  assert (H1 : forall v, Detail.websiteStrategy1 (Detail.websiteButton dom) = Some v ->
                         startsWith (js "http") v = true).
  { intros v. unfold Detail.websiteStrategy1.
    destruct (Detail.websiteButton dom) as [b|]; [|discriminate].
    destruct (orElse _ _) as [h|]; [|discriminate].
    destruct (nonEmpty (Some h) && startsWith (js "http") h) eqn:Hh; [|discriminate].
    apply andb_true_iff in Hh as [_ Hh].
    destruct (Detail.includesNone _ h); [|discriminate].
    intros Hv. injection Hv as <-. exact Hh. }
  assert (H2 : forall v, Detail.websiteStrategy2 (Detail.websiteSectionLinks dom) = Some v ->
                         startsWith (js "http") v = true).
  { intros v. unfold Detail.websiteStrategy2.
    destruct (Detail.websiteSectionLinks dom) as [links|]; [|discriminate].
    intros Hv. apply firstOf_some in Hv as (link & _ & Hv).
    revert Hv. unfold Detail.websiteOfLabelledLink.
    destruct (Detail.l_href link) as [h|]; [|discriminate].
    destruct (nonEmpty (Some h) && startsWith (js "http") h) eqn:Hh; [|discriminate].
    apply andb_true_iff in Hh as [_ Hh].
    destruct (_ && _); [|discriminate].
    intros Hv. injection Hv as <-. exact Hh. }
  assert (H3 : forall v, Detail.websiteStrategy3 (Detail.contactInfoElements dom) = Some v ->
                         startsWith (js "http") v = true).
  { intros v. unfold Detail.websiteStrategy3.
    intros Hv. apply firstOf_some in Hv as (element & _ & Hv).
    revert Hv. unfold Detail.websiteOfContact.
    destruct (Detail.ce_httpLink element) as [[h|]|]; try discriminate.
    destruct (nonEmpty (Some h) && startsWith (js "http") h) eqn:Hh; [|discriminate].
    apply andb_true_iff in Hh as [_ Hh].
    destruct (_ && _); [|discriminate].
    intros Hv. injection Hv as <-. exact Hh. }
  assert (Hdrop : forall website,
             (forall v, website = Some v -> startsWith (js "http") v = true) ->
             Detail.dropMapsLink website = Some w ->
             startsWith (js "http") w = true
             /\ includes (js "google.com/maps") w = false
             /\ includes (js "maps.google.com") w = false
             /\ includes (js "google.com/search") w = false).
  { intros website Hhttp. unfold Detail.dropMapsLink.
    destruct website as [v|]; [|discriminate].
    specialize (Hhttp v eq_refl).
    assert (Hne : nonEmpty (Some v) = true) by (destruct v; [discriminate Hhttp|reflexivity]).
    rewrite Hne. cbn [andb].
    destruct (includes (js "google.com/maps") v) eqn:Ha; [discriminate|].
    destruct (includes (js "maps.google.com") v) eqn:Hb; [discriminate|].
    destruct (includes (js "google.com/search") v) eqn:Hc; [discriminate|].
    cbn [orb]. intros Hv. injection Hv as <-. auto. }
  revert Hw. unfold Detail.extractWebsite.
  set (website := Detail.unlessSet (Detail.unlessSet _ _) _).
  assert (Hwebsite : forall v, website = Some v -> startsWith (js "http") v = true).
  { intros v Hv. unfold website in Hv.
    apply unlessSet_cases in Hv as [Hv | Hv]; [|exact (H3 v Hv)].
    apply unlessSet_cases in Hv as [Hv | Hv]; [exact (H1 v Hv)|exact (H2 v Hv)]. }
  destruct (nonEmpty website).
  - intros Hw. injection Hw as Hw. exact (Hdrop website Hwebsite Hw).
  - destruct (Detail.websiteStrategy4 (Detail.allLinks dom)) as [found|e] eqn:H4; [|discriminate].
    intros Hw. injection Hw as Hw. apply (Hdrop (Detail.unlessSet website found)); [|exact Hw].
    intros v Hv. apply unlessSet_cases in Hv as [Hv | Hv]; [exact (Hwebsite v Hv)|].
    subst found. exact (websiteStrategy4_http _ _ H4).
Qed.

End DetailWebsiteFacts.

(** ** The merge on summary records *)

Section MergeFacts.
Context `{Platform}.
Import JS.

(** The website of a summary record is a string or [null]. *)
Lemma extractCard_website_dom (index : nat) (element : Summary.Card) (b : Business) :
  Summary.extractCard index element = Some b ->
  exists o : option (list N), prop b "website" = ofDom o.
Proof.
  unfold Summary.extractCard.
  destruct (orElse (trim <$> Summary.nameText element) _) as [n|]; [|discriminate].
  destruct (_ && _); [|discriminate].
  intros Hb. injection Hb as <-.
  unfold prop. rewrite !lookup_insert_ne by discriminate. rewrite lookup_insert_eq.
  eexists. reflexivity.
Qed.

Lemma unlessMapsLink_ofDom (o : option (list N)) :
  exists o' : option (list N), Detail.unlessMapsLink (ofDom o) = Ok (ofDom o').
Proof.
  destruct o as [[|c s]|]; try (exists None; reflexivity).
  unfold Detail.unlessMapsLink. cbn [ofDom truthy Detail.valueIncludes].
  destruct (includes (js "google.com/maps") (c :: s)); [exists None; reflexivity|].
  destruct (includes (js "maps.google.com") (c :: s)); [exists None; reflexivity|].
  exists (Some (c :: s)). reflexivity.
Qed.

Lemma isMapsLink_ofDom (o : option (list N)) :
  exists found : bool, Detail.isMapsLink (ofDom o) = Ok found.
Proof.
  destruct o as [[|c s]|]; try (exists false; reflexivity).
  unfold Detail.isMapsLink. cbn [ofDom truthy Detail.valueIncludes].
  destruct (includes (js "google.com/maps") (c :: s)); eauto.
Qed.

(** The merge throws only on a website that is neither a string nor
    falsy. *)
Lemma finalWebsite_defined (business : Business) (info : Detail.Details)
    (o : option (list N)) :
  prop business "website" = ofDom o ->
  exists v : Value, Detail.finalWebsite business info = Ok v.
Proof.
  intros Ho. unfold Detail.finalWebsite. rewrite Ho.
  destruct (unlessMapsLink_ofDom (Detail.website info)) as (d' & ->).
  destruct (unlessMapsLink_ofDom o) as (o' & ->).
  assert (Hfinal : exists f : option (list N),
             (if truthy (ofDom d') && truthy (ofDom o') then ofDom d'
              else if truthy (ofDom d') then ofDom d'
              else if truthy (ofDom o') then ofDom o'
              else JNull) = ofDom f).
  { destruct (truthy (ofDom d')), (truthy (ofDom o')); cbn [andb];
      first [exists d'; reflexivity | exists o'; reflexivity | exists None; reflexivity]. }
  destruct Hfinal as (f & ->).
  destruct (isMapsLink_ofDom f) as ([|] & ->); eauto.
Qed.

(** X17: on a record of the card extraction and the details its place
    page gave, the merge never throws; the record it builds has a
    [null] description, and the hours and category of the page. *)
Theorem merge_accepts_summary_records (index : nat) (element : Summary.Card)
    (b : Business) (dom : Detail.Dom) (info : Detail.Details)
    (Hb : Summary.extractCard index element = Some b)
    (Hinfo : Detail.detailedInfo dom (prop b "name") = Ok info) :
  exists r : Business,
    Detail.enhance b info = Ok r
    /\ prop r "description" = JNull
    /\ prop r "hours" = ofDom (Detail.extractHours dom)
    /\ prop r "category" = ofDom (Detail.extractCategory dom).
Proof.
  destruct (extractCard_website_dom index element b Hb) as (o & Ho).
  destruct (finalWebsite_defined b info o Ho) as (v & Hv).
  unfold Detail.enhance. rewrite Hv. eexists. split; [reflexivity|].
  revert Hinfo. unfold Detail.detailedInfo.
  destruct (Detail.nameMismatch _ _) as [mismatch|e]; [|discriminate].
  destruct (Detail.extractWebsite dom) as [website|e]; [|discriminate].
  intros Hinfo. injection Hinfo as <-. cbn [Detail.description Detail.hours Detail.category].
  unfold prop.
  repeat split;
    repeat first [rewrite lookup_insert_eq | rewrite lookup_insert_ne by discriminate];
    reflexivity.
Qed.

Lemma websiteStrategy4_throws (links : list Detail.Link) (e : Error) :
  Detail.websiteStrategy4 links = Throw e ->
  e = TypeError
  /\ exists (link : Detail.Link) (h : list N),
       link ∈ links /\ Detail.l_href link = Some h
       /\ startsWith (js "http") h = true /\ hostname h = None.
Proof.
  induction links as [|link links IH]; cbn [Detail.websiteStrategy4]; [discriminate|].
  assert (Hrest : Detail.websiteStrategy4 links = Throw e ->
                  e = TypeError
                  /\ exists (link' : Detail.Link) (h : list N),
                       link' ∈ link :: links /\ Detail.l_href link' = Some h
                       /\ startsWith (js "http") h = true /\ hostname h = None).
  { intros He. destruct (IH He) as (-> & link' & h & Hin & Hh).
    split; [reflexivity|]. exists link', h. split; [right; exact Hin|exact Hh]. }
  destruct (Detail.l_href link) as [h|] eqn:Hhref; [|exact Hrest].
  destruct (nonEmpty (Some h) && startsWith (js "http") h) eqn:Hh; [|exact Hrest].
  apply andb_true_iff in Hh as [_ Hh].
  destruct (hostname h) as [host|] eqn:Hhost.
  - destruct (existsb _ Detail.excludedDomains); [exact Hrest|].
    destruct (_ && _); [discriminate|exact Hrest].
  - intros He. injection He as <-. split; [reflexivity|].
    exists link, h. split; [left|auto].
Qed.

(** X18: for a business whose name is a string, the place-page callback
    throws only when strategies 1 to 3 found no website and it meets a
    link that starts with [http] and that [new URL] rejects; what it
    throws is then that [TypeError]. *)
Theorem detail_callback_fails_only_on_malformed_link (dom : Detail.Dom) (name : list N)
    (e : Error) (Hthrows : Detail.detailedInfo dom (JStr name) = Throw e) :
  e = TypeError
  /\ Detail.websiteStrategy1 (Detail.websiteButton dom) = None
  /\ exists (link : Detail.Link) (h : list N),
       link ∈ Detail.allLinks dom /\ Detail.l_href link = Some h
       /\ startsWith (js "http") h = true /\ hostname h = None.
Proof.
  revert Hthrows. unfold Detail.detailedInfo.
  assert (Hname : exists mismatch : bool,
             Detail.nameMismatch (Detail.firstName (Detail.panelNames dom)) (JStr name)
             = Ok mismatch).
  { unfold Detail.nameMismatch.
    destruct (Detail.firstName (Detail.panelNames dom)) as [p|]; [|eauto].
    destruct (nonEmpty (Some p)); cbn [Detail.namePrefix]; eauto. }
  destruct Hname as (mismatch & ->).
  unfold Detail.extractWebsite.
  destruct (nonEmpty (Detail.unlessSet (Detail.unlessSet _ _) _)) eqn:Hnone; [discriminate|].
  destruct (Detail.websiteStrategy4 (Detail.allLinks dom)) as [found|e'] eqn:H4; [discriminate|].
  intros He. injection He as <-.
  destruct (websiteStrategy4_throws _ _ H4) as (-> & Hlink).
  split; [reflexivity|]. split; [|exact Hlink].
  revert Hnone. unfold Detail.unlessSet.
  destruct (Detail.websiteStrategy1 (Detail.websiteButton dom)) as [v|] eqn:H1; [|reflexivity].
  assert (Hv : nonEmpty (Some v) = true).
  { revert H1. unfold Detail.websiteStrategy1.
    destruct (Detail.websiteButton dom) as [button|]; [|discriminate].
    destruct (orElse _ _) as [h|]; [|discriminate].
    destruct (nonEmpty (Some h)) eqn:Hh; cbn [andb]; [|discriminate].
    destruct (_ && _); [|discriminate].
    intros Hx. injection Hx as <-. exact Hh. }
  rewrite Hv. rewrite Hv. rewrite Hv. discriminate.
Qed.

End MergeFacts.

(** ** De-duplication, again *)

Section UniqueAgain.
Import JS Summary.

Lemma unique_step (pre : list Business) (x : Business) (l : list Business) :
  filterIndexed (fun business index => (index =? findIndex (sameName business) (pre ++ x :: l))%Z)
    (Z.of_nat (length pre)) (x :: l)
  = let rest := filterIndexed
                  (fun business index =>
                     (index =? findIndex (sameName business) ((pre ++ [x]) ++ l))%Z)
                  (Z.of_nat (length (pre ++ [x]))) l in
    if existsb (sameName x) pre then rest else x :: rest.
Proof.
  cbn [filterIndexed]. rewrite kept_iff_first.
  rewrite <- app_assoc. cbn [app].
  rewrite length_app, Nat2Z.inj_add. change (Z.of_nat (length [x])) with 1%Z.
  destruct (existsb (sameName x) pre); reflexivity.
Qed.

(** No record that is kept has the name of an earlier one. *)
Lemma unique_distinct (l : list Business) : forall (pre a b : list Business) (x : Business),
  filterIndexed (fun business index => (index =? findIndex (sameName business) (pre ++ l))%Z)
    (Z.of_nat (length pre)) l = a ++ x :: b ->
  existsb (sameName x) pre = false /\ existsb (sameName x) a = false.
Proof.
  induction l as [|x0 l IH]; intros pre a b x.
  - cbn [filterIndexed]. destruct a; discriminate.
  - rewrite unique_step. cbv zeta.
    destruct (existsb (sameName x0) pre) eqn:Hx0.
    + intros Heq. destruct (IH _ _ _ _ Heq) as [Hpre Ha].
      rewrite existsb_app in Hpre. apply orb_false_iff in Hpre as [Hpre _]. auto.
    + destruct a as [|y a]; cbn [app]; intros Heq; injection Heq as <- Heq.
      * auto.
      * destruct (IH _ _ _ _ Heq) as [Hpre Ha].
        rewrite existsb_app in Hpre. apply orb_false_iff in Hpre as [Hpre Hx].
        cbn [existsb] in Hx. rewrite orb_false_r in Hx.
        split; [exact Hpre|]. cbn [existsb]. rewrite Hx, Ha. reflexivity.
Qed.

(** A list in which no record has the name of an earlier one is kept
    whole. *)
Lemma unique_fixed (l : list Business) : forall pre : list Business,
  (forall (a b : list Business) (x : Business),
      l = a ++ x :: b -> existsb (sameName x) (pre ++ a) = false) ->
  filterIndexed (fun business index => (index =? findIndex (sameName business) (pre ++ l))%Z)
    (Z.of_nat (length pre)) l = l.
Proof.
  induction l as [|x0 l IH]; intros pre Hl; [reflexivity|].
  rewrite unique_step. cbv zeta.
  pose proof (Hl [] l x0 eq_refl) as Hx0. rewrite app_nil_r in Hx0. rewrite Hx0.
  f_equal. apply IH.
  intros a b x Heq. rewrite <- app_assoc. cbn [app].
  apply (Hl (x0 :: a) b x). rewrite Heq. reflexivity.
Qed.

Lemma filterIndexed_sublist {A} (keep : A -> Z -> bool) (l : list A) : forall i : Z,
  sublist (filterIndexed keep i l) l.
Proof.
  induction l as [|x l IH]; intros i; cbn [filterIndexed].
  - constructor.
  - destruct (keep x i); [apply sublist_skip|apply sublist_cons]; apply IH.
Qed.

(** X19: the de-duplication keeps the records in the order of the pass,
    and de-duplicating its result changes nothing. *)
Theorem uniqueResults_idempotent (results : list Business) :
  sublist (uniqueResults results) results
  /\ uniqueResults (uniqueResults results) = uniqueResults results.
Proof.
  split; [apply filterIndexed_sublist|].
  unfold uniqueResults at 1.
  apply (unique_fixed (uniqueResults results) []).
  intros a b x Heq. cbn [app].
  exact (proj2 (unique_distinct results [] a b x Heq)).
Qed.

End UniqueAgain.

(** ** More scripted runs *)

Lemma slug_shape_witness :
  head (@Csv.createQuerySlug Demo.platform (JS.js "  Cafes & Bars in Lahore! ")) = Some 99
  /\ Csv.isSlugChar 99 = true.
Proof.
  assert (Hhead : head (@Csv.createQuerySlug Demo.platform (JS.js "  Cafes & Bars in Lahore! "))
                  = Some 99) by (vm_compute; reflexivity).
  split; [exact Hhead|].
  exact (proj1 (proj2 (@slug_shape Demo.platform (JS.js "  Cafes & Bars in Lahore! "))) 99 Hhead).
Defined.

Lemma csv_row_reads_back_witness :
  Csv.parseCSVLine
    (Csv.row (fun _ => JS.js "4.5") [JS.JStr (JS.js "Cafe, One"); JS.JNull; JS.JNum 4.5])
  = [JS.js "Cafe, One"; []; JS.js "4.5"].
Proof.
  rewrite (csv_row_reads_back (fun _ => JS.js "4.5")
             [JS.JStr (JS.js "Cafe, One"); JS.JNull; JS.JNum 4.5]).
  - vm_compute. reflexivity.
  - discriminate.
Defined.

Lemma known_placeId_is_duplicate_witness :
  @Store.saveSingleBusinessToDB (list Business) DemoStore.database
    (DemoStore.listed "Cafe One" "ChIJ1") (JS.js "cafe in lahore") (JS.js "cafe_in_lahore")
    [DemoStore.entry "ChIJ1" "cafe_in_lahore"]
  = (Ok Store.duplicateResult, [DemoStore.entry "ChIJ1" "cafe_in_lahore"]).
Proof.
  apply (@known_placeId_is_duplicate (list Business) DemoStore.database
           (DemoStore.listed "Cafe One" "ChIJ1") (DemoStore.entry "ChIJ1" "cafe_in_lahore"));
    vm_compute; reflexivity.
Defined.

Lemma saveBusinessesToDB_statistics_witness :
  @Store.saveBusinessesToDB Demo.platform (list Business) DemoStore.database
    [DemoStore.listed "Cafe One" "ChIJ1"] [] []
  = (Throw Store.queryRequired, []).
Proof.
  exact (proj1 (@saveBusinessesToDB_statistics Demo.platform (list Business) DemoStore.database
                  [DemoStore.listed "Cafe One" "ChIJ1"] [] []) eq_refl).
Defined.

Lemma summary_record_shape_witness :
  exists b : Business,
    Summary.extractCard 0 Demo.cafeOne = Some b
    /\ nonEmptyString (prop b "name")
    /\ absoluteOrNull (prop b "placeUrl").
Proof.
  assert (Hsome : match Summary.extractCard 0 Demo.cafeOne with Some _ => true | None => false end
                  = true) by (vm_compute; reflexivity).
  destruct (Summary.extractCard 0 Demo.cafeOne) as [b|] eqn:Hb; [|discriminate Hsome].
  exists b. split; [reflexivity|].
  pose proof (summary_record_shape 0 Demo.cafeOne b Hb) as (Hname & _ & _ & Hurl).
  split; assumption.
Defined.

Lemma returned_records_shape_witness :
  exists (rs : list Business) (w' : nat),
    Demo.scrape (Demo.calm [Demo.cafeOne; Demo.cafeTwo] Demo.placeDom) (Some Demo.quietSink)
    = (Ok rs, w')
    /\ Forall (fun r => nonEmptyString (prop r "name")) rs.
Proof.
  assert (Hok : returns (Demo.scrape (Demo.calm [Demo.cafeOne; Demo.cafeTwo] Demo.placeDom)
                           (Some Demo.quietSink)) = true) by (vm_compute; reflexivity).
  destruct (Demo.scrape (Demo.calm [Demo.cafeOne; Demo.cafeTwo] Demo.placeDom)
              (Some Demo.quietSink)) as [[rs|e] w'] eqn:Hrun; [|discriminate Hok].
  exists rs, w'. split; [reflexivity|].
  eapply Forall_impl;
    [exact (@returned_records_shape Demo.platform nat
              (Demo.browser (Demo.calm [Demo.cafeOne; Demo.cafeTwo] Demo.placeDom))
              _ _ _ _ _ Hrun)|].
  intros r Hr. apply Hr.
Defined.



Lemma scroll_stable_after_two_unchanged_witness :
  exists (pre : list nat) (c : nat),
    [5; 5; 5]%nat = pre ++ [c; c] /\ last (0%nat :: pre) = Some c.
Proof.
  destruct (scroll_stable_after_two_unchanged [5; 5; 5]%nat
              {| Scroll.previousCount := 5; Scroll.currentCount := 5;
                 Scroll.scrollAttempts := 2; Scroll.noChangeCount := 2 |} [] eq_refl)
    as (pre & c & Heq & Hlast & _).
  exists pre, c. split; assumption.
Defined.

Lemma fingerprint_drawn_from_catalogs_witness :
  exists setup : Fingerprint.PageSetup,
    Fingerprint.setupFingerprintAvoidance 0 (1 # 2) = Some setup
    /\ Fingerprint.userAgent setup ∈ Fingerprint.userAgents
    /\ Fingerprint.viewport setup ∈ Fingerprint.viewports.
Proof.
  assert (Hzero : (0 <= 0)%Q /\ (0 < 1)%Q) by (unfold Qle, Qlt; cbn; lia).
  assert (Hhalf : (0 <= 1 # 2)%Q /\ (1 # 2 < 1)%Q) by (unfold Qle, Qlt; cbn; lia).
  assert (Hlate : (0 <= 9 # 10)%Q /\ (9 # 10 < 1)%Q) by (unfold Qle, Qlt; cbn; lia).
  destruct (fingerprint_drawn_from_catalogs 0 (1 # 2) (9 # 10) Hzero Hhalf Hlate)
    as (setup & Hsetup & Hua & Hvp & _).
  exists setup. auto.
Defined.

Lemma detail_website_shape_witness :
  @Detail.extractWebsite Demo.platform Demo.placeDom
  = Ok (Some (JS.js "https://cafe-one.example.com/"))
  /\ JS.startsWith (JS.js "http") (JS.js "https://cafe-one.example.com/") = true.
Proof.
  assert (Hw : @Detail.extractWebsite Demo.platform Demo.placeDom
               = Ok (Some (JS.js "https://cafe-one.example.com/")))
    by (vm_compute; reflexivity).
  split; [exact Hw|].
  exact (proj1 (@detail_website_shape Demo.platform _ _ Hw)).
Defined.

Lemma merge_accepts_summary_records_witness :
  exists (b : Business) (info : Detail.Details) (r : Business),
    Summary.extractCard 0 Demo.cafeOne = Some b
    /\ @Detail.detailedInfo Demo.platform Demo.placeDom (prop b "name") = Ok info
    /\ Detail.enhance b info = Ok r
    /\ prop r "description" = JS.JNull.
Proof.
  assert (Hok : match Summary.extractCard 0 Demo.cafeOne with
                | Some b =>
                    match @Detail.detailedInfo Demo.platform Demo.placeDom (prop b "name") with
                    | Ok _ => true
                    | Throw _ => false
                    end
                | None => false
                end = true) by (vm_compute; reflexivity).
  destruct (Summary.extractCard 0 Demo.cafeOne) as [b|] eqn:Hb; [|discriminate Hok].
  destruct (@Detail.detailedInfo Demo.platform Demo.placeDom (prop b "name"))
    as [info|e] eqn:Hinfo; [|discriminate Hok].
  destruct (@merge_accepts_summary_records Demo.platform 0 Demo.cafeOne b Demo.placeDom info
              Hb Hinfo) as (r & Hr & Hdescription & _).
  exists b, info, r. auto.
Defined.

Lemma detail_callback_fails_only_on_malformed_link_witness :
  @Detail.detailedInfo Demo.platform Demo.brokenDom (JS.JStr (JS.js "Cafe One"))
  = Throw TypeError
  /\ Detail.websiteStrategy1 (Detail.websiteButton Demo.brokenDom) = None.
Proof.
  assert (Hthrows : @Detail.detailedInfo Demo.platform Demo.brokenDom
                      (JS.JStr (JS.js "Cafe One")) = Throw TypeError)
    by (vm_compute; reflexivity).
  split; [exact Hthrows|].
  exact (proj1 (proj2 (@detail_callback_fails_only_on_malformed_link Demo.platform
                         _ _ _ Hthrows))).
Defined.

Lemma saved_only_after_lookups_witness :
  exists (r : Store.SaveResult) (w' : list Business),
    @Store.saveSingleBusinessToDB (list Business) DemoStore.database
      (DemoStore.listed "Cafe One" "ChIJ1") (JS.js "cafe in lahore") (JS.js "cafe_in_lahore") []
    = (Ok r, w')
    /\ Store.saved r = true
    /\ @Store.findOne (list Business) DemoStore.database
         (Store.ByPlaceId (prop (DemoStore.listed "Cafe One" "ChIJ1") "placeId")
            (JS.js "cafe_in_lahore")) []
       = (Ok None, []).
Proof.
  assert (Hok : match @Store.saveSingleBusinessToDB (list Business) DemoStore.database
                        (DemoStore.listed "Cafe One" "ChIJ1") (JS.js "cafe in lahore")
                        (JS.js "cafe_in_lahore") [] with
                | (Ok r, _) => Store.saved r
                | (Throw _, _) => false
                end = true) by (vm_compute; reflexivity).
  destruct (@Store.saveSingleBusinessToDB (list Business) DemoStore.database
              (DemoStore.listed "Cafe One" "ChIJ1") (JS.js "cafe in lahore")
              (JS.js "cafe_in_lahore") []) as [[r|e] w'] eqn:Hrun; [|discriminate Hok].
  exists r, w'. split; [reflexivity|]. split; [exact Hok|].
  destruct (@saved_only_after_lookups (list Business) DemoStore.database
              (DemoStore.listed "Cafe One" "ChIJ1") (JS.js "cafe in lahore")
              (JS.js "cafe_in_lahore") [] w' r Hrun Hok)
    as (w1 & w2 & w3 & scrapedAt & Hfirst & _).
  reflexivity.
Defined.

(** The scripted page never touches the counters of the route. *)
Lemma scripted_page_keeps (sc : Demo.Script) (n : nat) :
  @browserKeeps (list Business * Store.Counters) (DemoStore.page sc)
    (fun s => Store.counted (snd s) = n).
Proof.
  unfold browserKeeps, keeps, wp. cbn.
  repeat split; try (intros; assumption).
  intros a w Hw. destruct (Demo.fails sc a); exact Hw.
Qed.

Lemma route_counts_every_record_witness :
  exists (rs : list Business) (s' : list Business * Store.Counters),
    @scrapeGoogleMaps Demo.platform (list Business * Store.Counters)
      (DemoStore.page (Demo.calm [Demo.cafeTwo; Demo.cafeTwo] Demo.emptyDom))
      (JS.js "cafe in lahore")
      (Some (@Store.onBusinessExtracted (list Business) DemoStore.database
               (JS.js "cafe_in_lahore")))
      ([], Store.noCounts)
    = (Ok rs, s')
    /\ Store.counted (snd s') = (0 + length rs)%nat.
Proof.
  assert (Hok : returns
                  (@scrapeGoogleMaps Demo.platform (list Business * Store.Counters)
                     (DemoStore.page (Demo.calm [Demo.cafeTwo; Demo.cafeTwo] Demo.emptyDom))
                     (JS.js "cafe in lahore")
                     (Some (@Store.onBusinessExtracted (list Business) DemoStore.database
                              (JS.js "cafe_in_lahore")))
                     ([], Store.noCounts)) = true) by (vm_compute; reflexivity).
  destruct (@scrapeGoogleMaps Demo.platform (list Business * Store.Counters)
              (DemoStore.page (Demo.calm [Demo.cafeTwo; Demo.cafeTwo] Demo.emptyDom))
              (JS.js "cafe in lahore")
              (Some (@Store.onBusinessExtracted (list Business) DemoStore.database
                       (JS.js "cafe_in_lahore")))
              ([], Store.noCounts)) as [[rs|e] s'] eqn:Hrun; [|discriminate Hok].
  exists rs, s'. split; [reflexivity|].
  exact (@route_counts_every_record Demo.platform (list Business) DemoStore.database
           (DemoStore.page (Demo.calm [Demo.cafeTwo; Demo.cafeTwo] Demo.emptyDom))
           (JS.js "cafe in lahore") (JS.js "cafe_in_lahore") ([], Store.noCounts) s' rs
           (scripted_page_keeps _) Hrun).
Defined.
